(** * Dome fisheye projection, frame pacing and recording: a shallow embedding

    The development embeds the dome pipeline of the installation and the
    pages that drive it:

    - the fragment shader of [FisheyeShader] (bornDomeProjection.js), over the
      real numbers, with the shader's own [PI] constant;
    - the frame pacer [shouldRenderDomeFrame] and the dome keyboard handler
      (bornDomeProjection.js) together with the [animate]/[render] loop of
      born.js, over the rationals: in exact arithmetic, and for the pacer
      also with the rounding of its subtractions as a parameter, which
      rounding to the nearest double instantiates;
    - the recorder and image-sequence exporter (bornRecording.js), as
      functions on an explicit world state that also holds what the browser
      keeps for the page: the canvas, media encoders, timers, downloads and
      the console;
    - the step machine of bornScrollAnimations.js, with the materials it
      shares with born.js, and the texts and steps of unborn.js, as functions
      on the state of each module that return how a callback ends;
    - the placing of the 3D texts (bornTextForDome.js, unbornTextForDome.js),
      their canvases, and the blobs of [updateCubes], over the real numbers.

    Definitions come first, theorems afterwards. *)

From Stdlib Require Import Reals Psatz Lia Machin.
From Stdlib Require Import QArith Qround Qabs Qpower ZArith List Bool String Ascii.
From Stdlib Require Import DecimalString Decimal DecimalPos.
Import ListNotations.

Close Scope Q_scope.
Open Scope string_scope.

(* ====================================================================== *)
(** * Part I.  The fisheye fragment shader *)
(* ====================================================================== *)

Module Fisheye.

Local Open Scope R_scope.

(** GLSL vectors.  Shader floats are read as real numbers; a float literal
    is read as the binary32 number it denotes. *)
Record vec2 : Type := mkVec2 { x2 : R; y2 : R }.
Record vec3 : Type := mkVec3 { x3 : R; y3 : R; z3 : R }.
Record vec4 : Type := mkVec4 { x4 : R; y4 : R; z4 : R; w4 : R }.

(** [#define PI 3.14159265359].  The macro is a GLSL float literal: its value
    is the binary32 number nearest to the decimal, 13176795 / 2^22, that is
    3.1415927410125732421875.  (The decimal 3.14159265359 itself lies within
    1e-12 of pi; the binary32 number does not.) *)
Definition PI_const : R := 13176795 / 4194304.

(** [const DOME_FOV = 180] *)
Definition DOME_FOV : R := 180.

(** GLSL [length] on a [vec2]. *)
Definition length (v : vec2) : R := sqrt (x2 v * x2 v + y2 v * y2 v).

(** GLSL [dot] on [vec3]. *)
Definition dot (a b : vec3) : R := x3 a * x3 b + y3 a * y3 b + z3 a * z3 b.

(** [vec2 uv = vUv * 2.0 - 1.0] *)
Definition centered (vUv : vec2) : vec2 :=
  mkVec2 (x2 vUv * 2 - 1) (y2 vUv * 2 - 1).

(** What one invocation of [main] does for its pixel: it either writes a
    constant colour, or it fetches the cube map in one direction and writes
    the fetched texel. *)
Inductive FragOp : Type :=
| WriteColor (c : vec4)
| TextureCube (sampleDir : vec3).

(** The forward axis before the remap ("phi=0 looks forward (positive Z)") and
    the remap itself ("flip z to look into the scene"). *)
Definition forward_local : vec3 := mkVec3 0 0 1.
Definition toCapture (dir : vec3) : vec3 := mkVec3 (x3 dir) (y3 dir) (- z3 dir).
Definition forward : vec3 := toCapture forward_local.

Section Shader.

(** The two-argument GLSL [atan(y, x)]; GLSL leaves [atan(0, 0)] undefined,
    so the shader is embedded for any such function. *)
Variable atan2 : R -> R -> R.

(** [float theta = atan(uv.y, uv.x)] *)
Definition theta_of (uv : vec2) : R := atan2 (y2 uv) (x2 uv).

(** [float phi = r * (fov / 2.0) * PI / 180.0] *)
Definition phi_of (fov r : R) : R := r * (fov / 2) * PI_const / 180.

(** [dir] of the shader. *)
Definition dir_of (theta phi : R) : vec3 :=
  mkVec3 (sin phi * cos theta) (sin phi * sin theta) (cos phi).

(** [FisheyeShader.fragmentShader], function [main]. *)
Definition fragmentShader (fov : R) (vUv : vec2) : FragOp :=
  let uv := centered vUv in
  let r := length uv in
  if Rgt_dec r 1 then
    WriteColor (mkVec4 0 0 0 1)
  else
    let theta := theta_of uv in
    let phi := phi_of fov r in
    let dir := dir_of theta phi in
    let sampleDir := mkVec3 (x3 dir) (y3 dir) (- z3 dir) in
    TextureCube sampleDir.

(** The value left in [gl_FragColor], for a cube map [tCube]. *)
Definition gl_FragColor (tCube : vec3 -> vec4) (fov : R) (vUv : vec2) : vec4 :=
  match fragmentShader fov vUv with
  | WriteColor c => c
  | TextureCube d => tCube d
  end.

(** The directions in which an invocation reads the capture. *)
Definition samples (fov : R) (vUv : vec2) : list vec3 :=
  match fragmentShader fov vUv with
  | WriteColor _ => []
  | TextureCube d => [d]
  end.

End Shader.

(** The usual two-argument arctangent, as one function that GLSL's
    [atan(y, x)] can be (the value 0 at the origin is a choice). *)
Definition atan_yx (y x : R) : R :=
  if Rlt_dec 0 x then atan (y / x)
  else if Rlt_dec x 0 then
    (if Rle_dec 0 y then atan (y / x) + PI else atan (y / x) - PI)
  else if Rlt_dec 0 y then PI / 2
  else if Rlt_dec y 0 then - (PI / 2)
  else 0.

End Fisheye.

(* ====================================================================== *)
(** * Part II.  The page: module state, the browser, and the renderer *)
(* ====================================================================== *)

(** ** Values *)

(** JavaScript numbers that measure time ([performance.now()], the animation
    clock) are read as rationals; sizes in CSS pixels, counters and
    [Date.now()] as integers. *)

(** What the canvas shows. *)
Inductive Image : Type :=
| Blank
| Standard (t : Q)                  (* [renderer.render(scene, camera)] *)
| Domemaster (t : Q) (w h : Z).     (* [renderer.render(fisheyeScene, fisheyeCamera)] *)

(** A piece of encoded video handed over by a [MediaRecorder]: its bytes. *)
Definition Chunk : Type := list N.

(** What a download link points to. *)
Inductive Payload : Type :=
| VideoBlob (chunks : list Chunk)   (* [new Blob(recordedChunks, {type: 'video/webm'})] *)
| PngDataURL (img : Image).         (* [canvas.toDataURL('image/png')] *)

(** [a.download = name; a.href = payload; a.click()] *)
Record Download : Type := mkDownload { dl_name : string; dl_href : Payload }.

(** A pending [setTimeout]: when it was set, its delay, and what its callback
    clicks. *)
Record Timer : Type := mkTimer { t_set : Q; t_delay : Z; t_link : Download }.

Inductive Codec : Type := VP9_50Mbps | DefaultCodec.

(** [MediaRecorder.state], with the interval between [stop()] and the [stop]
    event made visible. *)
Inductive EncState : Type :=
| EncInactive      (* constructed, not started *)
| EncRecording     (* after [start()] *)
| EncStopping      (* after [stop()], the [stop] event still queued *)
| EncStopped.      (* the [stop] event has been delivered *)

Record Encoder : Type := mkEncoder { enc_codec : Codec; enc_fps : Z; enc_state : EncState }.

Inductive LogLevel : Type := Log | Warn | Error.
Record LogLine : Type := mkLog { log_level : LogLevel; log_text : string }.

(** ** State *)

(** Module-level [let]s of bornDomeProjection.js.  [cubeCamera], the cube
    render target, the fisheye scene, camera and material are created
    together by [setupDomeProjection] and never reset: one flag stands for
    "not null". *)
Record DomeState : Type := mkDome {
  DOME_MODE : bool;
  cubeCamera : bool;
  lastFrameTime : Q;
  domeFrameCount : Z;
  fullscreen1to1 : bool
}.

(** Module-level [let]s of bornRecording.js.  [mediaRecorder] holds the index
    of an encoder among the browser's. *)
Record RecState : Type := mkRec {
  isRecording : bool;
  mediaRecorder : option nat;
  recordedChunks : list Chunk;
  imageSequenceMode : bool;
  imageSequenceFrames : list Payload;
  imageSequenceFrameCount : Z
}.

(** What born.js keeps for the animation: [time], [effectController.speed]
    and the [THREE.Clock] ([None] until its first [getDelta]). *)
Record AppState : Type := mkApp {
  time : Q;
  speed : Q;
  clock_oldTime : option Q
}.

(** The browser and the renderer. *)
Record Host : Type := mkHost {
  innerWidth : Z;
  innerHeight : Z;
  devicePixelRatio : Q;
  vp9Supported : bool;
  rendererSize : Z * Z;          (* the renderer's size, as last passed to [setSize] *)
  canvas : Image;
  encoders : list Encoder;
  timers : list Timer;
  downloads : list Download;
  console : list LogLine
}.

Record World : Type := mkWorld {
  dome : DomeState;
  rec : RecState;
  app : AppState;
  host : Host
}.

(** What the browser tells a handler about the instant it runs at. *)
Record Env : Type := mkEnv {
  now : Q;          (* [performance.now()], milliseconds *)
  dateNow : N       (* [Date.now()] *)
}.

(** ** Field updates *)

Definition on_dome (f : DomeState -> DomeState) (w : World) : World :=
  mkWorld (f (dome w)) (rec w) (app w) (host w).
Definition on_rec (f : RecState -> RecState) (w : World) : World :=
  mkWorld (dome w) (f (rec w)) (app w) (host w).
Definition on_app (f : AppState -> AppState) (w : World) : World :=
  mkWorld (dome w) (rec w) (f (app w)) (host w).
Definition on_host (f : Host -> Host) (w : World) : World :=
  mkWorld (dome w) (rec w) (app w) (f (host w)).

Definition set_DOME_MODE (b : bool) : World -> World :=
  on_dome (fun d => mkDome b (cubeCamera d) (lastFrameTime d) (domeFrameCount d) (fullscreen1to1 d)).
Definition set_cubeCamera (b : bool) : World -> World :=
  on_dome (fun d => mkDome (DOME_MODE d) b (lastFrameTime d) (domeFrameCount d) (fullscreen1to1 d)).
Definition set_lastFrameTime (t : Q) : World -> World :=
  on_dome (fun d => mkDome (DOME_MODE d) (cubeCamera d) t (domeFrameCount d) (fullscreen1to1 d)).
Definition set_domeFrameCount (n : Z) : World -> World :=
  on_dome (fun d => mkDome (DOME_MODE d) (cubeCamera d) (lastFrameTime d) n (fullscreen1to1 d)).
Definition set_fullscreen1to1 (b : bool) : World -> World :=
  on_dome (fun d => mkDome (DOME_MODE d) (cubeCamera d) (lastFrameTime d) (domeFrameCount d) b).

Definition set_isRecording (b : bool) : World -> World :=
  on_rec (fun r => mkRec b (mediaRecorder r) (recordedChunks r) (imageSequenceMode r)
                         (imageSequenceFrames r) (imageSequenceFrameCount r)).
Definition set_mediaRecorder (m : option nat) : World -> World :=
  on_rec (fun r => mkRec (isRecording r) m (recordedChunks r) (imageSequenceMode r)
                         (imageSequenceFrames r) (imageSequenceFrameCount r)).
Definition set_recordedChunks (c : list Chunk) : World -> World :=
  on_rec (fun r => mkRec (isRecording r) (mediaRecorder r) c (imageSequenceMode r)
                         (imageSequenceFrames r) (imageSequenceFrameCount r)).
Definition set_imageSequenceMode (b : bool) : World -> World :=
  on_rec (fun r => mkRec (isRecording r) (mediaRecorder r) (recordedChunks r) b
                         (imageSequenceFrames r) (imageSequenceFrameCount r)).
Definition set_imageSequenceFrames (l : list Payload) : World -> World :=
  on_rec (fun r => mkRec (isRecording r) (mediaRecorder r) (recordedChunks r) (imageSequenceMode r)
                         l (imageSequenceFrameCount r)).
Definition set_imageSequenceFrameCount (n : Z) : World -> World :=
  on_rec (fun r => mkRec (isRecording r) (mediaRecorder r) (recordedChunks r) (imageSequenceMode r)
                         (imageSequenceFrames r) n).

Definition set_time (t : Q) : World -> World :=
  on_app (fun a => mkApp t (speed a) (clock_oldTime a)).
Definition set_clock_oldTime (o : option Q) : World -> World :=
  on_app (fun a => mkApp (time a) (speed a) o).
Definition set_speed (s : Q) : World -> World :=
  on_app (fun a => mkApp (time a) s (clock_oldTime a)).

Definition set_inner (wd ht : Z) : World -> World :=
  on_host (fun h => mkHost wd ht (devicePixelRatio h) (vp9Supported h) (rendererSize h)
                           (canvas h) (encoders h) (timers h) (downloads h) (console h)).
Definition set_rendererSize (sz : Z * Z) : World -> World :=
  on_host (fun h => mkHost (innerWidth h) (innerHeight h) (devicePixelRatio h) (vp9Supported h) sz
                           (canvas h) (encoders h) (timers h) (downloads h) (console h)).
Definition set_canvas (i : Image) : World -> World :=
  on_host (fun h => mkHost (innerWidth h) (innerHeight h) (devicePixelRatio h) (vp9Supported h)
                           (rendererSize h) i (encoders h) (timers h) (downloads h) (console h)).
Definition set_encoders (l : list Encoder) : World -> World :=
  on_host (fun h => mkHost (innerWidth h) (innerHeight h) (devicePixelRatio h) (vp9Supported h)
                           (rendererSize h) (canvas h) l (timers h) (downloads h) (console h)).
Definition set_timers (l : list Timer) : World -> World :=
  on_host (fun h => mkHost (innerWidth h) (innerHeight h) (devicePixelRatio h) (vp9Supported h)
                           (rendererSize h) (canvas h) (encoders h) l (downloads h) (console h)).
Definition set_downloads (l : list Download) : World -> World :=
  on_host (fun h => mkHost (innerWidth h) (innerHeight h) (devicePixelRatio h) (vp9Supported h)
                           (rendererSize h) (canvas h) (encoders h) (timers h) l (console h)).
Definition set_console (l : list LogLine) : World -> World :=
  on_host (fun h => mkHost (innerWidth h) (innerHeight h) (devicePixelRatio h) (vp9Supported h)
                           (rendererSize h) (canvas h) (encoders h) (timers h) (downloads h) l).

(** ** Strings *)

(** [String(n)] for an integer. *)
Definition String_of_Z (n : Z) : string :=
  match n with
  | Z0 => "0"
  | Zpos p => NilEmpty.string_of_uint (Pos.to_uint p)
  | Zneg p => "-" ++ NilEmpty.string_of_uint (Pos.to_uint p)
  end.

(** [c.repeat(n)] for a one-character string. *)
Fixpoint repeat_char (c : ascii) (n : nat) : string :=
  match n with
  | O => ""
  | S k => String c (repeat_char c k)
  end.

(** [s.padStart(n, c)] for a one-character pad. *)
Definition padStart (n : nat) (c : ascii) (s : string) : string :=
  repeat_char c (n - String.length s) ++ s.

(** ['='.repeat(50)] *)
Definition rule : string := repeat_char "="%char 50.

(** ** The browser and the renderer *)

Definition console_log (s : string) (w : World) : World :=
  set_console (console (host w) ++ [mkLog Log s]) w.
Definition console_warn (s : string) (w : World) : World :=
  set_console (console (host w) ++ [mkLog Warn s]) w.
Definition console_error (s : string) (w : World) : World :=
  set_console (console (host w) ++ [mkLog Error s]) w.

(** [mainRenderer.setSize(width, height)]: three.js records the size and
    assigns [canvas.width] and [canvas.height], which resets the drawing
    buffer: the canvas is cleared until the next [render]. *)
Definition setSize (wd ht : Z) (w : World) : World :=
  set_canvas Blank (set_rendererSize (wd, ht) w).

(** [mainRenderer.getSize(v)]: the size last set. *)
Definition getSize (w : World) : Z * Z := rendererSize (host w).

(** [mainRenderer.domElement.width] and [.height]: the drawing buffer, which
    [setSize] makes [floor(size * pixelRatio)].  The product is taken
    exactly; on doubles it is the same number whenever the ratio is an
    integer or a power of two. *)
Definition domElement_width (w : World) : Z :=
  Qfloor (inject_Z (fst (rendererSize (host w))) * devicePixelRatio (host w)).
Definition domElement_height (w : World) : Z :=
  Qfloor (inject_Z (snd (rendererSize (host w))) * devicePixelRatio (host w)).

(** [link.click()] on a link with a [download] attribute. *)
Definition click (d : Download) (w : World) : World :=
  set_downloads (downloads (host w) ++ [d]) w.

(** [setTimeout(() => click d, delay)] at instant [t]. *)
Definition setTimeout (t : Q) (delay : Z) (d : Download) (w : World) : World :=
  set_timers (timers (host w) ++ [mkTimer t delay d]) w.

(** [mainRenderer.domElement.toDataURL('image/png')] *)
Definition toDataURL (w : World) : Payload := PngDataURL (canvas (host w)).

(* ====================================================================== *)
(** * Part III.  bornDomeProjection.js *)
(* ====================================================================== *)

Definition CUBE_RESOLUTION : Z := 2048.
Definition DOME_OUTPUT_RESOLUTION : Z := 4096.
Definition DOME_TARGET_FPS : Z := 30.
Definition DOME_FRAME_DURATION : Q := (1000 / inject_Z DOME_TARGET_FPS)%Q.

(** The [%] of JavaScript on numbers: the remainder has the sign of the
    dividend, [a - b * trunc(a / b)]. *)
Definition Qtrunc (q : Q) : Z := Z.quot (Qnum q) (Zpos (Qden q)).
Definition js_rem (a b : Q) : Q := (a - inject_Z (Qtrunc (a / b)) * b)%Q.

(** [DOME_OUTPUT_RESOLUTION + 'x' + DOME_OUTPUT_RESOLUTION] and the like. *)
Definition by_ (a b : Z) : string := String_of_Z a ++ "x" ++ String_of_Z b.

(** [setupDomeProjection]: creates the cube camera, the fisheye scene, camera,
    material and the render target, and prints the banner. *)
Definition setupDomeProjection (w : World) : World :=
  let w := set_cubeCamera true w in
  fold_left (fun w s => console_log s w)
    [ rule; "DOME PROJECTION MODE INITIALIZED"; rule;
      "Output Resolution: " ++ by_ DOME_OUTPUT_RESOLUTION DOME_OUTPUT_RESOLUTION;
      "Target FPS: " ++ String_of_Z DOME_TARGET_FPS;
      "Cubemap Resolution: " ++ String_of_Z CUBE_RESOLUTION;
      "";
      "KEYBOARD CONTROLS:";
      "  D - Toggle dome mode on/off";
      "  F - Toggle fullscreen 1:1 aspect ratio";
      "  E - Export current frame as PNG";
      "  R - Start/Stop video recording";
      "  I - Export single high-res frame";
      "  S - Start/Stop image sequence";
      rule ] w.

(** [cubeCamera.update(mainRenderer, mainScene);
     mainRenderer.render(fisheyeScene, fisheyeCamera)]:
    the canvas receives the domemaster image of the scene as it is now, at
    the size of the drawing buffer. *)
Definition renderFisheye (w : World) : World :=
  set_canvas (Domemaster (time (app w)) (domElement_width w) (domElement_height w)) w.

(** [exportDomeFrame] *)
Definition exportDomeFrame (w : World) : World :=
  if negb (DOME_MODE (dome w)) || negb (cubeCamera (dome w)) then
    console_error "Dome mode must be enabled first (press D)" w
  else
    let originalSize := getSize w in
    let w := setSize DOME_OUTPUT_RESOLUTION DOME_OUTPUT_RESOLUTION w in
    let w := renderFisheye w in
    let dataURL := toDataURL w in
    let name := "dome_frame_"
                ++ padStart 6 "0"%char (String_of_Z (domeFrameCount (dome w))) ++ ".png" in
    let w := click (mkDownload name dataURL) w in
    let w := setSize (fst originalSize) (snd originalSize) w in
    console_log ("Exported dome frame: " ++ name) w.

(** [renderDomeFrameHighRes]: renders into the off-screen target and returns
    its pixels ([null] outside dome mode). *)
Definition renderDomeFrameHighRes (w : World) : option Image * World :=
  if negb (DOME_MODE (dome w)) || negb (cubeCamera (dome w)) then
    (None, console_error "Dome mode must be enabled first" w)
  else
    let originalSize := getSize w in
    let w := setSize DOME_OUTPUT_RESOLUTION DOME_OUTPUT_RESOLUTION w in
    let pixels := Domemaster (time (app w)) DOME_OUTPUT_RESOLUTION DOME_OUTPUT_RESOLUTION in
    let w := setSize (fst originalSize) (snd originalSize) w in
    let w := console_log ("Rendered high-res dome frame: "
                          ++ by_ DOME_OUTPUT_RESOLUTION DOME_OUTPUT_RESOLUTION) w in
    (Some pixels, w).

Definition key_is (key lower upper : string) : bool :=
  String.eqb key lower || String.eqb key upper.

(** The [keydown] listener installed by [setupDomeKeyboardControls] is three
    [if] statements in a row, one per key.  The styling of the page in 1:1
    mode (canvas position, scrollbars, backdrop, wheel handler) is left
    out. *)

(** [if (e.key === 'd' || e.key === 'D') { ... }] *)
Definition domeKey_d (e : Env) (key : string) (w : World) : World :=
  if key_is key "d" "D" then
    let w := set_DOME_MODE (negb (DOME_MODE (dome w))) w in
    let w := console_log ("Dome mode: " ++ (if DOME_MODE (dome w) then "ON" else "OFF")) w in
    let w := if DOME_MODE (dome w) && negb (cubeCamera (dome w))
             then setupDomeProjection w else w in
    let w := set_lastFrameTime (now e) w in
    set_domeFrameCount 0 w
  else w.

(** [if (e.key === 'f' || e.key === 'F') { ... }] *)
Definition domeKey_f (key : string) (w : World) : World :=
  if key_is key "f" "F" then
    if DOME_MODE (dome w) then
      let w := set_fullscreen1to1 (negb (fullscreen1to1 (dome w))) w in
      if fullscreen1to1 (dome w) then
        let size := Z.min (innerWidth (host w)) (innerHeight (host w)) in
        let w := setSize size size w in
        console_log ("1:1 aspect ratio mode: ON (" ++ by_ size size ++ ")") w
      else
        let w := setSize (innerWidth (host w)) (innerHeight (host w)) w in
        console_log "1:1 aspect ratio mode: OFF" w
    else console_log "Enable dome mode first (press D)" w
  else w.

(** [if ((e.key === 'e' || e.key === 'E') && DOME_MODE) { exportDomeFrame(); }] *)
Definition domeKey_e (key : string) (w : World) : World :=
  if key_is key "e" "E" && DOME_MODE (dome w) then exportDomeFrame w else w.

Definition domeKeydown (e : Env) (key : string) (w : World) : World :=
  let w := domeKey_d e key w in
  let w := domeKey_f key w in
  domeKey_e key w.

(** [shouldRenderDomeFrame], in exact arithmetic. *)
Definition shouldRenderDomeFrame (e : Env) (w : World) : bool * World :=
  if negb (DOME_MODE (dome w)) then (true, w)
  else
    let currentTime := now e in
    let elapsed := (currentTime - lastFrameTime (dome w))%Q in
    if Qlt_le_dec elapsed DOME_FRAME_DURATION then (false, w)
    else
      let w := set_lastFrameTime (currentTime - js_rem elapsed DOME_FRAME_DURATION)%Q w in
      let w := set_domeFrameCount (domeFrameCount (dome w) + 1) w in
      let w := if (Z.rem (domeFrameCount (dome w)) 30 =? 0)%Z
               then console_log ("Dome frame: " ++ String_of_Z (domeFrameCount (dome w))
                                 ++ " | Target FPS: " ++ String_of_Z DOME_TARGET_FPS) w
               else w in
      (true, w).

(** [renderDome] *)
Definition renderDome (w : World) : World :=
  if negb (cubeCamera (dome w)) then w else renderFisheye w.

(** [onDomeWindowResize] only resets the frustum of the fisheye camera, which
    [setupDomeProjection] already made [-1, 1, 1, -1]. *)
Definition onDomeWindowResize (w : World) : World := w.

Definition isDomeMode (w : World) : bool := DOME_MODE (dome w).
Definition getDomeTargetFPS : Z := DOME_TARGET_FPS.
Definition getDomeOutputResolution : Z := DOME_OUTPUT_RESOLUTION.
Definition getDomeFrameCount (w : World) : Z := domeFrameCount (dome w).
Definition incrementDomeFrameCount (w : World) : World :=
  set_domeFrameCount (domeFrameCount (dome w) + 1) w.
Definition resetDomeFrameCount (w : World) : World := set_domeFrameCount 0 w.
Definition getCubeCamera (w : World) : bool := cubeCamera (dome w).

(** ** The pacer on doubles *)

(** The times that the pacer handles are JavaScript numbers, binary64.  A
    subtraction returns the double nearest to the exact difference; [%] on
    doubles is exact; [DOME_FRAME_DURATION] is the double nearest to
    [1000 / 30], which is 4691249611844267 / 2^47, a little above 100/3. *)

(** [floor(log2 x)] for a positive [x]. *)
Definition Qlog2 (x : Q) : Z :=
  let e := (Z.log2 (Qnum x) - Z.log2 (Zpos (Qden x)))%Z in
  if Qle_bool (2 ^ e) x then e else (e - 1)%Z.

(** The integer nearest to [y]; of two, the even one. *)
Definition round_half_even (y : Q) : Z :=
  let f := Qfloor y in
  match (y - inject_Z f ?= 1 # 2)%Q with
  | Lt => f
  | Gt => (f + 1)%Z
  | Eq => if Z.even f then f else (f + 1)%Z
  end.

(** The distance between neighbouring doubles around [x]: 53 bits of
    significand. *)
Definition ulp (x : Q) : Q := (2 ^ (Qlog2 (Qabs x) - 52))%Q.

(** The double nearest to [x], ties to even, for [x] in the range of the
    normal doubles. *)
Definition round64 (x : Q) : Q :=
  if Qeq_bool x 0 then 0%Q
  else (inject_Z (round_half_even (x / ulp x)) * ulp x)%Q.

(** [shouldRenderDomeFrame] with its arithmetic as parameters: [rnd] rounds
    the result of a subtraction, and [D] is the value of
    [DOME_FRAME_DURATION].  With [rnd x = x] and [D = 1000 / 30] it is the
    function in exact arithmetic above. *)
Definition shouldRenderDomeFrame_with (rnd : Q -> Q) (D : Q) (e : Env) (w : World)
  : bool * World :=
  if negb (DOME_MODE (dome w)) then (true, w)
  else
    let currentTime := now e in
    let elapsed := rnd (currentTime - lastFrameTime (dome w))%Q in
    if Qlt_le_dec elapsed D then (false, w)
    else
      let w := set_lastFrameTime (rnd (currentTime - js_rem elapsed D)%Q) w in
      let w := set_domeFrameCount (domeFrameCount (dome w) + 1) w in
      let w := if (Z.rem (domeFrameCount (dome w)) 30 =? 0)%Z
               then console_log ("Dome frame: " ++ String_of_Z (domeFrameCount (dome w))
                                 ++ " | Target FPS: " ++ String_of_Z DOME_TARGET_FPS) w
               else w in
      (true, w).

(** [const DOME_FRAME_DURATION = 1000 / DOME_TARGET_FPS] and
    [shouldRenderDomeFrame], on doubles. *)
Definition DOME_FRAME_DURATION_64 : Q := round64 (1000 / inject_Z DOME_TARGET_FPS)%Q.
Definition shouldRenderDomeFrame_64 : Env -> World -> bool * World :=
  shouldRenderDomeFrame_with round64 DOME_FRAME_DURATION_64.

(* ====================================================================== *)
(** * Part IV.  bornRecording.js *)
(* ====================================================================== *)

Definition RECORDING_RESOLUTION : Z := 2048.

(** ** The browser's [MediaRecorder] *)

(** [new MediaRecorder(stream, options)]: the new encoder's index. *)
Definition new_MediaRecorder (c : Codec) (fps : Z) (w : World) : nat * World :=
  (List.length (encoders (host w)),
   set_encoders (encoders (host w) ++ [mkEncoder c fps EncInactive]) w).

Definition enc_state_of (id : nat) (w : World) : option EncState :=
  option_map enc_state (nth_error (encoders (host w)) id).

Fixpoint update_nth {A : Type} (n : nat) (f : A -> A) (l : list A) : list A :=
  match l, n with
  | [], _ => []
  | x :: t, O => f x :: t
  | x :: t, S k => x :: update_nth k f t
  end.

Definition set_enc_state (id : nat) (st : EncState) (w : World) : World :=
  set_encoders
    (update_nth id (fun en => mkEncoder (enc_codec en) (enc_fps en) st) (encoders (host w))) w.

(** [recorder.start()] *)
Definition MediaRecorder_start (id : nat) (w : World) : World :=
  match enc_state_of id w with
  | Some EncInactive => set_enc_state id EncRecording w
  | _ => w
  end.

(** [recorder.stop()]: the encoder stops taking frames at once; its last
    [dataavailable] and its [stop] event are delivered later.  On an encoder
    that is not recording nothing happens. *)
Definition MediaRecorder_stop (id : nat) (w : World) : World :=
  match enc_state_of id w with
  | Some EncRecording => set_enc_state id EncStopping w
  | _ => w
  end.

(** ** Video recording *)

(** [mediaRecorder.ondataavailable] *)
Definition ondataavailable (data : Chunk) (w : World) : World :=
  if (0 <? List.length data)%nat
  then set_recordedChunks (recordedChunks (rec w) ++ [data]) w
  else w.

(** [mediaRecorder.onstop] *)
Definition onstop (e : Env) (w : World) : World :=
  let blob := VideoBlob (recordedChunks (rec w)) in
  let name := "dome_recording_" ++ String_of_Z (Z.of_N (dateNow e)) ++ ".webm" in
  let w := click (mkDownload name blob) w in
  let w := console_log "Recording saved!" w in
  setSize (innerWidth (host w)) (innerHeight (host w)) w.

(** [startRecording] *)
Definition startRecording (w : World) : World :=
  if isRecording (rec w) then w
  else
    let fps := getDomeTargetFPS in
    let w := setSize RECORDING_RESOLUTION RECORDING_RESOLUTION w in
    (* [recordingStream = canvas.captureStream(DOME_TARGET_FPS)] feeds the encoder *)
    let '(id, w) :=
      if vp9Supported (host w) then new_MediaRecorder VP9_50Mbps fps w
      else
        let w := console_warn "VP9 not supported, using default codec" w in
        new_MediaRecorder DefaultCodec fps w in
    let w := set_mediaRecorder (Some id) w in
    let w := set_recordedChunks [] w in
    let w := MediaRecorder_start id w in
    let w := set_isRecording true w in
    let w := resetDomeFrameCount w in
    fold_left (fun w s => console_log s w)
      [ rule; "🔴 RECORDING STARTED";
        "Resolution: " ++ by_ RECORDING_RESOLUTION RECORDING_RESOLUTION;
        "FPS: " ++ String_of_Z fps;
        "Press R again to stop and save";
        rule ] w.

(** [stopRecording] *)
Definition stopRecording (w : World) : World :=
  match isRecording (rec w), mediaRecorder (rec w) with
  | true, Some id =>
      let w := MediaRecorder_stop id w in
      let w := set_isRecording false w in
      fold_left (fun w s => console_log s w)
        [ rule; "⬛ RECORDING STOPPED";
          "Frames recorded: " ++ String_of_Z (getDomeFrameCount w);
          "Saving video...";
          rule ] w
  | _, _ => w
  end.

(** [toggleRecording] *)
Definition toggleRecording (w : World) : World :=
  if isRecording (rec w) then stopRecording w else startRecording w.

(** ** Single frame *)

(** [exportSingleFrame] *)
Definition exportSingleFrame (e : Env) (w : World) : World :=
  if negb (getCubeCamera w) then console_error "Dome mode not initialized" w
  else
    let originalWidth := domElement_width w in
    let originalHeight := domElement_height w in
    let w := setSize getDomeOutputResolution getDomeOutputResolution w in
    let w := renderFisheye w in
    let dataURL := toDataURL w in
    let name := "dome_frame_" ++ by_ getDomeOutputResolution getDomeOutputResolution
                ++ "_" ++ String_of_Z (Z.of_N (dateNow e)) ++ ".png" in
    let w := click (mkDownload name dataURL) w in
    let w := setSize originalWidth originalHeight w in
    console_log ("Exported frame at " ++ by_ getDomeOutputResolution getDomeOutputResolution) w.

(** ** Image sequence *)

(** [startImageSequence] *)
Definition startImageSequence (w : World) : World :=
  let w := set_imageSequenceMode true w in
  let w := set_imageSequenceFrames [] w in
  let w := set_imageSequenceFrameCount 0 w in
  let w := setSize RECORDING_RESOLUTION RECORDING_RESOLUTION w in
  fold_left (fun w s => console_log s w)
    [ rule; "📷 IMAGE SEQUENCE STARTED";
      "Resolution: " ++ by_ RECORDING_RESOLUTION RECORDING_RESOLUTION;
      "Press S again to stop and download frames";
      rule ] w.

(** The name given to the frame of index [index]:
    [`frame_${String(index).padStart(6, '0')}.png`] *)
Definition frame_name (index : nat) : string :=
  "frame_" ++ padStart 6 "0"%char (String_of_Z (Z.of_nat index)) ++ ".png".

(** The body of [imageSequenceFrames.forEach((dataURL, index) => ...)], from
    index [index] on. *)
Fixpoint schedule_downloads (t : Q) (index : nat) (frames : list Payload) (w : World) : World :=
  match frames with
  | [] => w
  | dataURL :: rest =>
      let w := setTimeout t (Z.of_nat index * 100)
                 (mkDownload (frame_name index) dataURL) w in
      schedule_downloads t (S index) rest w
  end.

(** [stopImageSequence] *)
Definition stopImageSequence (e : Env) (w : World) : World :=
  let w := set_imageSequenceMode false w in
  let w := fold_left (fun w s => console_log s w)
    [ rule; "📷 IMAGE SEQUENCE STOPPED";
      "Frames captured: " ++ String_of_Z (imageSequenceFrameCount (rec w));
      "Downloading frames...";
      rule ] w in
  let w := schedule_downloads (now e) 0 (imageSequenceFrames (rec w)) w in
  let w := set_imageSequenceFrames [] w in
  setSize (innerWidth (host w)) (innerHeight (host w)) w.

(** [toggleImageSequence] *)
Definition toggleImageSequence (e : Env) (w : World) : World :=
  if imageSequenceMode (rec w) then stopImageSequence e w else startImageSequence w.

(** [captureImageSequenceFrame] *)
Definition captureImageSequenceFrame (w : World) : World :=
  if negb (imageSequenceMode (rec w)) then w
  else
    let dataURL := toDataURL w in
    let w := set_imageSequenceFrames (imageSequenceFrames (rec w) ++ [dataURL]) w in
    let w := set_imageSequenceFrameCount (imageSequenceFrameCount (rec w) + 1) w in
    if (Z.rem (imageSequenceFrameCount (rec w)) 30 =? 0)%Z
    then console_log ("Captured frame: " ++ String_of_Z (imageSequenceFrameCount (rec w))) w
    else w.

Definition isCurrentlyRecording (w : World) : bool := isRecording (rec w).
Definition isImageSequenceMode (w : World) : bool := imageSequenceMode (rec w).

(** The [keydown] listener installed by [setupRecordingKeyboardControls]:
    again one [if] statement per key. *)

(** [if (e.key === 'r' || e.key === 'R') { ... }] *)
Definition recordingKey_r (key : string) (w : World) : World :=
  if key_is key "r" "R" then
    if isDomeMode w then toggleRecording w
    else console_log "Enable dome mode first (press D) before recording" w
  else w.

(** [if (e.key === 'i' || e.key === 'I') { ... }] *)
Definition recordingKey_i (e : Env) (key : string) (w : World) : World :=
  if key_is key "i" "I" then
    if isDomeMode w then exportSingleFrame e w
    else console_log "Enable dome mode first (press D)" w
  else w.

(** [if (e.key === 's' || e.key === 'S') { ... }] *)
Definition recordingKey_s (e : Env) (key : string) (w : World) : World :=
  if key_is key "s" "S" then
    if isDomeMode w then toggleImageSequence e w
    else console_log "Enable dome mode first (press D)" w
  else w.

Definition recordingKeydown (e : Env) (key : string) (w : World) : World :=
  let w := recordingKey_r key w in
  let w := recordingKey_i e key w in
  recordingKey_s e key w.

(* ====================================================================== *)
(** * Part V.  born.js: the animation loop, and the page as a whole *)
(* ====================================================================== *)

(** [clock.getDelta()] of [THREE.Clock]: seconds since the previous call;
    the first call starts the clock and returns 0. *)
Definition clock_getDelta (e : Env) (w : World) : Q * World :=
  match clock_oldTime (app w) with
  | None => (0%Q, set_clock_oldTime (Some (now e)) w)
  | Some oldTime => (((now e - oldTime) / 1000)%Q, set_clock_oldTime (Some (now e)) w)
  end.

(** The [delta] that [render] chooses. *)
Definition render_delta (e : Env) (w : World) : Q * World :=
  if isDomeMode w then ((1 / inject_Z getDomeTargetFPS)%Q, w)
  else clock_getDelta e w.

(** [render].  The updates of the marching cubes, of the rotation and of the
    3D text consume [time] and draw nothing by themselves; they are left
    out. *)
Definition render (e : Env) (w : World) : World :=
  let '(delta, w) := render_delta e w in
  let w := set_time (time (app w) + delta * speed (app w) * (1 # 2))%Q w in
  if isDomeMode w then
    let w := renderDome w in
    if isImageSequenceMode w then captureImageSequenceFrame w else w
  else
    set_canvas (Standard (time (app w))) w.

(** [animate], the callback of [renderer.setAnimationLoop]. *)
Definition animate (e : Env) (w : World) : World :=
  if isDomeMode w then
    let '(produce, w) := shouldRenderDomeFrame e w in
    if negb produce then w else render e w
  else render e w.

(** [onWindowResize] *)
Definition onWindowResize (w : World) : World :=
  let w := setSize (innerWidth (host w)) (innerHeight (host w)) w in
  onDomeWindowResize w.

(** ** Events *)

(** The pending timer that is due first (the earliest set among equals). *)
Definition due (t : Timer) : Q := (t_set t + inject_Z (t_delay t))%Q.

Fixpoint pick_earliest (l : list Timer) : option (Timer * list Timer) :=
  match l with
  | [] => None
  | t :: rest =>
      match pick_earliest rest with
      | None => Some (t, [])
      | Some (m, rest') =>
          if Qlt_le_dec (due m) (due t) then Some (m, t :: rest') else Some (t, rest)
      end
  end.

(** A timer fires: its callback clicks its link. *)
Definition fireTimer (w : World) : World :=
  match pick_earliest (timers (host w)) with
  | None => w
  | Some (t, rest) => click (t_link t) (set_timers rest w)
  end.

(** The browser delivers [dataavailable] to encoder [id]. *)
Definition deliverData (id : nat) (data : Chunk) (w : World) : World :=
  match enc_state_of id w with
  | Some EncRecording | Some EncStopping => ondataavailable data w
  | _ => w
  end.

(** The browser delivers the [stop] event to encoder [id]. *)
Definition deliverStop (e : Env) (id : nat) (w : World) : World :=
  match enc_state_of id w with
  | Some EncStopping => onstop e (set_enc_state id EncStopped w)
  | _ => w
  end.

(** The functions that the modules export or hang on [window]. *)
Inductive Call : Type :=
| CallStartRecording | CallStopRecording | CallToggleRecording
| CallExportSingleFrame
| CallStartImageSequence | CallStopImageSequence | CallToggleImageSequence
| CallCaptureImageSequenceFrame
| CallExportDomeFrame | CallRenderDomeFrameHighRes
| CallShouldRenderDomeFrame | CallRenderDome
| CallIncrementDomeFrameCount | CallResetDomeFrameCount.

Definition invoke (e : Env) (c : Call) (w : World) : World :=
  match c with
  | CallStartRecording => startRecording w
  | CallStopRecording => stopRecording w
  | CallToggleRecording => toggleRecording w
  | CallExportSingleFrame => exportSingleFrame e w
  | CallStartImageSequence => startImageSequence w
  | CallStopImageSequence => stopImageSequence e w
  | CallToggleImageSequence => toggleImageSequence e w
  | CallCaptureImageSequenceFrame => captureImageSequenceFrame w
  | CallExportDomeFrame => exportDomeFrame w
  | CallRenderDomeFrameHighRes => snd (renderDomeFrameHighRes w)
  | CallShouldRenderDomeFrame => snd (shouldRenderDomeFrame e w)
  | CallRenderDome => renderDome w
  | CallIncrementDomeFrameCount => incrementDomeFrameCount w
  | CallResetDomeFrameCount => resetDomeFrameCount w
  end.

(** What can happen to the page. *)
Inductive Event : Type :=
| KeyDown (key : string)
| AnimationFrame
| WindowResize (wd ht : Z)
| DataAvailable (id : nat) (data : Chunk)
| StopEvent (id : nat)
| TimerFires
| Invoke (c : Call).

(** One event, handled to completion.  The dome listener was registered
    before the recording listener, so it runs first. *)
Definition step (w : World) (ev : Env * Event) : World :=
  let '(e, x) := ev in
  match x with
  | KeyDown key => recordingKeydown e key (domeKeydown e key w)
  | AnimationFrame => animate e w
  | WindowResize wd ht => onWindowResize (set_inner wd ht w)
  | DataAvailable id data => deliverData id data w
  | StopEvent id => deliverStop e id w
  | TimerFires => fireTimer w
  | Invoke c => invoke e c w
  end.

Definition run (w : World) (evs : list (Env * Event)) : World := fold_left step evs w.

(** The page after [init]: nothing recorded, dome mode off, the renderer at
    the size of the window. *)
Definition initial (wd ht : Z) (ratio : Q) (vp9 : bool) (speed0 : Q) : World :=
  mkWorld
    (mkDome false false 0%Q 0 false)
    (mkRec false None [] false [] 0)
    (mkApp 0%Q speed0 None)
    (mkHost wd ht ratio vp9 (wd, ht) Blank [] [] [] []).

(** ** Frames under a tween of the speed *)

(** [animateToStep] of bornScrollAnimations.js tweens
    [effectController.speed] for four seconds after every step
    ([gsap.to(mainEffectController, { speed: ... })]): GSAP's ticker assigns
    the field between the frames of the loop.  A frame at the instant of [e],
    the tween having left the speed at [s]: *)
Definition tweened_frame (w : World) (f : Env * Q) : World :=
  animate (fst f) (set_speed (snd f) w).

Definition tweened_frames (w : World) (fs : list (Env * Q)) : World :=
  fold_left tweened_frame fs w.

(** The time measured by the clock from [t0] on, in seconds, each interval
    weighted by half the speed at the frame that ends it. *)
Fixpoint clock_integral (t0 : Q) (fs : list (Env * Q)) : Q :=
  match fs with
  | [] => 0%Q
  | f :: rest =>
      ((now (fst f) - t0) / 1000 * snd f * (1 # 2) + clock_integral (now (fst f)) rest)%Q
  end.

(** ** Runs of host callbacks *)

(** The pacer called at the instants [times], in order: its signals
    ([true] is "produce") and the state it leaves. *)
Fixpoint pacer_signals (w : World) (times : list Q) : list bool * World :=
  match times with
  | [] => ([], w)
  | t :: rest =>
      let '(b, w1) := shouldRenderDomeFrame (mkEnv t 0) w in
      let '(bs, w2) := pacer_signals w1 rest in
      (b :: bs, w2)
  end.

(** How many of the signals are "produce". *)
Definition produced (w : World) (times : list Q) : Z :=
  Z.of_nat (count_occ bool_dec (fst (pacer_signals w times)) true).

(** The instants [times] follow [prev] without going back. *)
Fixpoint ascending (prev : Q) (times : list Q) : bool :=
  match times with
  | [] => true
  | t :: rest => Qle_bool prev t && ascending t rest
  end.

(** The instants [times] follow [prev] without going back, and no two
    neighbours are more than [d] apart. *)
Fixpoint gaps_within (d : Q) (prev : Q) (times : list Q) : bool :=
  match times with
  | [] => true
  | t :: rest => Qle_bool prev t && Qle_bool (t - prev) d && gaps_within d t rest
  end.

(** Whole frame durations in the window from [t0] to [t]:
    [floor((t - t0) / 1000 * targetFPS)]. *)
Definition frames_due (t0 t : Q) : Z :=
  Qfloor ((t - t0) / 1000 * inject_Z DOME_TARGET_FPS)%Q.

(** The same for the pacer with its arithmetic as parameters. *)
Fixpoint pacer_signals_with (rnd : Q -> Q) (D : Q) (w : World) (times : list Q)
  : list bool * World :=
  match times with
  | [] => ([], w)
  | t :: rest =>
      let '(b, w1) := shouldRenderDomeFrame_with rnd D (mkEnv t 0) w in
      let '(bs, w2) := pacer_signals_with rnd D w1 rest in
      (b :: bs, w2)
  end.

Definition produced_with (rnd : Q -> Q) (D : Q) (w : World) (times : list Q) : Z :=
  Z.of_nat (count_occ bool_dec (fst (pacer_signals_with rnd D w times)) true).

(** [rnd] is within [eta] of the exact result, for results up to [M] in
    absolute value. *)
Definition rounds_within (rnd : Q -> Q) (M eta : Q) : Prop :=
  forall x : Q, (Qabs x <= M)%Q -> (Qabs (rnd x - x) <= eta)%Q.

(** The instants [times] lie between 0 and [M]. *)
Definition times_within (M : Q) (times : list Q) : bool :=
  forallb (fun t => Qle_bool 0 t && Qle_bool t M) times.

(** A burst of six callbacks one millisecond apart, every 100 ms, for [n]
    bursts after [t]: sixty callbacks a second. *)
Fixpoint bursts (t : Q) (n : nat) : list Q :=
  match n with
  | O => []
  | S k =>
      let b := (t + 100)%Q in
      [b; b + 1; b + 2; b + 3; b + 4; b + 5]%Q ++ bursts b k
  end.

(** ** Runs of animation frames *)

(** Host callbacks alone, at the instants [envs]. *)
Definition frames (envs : list Env) : list (Env * Event) :=
  map (fun e => (e, AnimationFrame)) envs.


(** ** Recording sessions *)

Definition is_recording_enc (en : Encoder) : bool :=
  match enc_state en with
  | EncRecording => true
  | _ => false
  end.

(** How many of the browser's encoders are recording. *)
Definition count_recording (l : list Encoder) : nat :=
  List.length (filter is_recording_enc l).
Definition recording_sessions (w : World) : nat := count_recording (encoders (host w)).

(** A recording is open from [start()] until the [stop] event of its
    encoder writes the file: its encoder is recording, or has been stopped
    and still owes its data and its [stop] event. *)
Definition is_open_enc (en : Encoder) : bool :=
  match enc_state en with
  | EncRecording | EncStopping => true
  | _ => false
  end.
Definition open_recordings (w : World) : nat :=
  List.length (filter is_open_enc (encoders (host w))).

(** The recorder's flag tells whether an encoder is recording, and then
    [mediaRecorder] is that encoder. *)
Definition sessions_ok (w : World) : Prop :=
  recording_sessions w = (if isRecording (rec w) then 1 else 0)%nat /\
  (isRecording (rec w) = true ->
   exists id : nat, mediaRecorder (rec w) = Some id /\ enc_state_of id w = Some EncRecording).

(** An operation that leaves the frame counter and the video session as
    they were. *)
Definition video_inert (w w' : World) : Prop :=
  isRecording (rec w') = isRecording (rec w) /\
  mediaRecorder (rec w') = mediaRecorder (rec w) /\
  encoders (host w') = encoders (host w).
Definition inert (w w' : World) : Prop :=
  domeFrameCount (dome w') = domeFrameCount (dome w) /\ video_inert w w'.

(** One operation's effect on the frame counter: it does not decrease, or it
    is 0 because a recording has started. *)
Definition counter_step (w w' : World) : Prop :=
  (domeFrameCount (dome w) <= domeFrameCount (dome w'))%Z \/
  (domeFrameCount (dome w') = 0%Z /\
   isRecording (rec w) = false /\ isRecording (rec w') = true).

(** The events that set the frame counter back to 0: the [d] key, a recording
    that starts, and [resetDomeFrameCount] called directly. *)
Definition resets_counter (x : Event) (w w' : World) : Prop :=
  x = KeyDown "d" \/ x = KeyDown "D" \/ x = Invoke CallResetDomeFrameCount \/
  (isRecording (rec w) = false /\ isRecording (rec w') = true).

(** ** Image-sequence sessions *)

(** The timers that [stopImageSequence] sets at instant [t] for [frames],
    numbered from [index]. *)
Fixpoint staggered (t : Q) (index : nat) (frames : list Payload) : list Timer :=
  match frames with
  | [] => []
  | dataURL :: rest =>
      mkTimer t (Z.of_nat index * 100) (mkDownload (frame_name index) dataURL)
        :: staggered t (S index) rest
  end.

(** Frames are produced with the canvas showing [imgs], one after the
    other, and each is offered to the image sequence. *)
Definition capture_each (imgs : list Image) (w : World) : World :=
  fold_left (fun v img => captureImageSequenceFrame (set_canvas img v)) imgs w.

(** The browser lets [n] timers fire. *)
Fixpoint fire (n : nat) (w : World) : World :=
  match n with
  | O => w
  | S k => fire k (fireTimer w)
  end.

(** ** Invariants of the page *)

(** In dome mode the capture rig exists. *)
Definition rig_ok (w : World) : Prop :=
  DOME_MODE (dome w) = true -> cubeCamera (dome w) = true.

(** While an image sequence is active its counter is the number of frames
    held; while none is, no frame is held. *)
Definition sequence_ok (w : World) : Prop :=
  (imageSequenceMode (rec w) = true ->
   imageSequenceFrameCount (rec w) = Z.of_nat (List.length (imageSequenceFrames (rec w)))) /\
  (imageSequenceMode (rec w) = false -> imageSequenceFrames (rec w) = []).

(** An operation that leaves dome mode and the capture rig as they were,
    and one that leaves the image sequence as it was. *)
Definition flags_same (w w' : World) : Prop :=
  DOME_MODE (dome w') = DOME_MODE (dome w) /\ cubeCamera (dome w') = cubeCamera (dome w).
Definition seq_same (w w' : World) : Prop :=
  imageSequenceMode (rec w') = imageSequenceMode (rec w) /\
  imageSequenceFrames (rec w') = imageSequenceFrames (rec w) /\
  imageSequenceFrameCount (rec w') = imageSequenceFrameCount (rec w).
Definition calm (w w' : World) : Prop := flags_same w w' /\ seq_same w w'.

(** A chunk that [ondataavailable] keeps. *)
Definition nonempty (data : Chunk) : bool := (0 <? List.length data)%nat.

Definition is_warning (l : LogLine) : bool :=
  match log_level l with
  | Warn => true
  | _ => false
  end.

(** ** Reading file names back *)

(** The number that the name of a frame carries: the digits between
    [frame_] and [.png], read in base ten. *)
Definition frame_index (name : string) : option N :=
  let digits := substring 6 (String.length name - 10) name in
  option_map Pos.of_uint (NilEmpty.uint_of_string digits).

(* ====================================================================== *)
(** * Part V-b.  bornScrollAnimations.js: the step machine of the page *)
(* ====================================================================== *)

(** How a callback ends: normally, or by throwing a [TypeError] (a property
    of [undefined] was read or written). *)
Inductive Outcome : Type := Done | TypeError.

Module Scroll.

(** A value of JavaScript where the module computes with one: a number,
    [NaN], or [undefined].  Numbers are exact rationals; the rounding of
    doubles is not modelled. *)
Inductive JsVal : Type := Num (q : Q) | NaN | Undefined.

(** [a + b] on these values: [undefined] converts to [NaN], which absorbs. *)
Definition js_add (a b : JsVal) : JsVal :=
  match a, b with
  | Num x, Num y => Num (Qred (x + y))
  | _, _ => NaN
  end.

Definition finite (v : JsVal) : bool :=
  match v with
  | Num _ => true
  | _ => false
  end.

(** ** The table [STEPS] *)

Record EffectParams : Type := mkParams {
  p_speed : Q;
  p_numBlobs : Z;
  p_isolation : Z;
  p_rotation : bool;
  p_rotationSpeed : JsVal;      (* [Undefined] where the row has no such key *)
  p_material : option string    (* [None] where the row has no such key *)
}.

Record StepRow : Type := mkRow {
  cameraPos : Z * Z * Z;
  effectParams : EffectParams
}.

Definition STEPS : list StepRow :=
  [ mkRow (-100, 100, 50)   (mkParams (1 # 2) 10 50 false (Num 0) None);
    mkRow (200, 0, 100)     (mkParams (1 # 2) 10 50 false (Num 0) None);
    mkRow (-100, 260, 500)  (mkParams 1 10 50 false (Num 0) None);
    mkRow (400, 200, 700)   (mkParams 1 10 70 false (Num 0) None);
    mkRow (100, 100, 1000)  (mkParams 1 30 50 false (Num 0) None);
    mkRow (300, 50, 700)    (mkParams 1 50 100 false (Num 0) None);
    mkRow (300, 50, 500)    (mkParams (3 # 2) 40 5 false (Num 0) None);
    mkRow (-100, 100, 1000) (mkParams 2 30 5 true (Num (1 # 100)) None);
    mkRow (300, 100, 1500)  (mkParams 2 30 20 true (Num (4 # 100)) None);
    mkRow (-150, 100, 2500) (mkParams 2 30 50 true (Num (2 # 100)) None);
    mkRow (200, 50, 1000)   (mkParams 1 20 10 true (Num (1 # 100)) (Some "webcam"));
    mkRow (50, 0, 500)      (mkParams 1 20 10 true (Num (1 # 100)) (Some "webcam"));
    mkRow (200, 50, 200)    (mkParams 1 20 10 false (Num 0) (Some "webcam"));
    mkRow (200, 50, -1000)  (mkParams 1 20 10 false Undefined None) ]%Z.

(** [const totalSteps = STEPS.length] *)
Definition totalSteps : Z := Z.of_nat (List.length STEPS).

(** [STEPS[step]]: [undefined] outside the table. *)
Definition row (step : Z) : option StepRow :=
  if (step <? 0)%Z then None else nth_error STEPS (Z.to_nat step).

(** A string in a test: the empty string and a missing key are false. *)
Definition truthy (m : option string) : option string :=
  match m with
  | Some "" => None
  | other => other
  end.

(** ** State *)

(** The variables of the module, the objects it shares with born.js (the
    [materials] object, by its keys; the material of the effect, by the key
    it is stored under; the rotation of the effect group), and what has been
    asked of the animation library and the document: for each target, the
    end value of the tween created last. *)
Record State : Type := mkState {
  currentStep : Z;
  isRotating : bool;
  rotationSpeed : JsVal;
  current_material : string;
  materials : list string;
  effect_material : option string;           (* [None]: [undefined] *)
  rotation_y : JsVal;
  rotation_z : JsVal;
  cameraGoal : option (Z * Z * Z);
  controllerGoal : option (Q * Z * Z);       (* speed, numBlobs, isolation *)
  textGoals : list (option Q);               (* [texts]; [None]: no such element *)
  text3DGoals : list (string * Q);           (* [text3DMeshes], in key order *)
  hasInstruction : bool;                     (* the page has [#scroll-instruction] *)
  instructionGoal : option Q;
  buttonsVisible : bool;
  buttonTimers : nat;                        (* pending 1500 ms timers *)
  introPending : bool;                       (* the 500 ms timer of the set-up *)
  console : list string
}.

Definition set_currentStep (v : Z) (s : State) : State :=
  mkState v (isRotating s) (rotationSpeed s) (current_material s) (materials s)
    (effect_material s) (rotation_y s) (rotation_z s) (cameraGoal s) (controllerGoal s)
    (textGoals s) (text3DGoals s) (hasInstruction s) (instructionGoal s) (buttonsVisible s)
    (buttonTimers s) (introPending s) (console s).

Definition set_isRotating (v : bool) (s : State) : State :=
  mkState (currentStep s) v (rotationSpeed s) (current_material s) (materials s)
    (effect_material s) (rotation_y s) (rotation_z s) (cameraGoal s) (controllerGoal s)
    (textGoals s) (text3DGoals s) (hasInstruction s) (instructionGoal s) (buttonsVisible s)
    (buttonTimers s) (introPending s) (console s).

Definition set_rotationSpeed (v : JsVal) (s : State) : State :=
  mkState (currentStep s) (isRotating s) v (current_material s) (materials s)
    (effect_material s) (rotation_y s) (rotation_z s) (cameraGoal s) (controllerGoal s)
    (textGoals s) (text3DGoals s) (hasInstruction s) (instructionGoal s) (buttonsVisible s)
    (buttonTimers s) (introPending s) (console s).

Definition set_current_material (v : string) (s : State) : State :=
  mkState (currentStep s) (isRotating s) (rotationSpeed s) v (materials s)
    (effect_material s) (rotation_y s) (rotation_z s) (cameraGoal s) (controllerGoal s)
    (textGoals s) (text3DGoals s) (hasInstruction s) (instructionGoal s) (buttonsVisible s)
    (buttonTimers s) (introPending s) (console s).

Definition set_materials (v : list string) (s : State) : State :=
  mkState (currentStep s) (isRotating s) (rotationSpeed s) (current_material s) v
    (effect_material s) (rotation_y s) (rotation_z s) (cameraGoal s) (controllerGoal s)
    (textGoals s) (text3DGoals s) (hasInstruction s) (instructionGoal s) (buttonsVisible s)
    (buttonTimers s) (introPending s) (console s).

Definition set_effect_material (v : option string) (s : State) : State :=
  mkState (currentStep s) (isRotating s) (rotationSpeed s) (current_material s) (materials s)
    v (rotation_y s) (rotation_z s) (cameraGoal s) (controllerGoal s)
    (textGoals s) (text3DGoals s) (hasInstruction s) (instructionGoal s) (buttonsVisible s)
    (buttonTimers s) (introPending s) (console s).

Definition set_rotation (y z : JsVal) (s : State) : State :=
  mkState (currentStep s) (isRotating s) (rotationSpeed s) (current_material s) (materials s)
    (effect_material s) y z (cameraGoal s) (controllerGoal s)
    (textGoals s) (text3DGoals s) (hasInstruction s) (instructionGoal s) (buttonsVisible s)
    (buttonTimers s) (introPending s) (console s).

Definition set_cameraGoal (v : option (Z * Z * Z)) (s : State) : State :=
  mkState (currentStep s) (isRotating s) (rotationSpeed s) (current_material s) (materials s)
    (effect_material s) (rotation_y s) (rotation_z s) v (controllerGoal s)
    (textGoals s) (text3DGoals s) (hasInstruction s) (instructionGoal s) (buttonsVisible s)
    (buttonTimers s) (introPending s) (console s).

Definition set_controllerGoal (v : option (Q * Z * Z)) (s : State) : State :=
  mkState (currentStep s) (isRotating s) (rotationSpeed s) (current_material s) (materials s)
    (effect_material s) (rotation_y s) (rotation_z s) (cameraGoal s) v
    (textGoals s) (text3DGoals s) (hasInstruction s) (instructionGoal s) (buttonsVisible s)
    (buttonTimers s) (introPending s) (console s).

Definition set_textGoals (v : list (option Q)) (s : State) : State :=
  mkState (currentStep s) (isRotating s) (rotationSpeed s) (current_material s) (materials s)
    (effect_material s) (rotation_y s) (rotation_z s) (cameraGoal s) (controllerGoal s)
    v (text3DGoals s) (hasInstruction s) (instructionGoal s) (buttonsVisible s)
    (buttonTimers s) (introPending s) (console s).

Definition set_text3DGoals (v : list (string * Q)) (s : State) : State :=
  mkState (currentStep s) (isRotating s) (rotationSpeed s) (current_material s) (materials s)
    (effect_material s) (rotation_y s) (rotation_z s) (cameraGoal s) (controllerGoal s)
    (textGoals s) v (hasInstruction s) (instructionGoal s) (buttonsVisible s)
    (buttonTimers s) (introPending s) (console s).

Definition set_instructionGoal (v : option Q) (s : State) : State :=
  mkState (currentStep s) (isRotating s) (rotationSpeed s) (current_material s) (materials s)
    (effect_material s) (rotation_y s) (rotation_z s) (cameraGoal s) (controllerGoal s)
    (textGoals s) (text3DGoals s) (hasInstruction s) v (buttonsVisible s)
    (buttonTimers s) (introPending s) (console s).

Definition set_buttonsVisible (v : bool) (s : State) : State :=
  mkState (currentStep s) (isRotating s) (rotationSpeed s) (current_material s) (materials s)
    (effect_material s) (rotation_y s) (rotation_z s) (cameraGoal s) (controllerGoal s)
    (textGoals s) (text3DGoals s) (hasInstruction s) (instructionGoal s) v
    (buttonTimers s) (introPending s) (console s).

Definition set_buttonTimers (v : nat) (s : State) : State :=
  mkState (currentStep s) (isRotating s) (rotationSpeed s) (current_material s) (materials s)
    (effect_material s) (rotation_y s) (rotation_z s) (cameraGoal s) (controllerGoal s)
    (textGoals s) (text3DGoals s) (hasInstruction s) (instructionGoal s) (buttonsVisible s)
    v (introPending s) (console s).

Definition set_introPending (v : bool) (s : State) : State :=
  mkState (currentStep s) (isRotating s) (rotationSpeed s) (current_material s) (materials s)
    (effect_material s) (rotation_y s) (rotation_z s) (cameraGoal s) (controllerGoal s)
    (textGoals s) (text3DGoals s) (hasInstruction s) (instructionGoal s) (buttonsVisible s)
    (buttonTimers s) v (console s).

Definition log (line : string) (s : State) : State :=
  mkState (currentStep s) (isRotating s) (rotationSpeed s) (current_material s) (materials s)
    (effect_material s) (rotation_y s) (rotation_z s) (cameraGoal s) (controllerGoal s)
    (textGoals s) (text3DGoals s) (hasInstruction s) (instructionGoal s) (buttonsVisible s)
    (buttonTimers s) (introPending s) (console s ++ [line]).

(** [mainMaterials[name]]: the material stored under the key, by its key. *)
Definition lookup_material (name : string) (s : State) : option string :=
  if existsb (String.eqb name) (materials s) then Some name else None.

(** ** bornTextForDome.js: [animate3DText] *)

(** [parseInt(key.replace('text', ''))] for a key that starts with [text];
    [None] stands for [NaN]. *)
Definition textStep (key : string) : option Z :=
  if prefix "text" key
  then option_map (fun u => Z.of_N (N.of_uint u))
         (NilEmpty.uint_of_string (substring 4 (String.length key - 4) key))
  else None.

(** Every group is sent to opacity 1 if its key carries [step], to 0 if not. *)
Definition animate3DText (step : Z) (s : State) : State :=
  set_text3DGoals
    (map (fun entry : string * Q =>
            let shouldShow := match textStep (fst entry) with
                              | Some textStep => (step =? textStep)%Z
                              | None => false
                              end in
            (fst entry, if shouldShow then 1%Q else 0%Q))
         (text3DGoals s)) s.

(** ** [animateToStep] *)

(** [list.map] of JavaScript's [forEach] with the index. *)
Fixpoint mapi_from {A B : Type} (f : nat -> A -> B) (i : nat) (l : list A) : list B :=
  match l with
  | [] => []
  | a :: rest => f i a :: mapi_from f (S i) rest
  end.

Definition animateTexts (step : Z) (s : State) : State :=
  set_textGoals
    (mapi_from (fun index text =>
                  match text with
                  | None => None        (* [if (!text) return] *)
                  | Some _ => Some (if (Z.of_nat index =? step)%Z then 1%Q else 0%Q)
                  end) 0 (textGoals s)) s.

(** From [gsap.to(mainEffectController, ...)] to the end of the function. *)
Definition animateToStep_rest (step : Z) (targetState : StepRow) (s : State) : State :=
  let p := effectParams targetState in
  let s := set_controllerGoal (Some (p_speed p, p_numBlobs p, p_isolation p)) s in
  let s := animateTexts step s in
  let s := animate3DText step s in
  let s := if hasInstruction s
           then set_instructionGoal
                  (Some (if (1 <=? currentStep s)%Z then 0%Q else 1%Q)) s
           else s in
  if (currentStep s =? totalSteps - 1)%Z
  then set_buttonTimers (S (buttonTimers s)) s
  else set_buttonsVisible false s.

Definition animateToStep (step : Z) (s : State) : State * Outcome :=
  match row step with
  | None => (s, TypeError)                          (* [targetState.cameraPos] *)
  | Some targetState =>
      let p := effectParams targetState in
      let s := set_cameraGoal (Some (cameraPos targetState)) s in
      let s := set_isRotating (p_rotation p) s in
      let s := set_rotationSpeed (p_rotationSpeed p) s in
      let '(s, thrown) :=
        match truthy (p_material p) with
        | Some m =>
            let s := set_current_material m s in
            let s := set_effect_material (lookup_material (current_material s) s) s in
            (s, match effect_material s with
                | None => true                      (* [mainEffect.material.needsUpdate] *)
                | Some _ => false
                end)
        | None => (set_current_material "shiny" s, false)
        end in
      if thrown then (s, TypeError)
      else
        let s := set_effect_material (lookup_material (current_material s) s) s in
        match effect_material s with
        | None => (s, TypeError)
        | Some _ => (animateToStep_rest step targetState s, Done)
        end
  end.

(** ** The wheel handler, the timers, the webcam and the render loop *)

(** The listener of the wheel adaptor's [trigger] event.  When
    [animateToStep] throws, the line of the console is not reached. *)
Definition onTrigger (y : Z) (s : State) : State * Outcome :=
  let '(s, outcome) :=
    if (0 <? y)%Z && (currentStep s <? totalSteps - 1)%Z then
      let s := set_currentStep (currentStep s + 1) s in
      animateToStep (currentStep s) s
    else if (y <? 0)%Z && (0 <? currentStep s)%Z then
      let s := set_currentStep (currentStep s - 1) s in
      animateToStep (currentStep s) s
    else (s, Done) in
  match outcome with
  | TypeError => (s, TypeError)
  | Done => (log ("Step: " ++ String_of_Z (currentStep s)) s, Done)
  end.

(** The timer of [setupWheelControls], 500 ms after the set-up. *)
Definition introTimer (s : State) : State :=
  let s := set_introPending false s in
  let s := set_textGoals
             (match textGoals s with
              | Some _ :: rest => Some 1%Q :: rest
              | other => other
              end) s in
  animate3DText 0 s.

(** A timer of the last step, 1500 ms after [animateToStep]. *)
Definition buttonTimer (s : State) : State := set_buttonsVisible true s.

(** born.js, [setupWebcam]: the camera was granted, and the material is
    stored under its key in the object that both modules hold. *)
Definition webcamGranted (s : State) : State :=
  if existsb (String.eqb "webcam") (materials s) then s
  else set_materials (materials s ++ ["webcam"]) s.

(** [applyRotation], called by [render] of born.js for every frame. *)
Definition applyRotation (s : State) : State :=
  if isRotating s
  then set_rotation (js_add (rotation_y s) (rotationSpeed s))
                    (js_add (rotation_z s) (rotationSpeed s)) s
  else s.

Definition getCurrentMaterial (s : State) : string := current_material s.

Inductive Event : Type :=
| Trigger (y : Z)
| IntroTimer
| ButtonTimer
| WebcamGranted
| Frame.

(** A timer fires only while it is pending. *)
Definition step (s : State) (ev : Event) : State :=
  match ev with
  | Trigger y => fst (onTrigger y s)
  | IntroTimer => if introPending s then introTimer s else s
  | ButtonTimer =>
      match buttonTimers s with
      | O => s
      | S n => buttonTimer (set_buttonTimers n s)
      end
  | WebcamGranted => webcamGranted s
  | Frame => applyRotation s
  end.

Definition run (s : State) (evs : list Event) : State := fold_left step evs s.

(** The keys of [TEXT_3D_CONTENT] (bornTextForDome.js), in their order. *)
Definition TEXT_3D_KEYS : list string :=
  [ "text0"; "text1"; "text2"; "text3"; "text4"; "text5"; "text6"; "text7";
    "text8"; "text9"; "text10"; "text11"; "text12"; "text13" ].

(** The page once [init] of born.js has run: [present] tells which of the
    elements [text0] ... [text13] the document has. *)
Definition initial (present : nat -> bool) (instruction : bool) : State :=
  mkState 0 false (Num 0) "shiny" ["shiny"; "chrome"; "liquid"] (Some "shiny")
    (Num 0) (Num 0) None None
    (map (fun i => if present i then Some 0%Q else None) (seq 0 (List.length STEPS)))
    (map (fun key => (key, 0%Q)) TEXT_3D_KEYS)
    instruction None false 0 true [].

(** ** What every state of the machine satisfies *)

(** The material that [animateToStep] selects for a row. *)
Definition material_of (r : StepRow) : string :=
  match truthy (p_material (effectParams r)) with
  | Some m => m
  | None => "shiny"
  end.

(** The rotation flags and the material are those of the row of the
    current step, which exists. *)
Definition in_step (s : State) : Prop :=
  exists r : StepRow,
    row (currentStep s) = Some r /\
    isRotating s = p_rotation (effectParams r) /\
    rotationSpeed s = p_rotationSpeed (effectParams r) /\
    current_material s = material_of r.

Definition rotation_finite (s : State) : Prop :=
  finite (rotation_y s) = true /\ finite (rotation_z s) = true.

Definition has_shiny (s : State) : Prop :=
  existsb (String.eqb "shiny") (materials s) = true.

Definition keys_ok (s : State) : Prop := map fst (text3DGoals s) = TEXT_3D_KEYS.

Definition well_formed (s : State) : Prop :=
  in_step s /\ rotation_finite s /\ has_shiny s /\ keys_ok s.

(** The keys of the 3D texts that were last sent to opacity 1. *)
Definition shown3D (s : State) : list string :=
  map fst (filter (fun entry : string * Q => Qeq_bool (snd entry) 1) (text3DGoals s)).

End Scroll.

(* ====================================================================== *)
(** * Part V-c.  unborn.js: the texts of the tube and the steps of scene 2 *)
(* ====================================================================== *)

Module Unborn.

Local Open Scope Q_scope.

(** ** Scene 1: the opacity of a text along the tube *)

(** [texts.length], and [SCENE1_TEXTS.length] of unbornTextForDome.js. *)
Definition numTexts : Z := 6.

(** The end of the tween of [tubePerc.percent]. *)
Definition TUBE_END : Q := 96 # 100.

(** The fade inside a segment: in during the first fifth, out during the
    last. *)
Definition fade (segmentProgress : Q) : Q :=
  if Qlt_le_dec segmentProgress (2 # 10) then segmentProgress / (2 # 10)
  else if Qlt_le_dec (8 # 10) segmentProgress
       then 1 - (segmentProgress - (8 # 10)) / (2 # 10)
       else 1.

(** [animate3DTextByPercentage]: the opacity given to the meshes of the
    group at [index]. *)
Definition targetOpacity (index : Z) (percent : Q) : Q :=
  let segmentSize := 1 / inject_Z numTexts in
  let textStart := inject_Z index * segmentSize in
  let textEnd := textStart + segmentSize in
  if Qle_bool textStart percent && negb (Qle_bool textEnd percent)
  then fade ((percent - textStart) / segmentSize)
  else 0.

(** The [onUpdate] of the tube's tween: [text.style.opacity] of the HTML
    text at [index]. *)
Definition styleOpacity (index : Z) (percent : Q) : Q :=
  let segmentSize := 1 / inject_Z numTexts in
  let textStart := inject_Z index * segmentSize in
  let textEnd := textStart + segmentSize in
  if (index =? numTexts - 1)%Z && negb (Qle_bool percent TUBE_END) then 0
  else if Qle_bool textStart percent && negb (Qle_bool textEnd percent)
       then fade ((percent - textStart) / segmentSize)
       else 0.

(** ** Scene 2: the step machine *)

Definition cameraSteps : list (Z * Z * Z) :=
  [ (0, -3, 100); (30, 3, 150); (0, -3, 200); (-80, 10, 80); (-20, 5, 30);
    (0, 10, -300); (10, 10, -300) ]%Z.

(** [let totalSteps = 7] *)
Definition totalSteps : Z := 7.

(** [table[i]]: [undefined] outside the array. *)
Definition at_index {A : Type} (table : list A) (i : Z) : option A :=
  if (i <? 0)%Z then None else nth_error table (Z.to_nat i).

(** The variables of scene 2, what has been asked of the animation library
    (the end value of the tween of the camera created last, and the number
    of tweens created whose [onStart] has not run), the timers that are
    pending, and the opacities of the texts [text7] ... [text13], which the
    page is taken to have.  One wheel adaptor is connected. *)
Record State : Type := mkState {
  scene2Step : Z;
  cameraTargetPercentage : Q;
  cameraGoal : option (Z * Z * Z);
  rotationGoal : bool;   (* [camera.rotation] sent to (-0.2, 0, 0) *)
  pendingStarts : nat;
  textTimers : nat;   (* pending 500 ms timers *)
  buttonTimers : nat;   (* pending 1000 ms timers *)
  buttonsVisible : bool;   (* [style.visibility] of the buttons *)
  scene2texts : list Q;
  scene1Opacity3D : list Q;   (* the groups of [SCENE1_TEXTS] *)
  scene2Goals3D : list Q;   (* the groups of [SCENE2_TEXTS] *)
  introPending : bool   (* the timer that shows the first text *)
}.

Definition set_scene2Step (v : Z) (s : State) : State :=
  mkState v (cameraTargetPercentage s) (cameraGoal s) (rotationGoal s) (pendingStarts s)
    (textTimers s) (buttonTimers s) (buttonsVisible s) (scene2texts s)
    (scene1Opacity3D s) (scene2Goals3D s) (introPending s).

Definition set_cameraTargetPercentage (v : Q) (s : State) : State :=
  mkState (scene2Step s) v (cameraGoal s) (rotationGoal s) (pendingStarts s)
    (textTimers s) (buttonTimers s) (buttonsVisible s) (scene2texts s)
    (scene1Opacity3D s) (scene2Goals3D s) (introPending s).

Definition set_cameraGoal (v : option (Z * Z * Z)) (s : State) : State :=
  mkState (scene2Step s) (cameraTargetPercentage s) v (rotationGoal s) (pendingStarts s)
    (textTimers s) (buttonTimers s) (buttonsVisible s) (scene2texts s)
    (scene1Opacity3D s) (scene2Goals3D s) (introPending s).

Definition set_rotationGoal (v : bool) (s : State) : State :=
  mkState (scene2Step s) (cameraTargetPercentage s) (cameraGoal s) v (pendingStarts s)
    (textTimers s) (buttonTimers s) (buttonsVisible s) (scene2texts s)
    (scene1Opacity3D s) (scene2Goals3D s) (introPending s).

Definition set_pendingStarts (v : nat) (s : State) : State :=
  mkState (scene2Step s) (cameraTargetPercentage s) (cameraGoal s) (rotationGoal s) v
    (textTimers s) (buttonTimers s) (buttonsVisible s) (scene2texts s)
    (scene1Opacity3D s) (scene2Goals3D s) (introPending s).

Definition set_textTimers (v : nat) (s : State) : State :=
  mkState (scene2Step s) (cameraTargetPercentage s) (cameraGoal s) (rotationGoal s)
    (pendingStarts s) v (buttonTimers s) (buttonsVisible s) (scene2texts s)
    (scene1Opacity3D s) (scene2Goals3D s) (introPending s).

Definition set_buttonTimers (v : nat) (s : State) : State :=
  mkState (scene2Step s) (cameraTargetPercentage s) (cameraGoal s) (rotationGoal s)
    (pendingStarts s) (textTimers s) v (buttonsVisible s) (scene2texts s)
    (scene1Opacity3D s) (scene2Goals3D s) (introPending s).

Definition set_buttonsVisible (v : bool) (s : State) : State :=
  mkState (scene2Step s) (cameraTargetPercentage s) (cameraGoal s) (rotationGoal s)
    (pendingStarts s) (textTimers s) (buttonTimers s) v (scene2texts s)
    (scene1Opacity3D s) (scene2Goals3D s) (introPending s).

Definition set_scene2texts (v : list Q) (s : State) : State :=
  mkState (scene2Step s) (cameraTargetPercentage s) (cameraGoal s) (rotationGoal s)
    (pendingStarts s) (textTimers s) (buttonTimers s) (buttonsVisible s) v
    (scene1Opacity3D s) (scene2Goals3D s) (introPending s).

Definition set_scene1Opacity3D (v : list Q) (s : State) : State :=
  mkState (scene2Step s) (cameraTargetPercentage s) (cameraGoal s) (rotationGoal s)
    (pendingStarts s) (textTimers s) (buttonTimers s) (buttonsVisible s) (scene2texts s)
    v (scene2Goals3D s) (introPending s).

Definition set_scene2Goals3D (v : list Q) (s : State) : State :=
  mkState (scene2Step s) (cameraTargetPercentage s) (cameraGoal s) (rotationGoal s)
    (pendingStarts s) (textTimers s) (buttonTimers s) (buttonsVisible s) (scene2texts s)
    (scene1Opacity3D s) v (introPending s).

Definition set_introPending (v : bool) (s : State) : State :=
  mkState (scene2Step s) (cameraTargetPercentage s) (cameraGoal s) (rotationGoal s)
    (pendingStarts s) (textTimers s) (buttonTimers s) (buttonsVisible s) (scene2texts s)
    (scene1Opacity3D s) (scene2Goals3D s) v.

(** [animate3DTextByStep] of unbornTextForDome.js. *)
Definition animate3DTextByStep (step : Z) (s : State) : State :=
  let s := set_scene1Opacity3D (map (fun _ => 0) (scene1Opacity3D s)) s in
  set_scene2Goals3D
    (map (fun index => if (step =? Z.of_nat index)%Z then 1 else 0)
         (seq 0 (List.length (scene2Goals3D s)))) s.

(** [changeCameraAndText]: the part that runs at the call.  The end values
    of the tween are read from the table before the tween is created. *)
Definition changeCameraAndText (s : State) : State * Outcome :=
  match at_index cameraSteps (scene2Step s) with
  | None => (s, TypeError)                 (* [cameraSteps[scene2Step].x] *)
  | Some goal => (set_pendingStarts (S (pendingStarts s)) (set_cameraGoal (Some goal) s), Done)
  end.

(** The [onStart] of such a tween; it reads [scene2Step] when it runs. *)
Definition onStart (s : State) : State :=
  let s := if (3 <=? scene2Step s)%Z
           then set_rotationGoal true (set_cameraTargetPercentage 1 s)
           else s in
  let s := if (scene2Step s =? 6)%Z
           then set_buttonTimers (S (buttonTimers s)) s
           else set_buttonsVisible false s in
  let s := set_scene2texts (map (fun _ => 0) (scene2texts s)) s in
  set_textTimers (S (textTimers s)) s.

(** The timer set by [onStart]; it reads [scene2Step] when it fires. *)
Definition textTimer (s : State) : State * Outcome :=
  match at_index (scene2texts s) (scene2Step s) with
  | None => (s, TypeError)                 (* [scene2texts[scene2Step].style] *)
  | Some _ =>
      let s := set_scene2texts
                 (update_nth (Z.to_nat (scene2Step s)) (fun _ => 1) (scene2texts s)) s in
      (animate3DTextByStep (scene2Step s) s, Done)
  end.

(** The timer set when the wheel adaptor is connected. *)
Definition introTimer (s : State) : State :=
  let s := set_scene2texts (update_nth 0 (fun _ => 1) (scene2texts s)) s in
  animate3DTextByStep 0 s.

Definition buttonTimer (s : State) : State := set_buttonsVisible true s.

(** The listener of the wheel adaptor: two tests, one after the other. *)
Definition onTrigger (y : Z) (s : State) : State * Outcome :=
  let '(s, outcome) :=
    if (0 <? y)%Z && (scene2Step s <? totalSteps)%Z
    then changeCameraAndText (set_scene2Step (scene2Step s + 1) s)
    else (s, Done) in
  match outcome with
  | TypeError => (s, TypeError)
  | Done =>
      if (y <? 0)%Z && (0 <? scene2Step s)%Z
      then changeCameraAndText (set_scene2Step (scene2Step s - 1) s)
      else (s, Done)
  end.

(** The [onUpdate] of the tube's tween, at [tubePerc.percent = percent]:
    the target of the camera and the opacities of the 3D texts of scene 1.
    (The styles of the HTML texts, [styleOpacity], are not kept in the
    state.) *)
Definition tubeUpdate (percent : Q) (s : State) : State :=
  let s := set_cameraTargetPercentage percent s in
  set_scene1Opacity3D
    (map (fun index => targetOpacity (Z.of_nat index) percent)
         (seq 0 (List.length (scene1Opacity3D s)))) s.

(** [updateCameraPercentage]: the three places of the path that it asks
    [path.getPointAt] for. *)
Definition updateCameraPercentage (percentage : Q) : Q * Q * Q :=
  (js_rem percentage 1,
   js_rem (percentage + (3 # 100)) 3,
   js_rem (percentage + (5 # 100)) 1).

(** [render]: the places of the path asked for in one frame, if any. *)
Definition pathLookups (s : State) : option (Q * Q * Q) :=
  if Qlt_le_dec (cameraTargetPercentage s) 1
  then Some (updateCameraPercentage (cameraTargetPercentage s))
  else None.

Inductive Event : Type :=
| Trigger (y : Z)
| TweenStart
| IntroTimer
| TextTimer
| ButtonTimer
| TubeUpdate (percent : Q).

(** The tube's tween runs from 0 to [TUBE_END]. *)
Definition on_tube (ev : Event) : Prop :=
  match ev with
  | TubeUpdate percent => 0 <= percent /\ percent <= TUBE_END
  | _ => True
  end.

(** A tween starts, and a timer fires, only while one is pending. *)
Definition step (s : State) (ev : Event) : State :=
  match ev with
  | Trigger y => fst (onTrigger y s)
  | TubeUpdate percent => tubeUpdate percent s
  | TweenStart =>
      match pendingStarts s with
      | O => s
      | S n => onStart (set_pendingStarts n s)
      end
  | IntroTimer => if introPending s then introTimer (set_introPending false s) else s
  | TextTimer =>
      match textTimers s with
      | O => s
      | S n => fst (textTimer (set_textTimers n s))
      end
  | ButtonTimer =>
      match buttonTimers s with
      | O => s
      | S n => buttonTimer (set_buttonTimers n s)
      end
  end.

Definition run (s : State) (evs : list Event) : State := fold_left step evs s.

(** Scene 2 when the wheel adaptor is connected: the camera has been sent
    to the first row, and the timer that shows the first text is pending.
    [percent] is where the tube's tween stands and [visible] whether the
    style sheet shows the buttons. *)
Definition initial (percent : Q) (visible : bool) : State :=
  mkState 0 percent (at_index cameraSteps 0) false 0 0 0 visible
    (repeat 0 7) (repeat 0 6) (repeat 0 7) true.

End Unborn.

(* ====================================================================== *)
(** * Part V-d.  The 3D texts of the dome, and the blobs of born.js *)
(* ====================================================================== *)

Module DomeText.

Import Fisheye.
Local Open Scope R_scope.

(** [THREE.MathUtils.degToRad] *)
Definition degToRad (degrees : R) : R := degrees * (PI / 180).

(** [domeToLocalPosition], the same in bornTextForDome.js and
    unbornTextForDome.js. *)
Definition domeToLocalPosition (angle rotation distance : R) : vec3 :=
  let angleRad := degToRad angle in
  let rotationRad := degToRad (rotation - 90) in
  let z := - cos angleRad * distance in
  let radialDist := sin angleRad * distance in
  let x := cos rotationRad * radialDist in
  let y := sin rotationRad * radialDist in
  mkVec3 x y z.

(** The operations of [THREE.Vector3] that [update3DTextPositions] uses. *)
Definition add (a b : vec3) : vec3 := mkVec3 (x3 a + x3 b) (y3 a + y3 b) (z3 a + z3 b).
Definition sub (a b : vec3) : vec3 := mkVec3 (x3 a - x3 b) (y3 a - y3 b) (z3 a - z3 b).
Definition multiplyScalar (v : vec3) (k : R) : vec3 := mkVec3 (x3 v * k) (y3 v * k) (z3 v * k).
Definition crossVectors (a b : vec3) : vec3 :=
  mkVec3 (y3 a * z3 b - z3 a * y3 b) (z3 a * x3 b - x3 a * z3 b) (x3 a * y3 b - y3 a * x3 b).
Definition vlength (v : vec3) : R := sqrt (dot v v).

(** [normalize]: [divideScalar(length() || 1)]. *)
Definition normalize (v : vec3) : vec3 :=
  multiplyScalar v (/ (if Req_EM_T (vlength v) 0 then 1 else vlength v)).

(** [update3DTextPositions], for one mesh: the position it is given.
    [cameraDirection] and [cameraUp] are the images of (0, 0, -1) and
    (0, 1, 0) under the quaternion of the camera. *)
Definition worldPos (cameraPosition cameraDirection cameraUp : vec3)
    (angle rotation distance : R) : vec3 :=
  let cameraRight := normalize (crossVectors cameraDirection cameraUp) in
  let localPos := domeToLocalPosition angle rotation distance in
  let worldPos := cameraPosition in
  let worldPos := add worldPos (multiplyScalar cameraRight (x3 localPos)) in
  let worldPos := add worldPos (multiplyScalar cameraUp (y3 localPos)) in
  let worldPos := add worldPos (multiplyScalar cameraDirection (- z3 localPos)) in
  worldPos.

End DomeText.

Module Blobs.

Local Open Scope R_scope.

(** The calls that [updateCubes] makes on the marching-cubes object. *)
Record Ball : Type := mkBall {
  ballx : R;
  bally : R;
  ballz : R;
  strength : R;
  subtract : R;
  colour : option nat      (* the index into [rainbow], when one is passed *)
}.

Inductive FieldCall : Type :=
| Reset
| AddBall (b : Ball)
| AddPlaneY (strength subtract : R)
| AddPlaneZ (strength subtract : R)
| AddPlaneX (strength subtract : R)
| Update.

(** The balls among the calls, in order. *)
Definition balls (calls : list FieldCall) : list Ball :=
  flat_map (fun c => match c with
                     | AddBall b => [b]
                     | _ => []
                     end) calls.

(** The body of the loop, for one [i]. *)
Definition ball_at (current_material : string) (time strength : R) (i : nat) : Ball :=
  let ballx := sin (INR i + 1.26 * time * (1.03 + 0.5 * cos (0.21 * INR i))) * 0.27 + 0.5 in
  let bally := Rabs (cos (INR i + 1.12 * time * cos (1.22 + 0.1424 * INR i))) * 0.77 in
  let ballz := cos (INR i + 1.32 * time * 0.1 * sin (0.92 + 0.53 * INR i)) * 0.27 + 0.5 in
  mkBall ballx bally ballz strength 12
    (if String.eqb current_material "multiColors" then Some (i mod 7)%nat else None).

(** How often [for (let i = 0; i < numblobs; i++)] runs: the number of
    naturals below [numblobs], which need not be an integer. *)
Definition iterations (numblobs : R) : nat := Z.to_nat (1 - up (- numblobs)).

(** [updateCubes]; [current_material] is what [getCurrentMaterial()]
    returns. *)
Definition updateCubes (current_material : string) (time numblobs : R)
    (floor wallx wallz : bool) : list FieldCall :=
  let strength := 1.2 / ((sqrt numblobs - 1) / 4 + 1) in
  [Reset]
  ++ map (fun i => AddBall (ball_at current_material time strength i))
         (seq 0 (iterations numblobs))
  ++ (if floor then [AddPlaneY 2 12] else [])
  ++ (if wallz then [AddPlaneZ 2 12] else [])
  ++ (if wallx then [AddPlaneX 2 12] else [])
  ++ [Update].

End Blobs.

Module TextTexture.

Local Open Scope R_scope.

(** [Math.ceil] and [Math.log2], on real numbers. *)
Definition ceil (x : R) : Z := (1 - up (- x))%Z.
Definition log2 (x : R) : R := ln x / ln 2.

(** [createTextTexture] of bornTextForDome.js: the width and the height
    given to the canvas, for the measured width of the text and the size of
    the font. *)
Definition padding : R := 60.
Definition canvas_width (textWidth : R) : R :=
  Rpower 2 (IZR (ceil (log2 (textWidth + padding * 2)))).
Definition canvas_height (fontSize : R) : R :=
  Rpower 2 (IZR (ceil (log2 (fontSize * 2 + padding * 2)))).

End TextTexture.

(** ** Proof automation *)

(** Open a world into its fields. *)
Ltac break_world w :=
  destruct w as [[? ? ? ? ?] [? ? ? ? ? ?] [? ? ?] [? ? ? ? ? ? ? ? ? ?]].

(** Compute, and split on every test the computation gets stuck on. *)
(** Open the pair that holds the size of the renderer. *)
Ltac destruct_size :=
  match goal with
  | p : (Z * Z)%type |- _ => destruct p
  end.

Ltac split_ifs :=
  repeat (cbn;
          match goal with
          | |- context [if ?b then _ else _] => destruct b eqn:?
          | |- context [match ?o with Some _ => _ | None => _ end] => destruct o eqn:?
          end);
  cbn.

(* ====================================================================== *)
(** * Part VI.  Theorems: the fisheye projector *)
(* ====================================================================== *)

Section FisheyeTheorems.

Import Fisheye.
Local Open Scope R_scope.

(** The shader's constant lies just above the number it stands for. *)
Lemma PI_below_PI_const : PI < PI_const.
Proof.
  pose proof (PI_2_3_7_ineq 7) as [_ H].
  cbv [sum_f_R0 tg_alt PI_2_3_7_tg Ratan_seq Nat.mul Nat.add INR] in H.
  unfold PI_const. lra.
Qed.

Lemma PI_const_close : PI_const - PI < 8743 / 100000000000.
Proof.
  pose proof (PI_2_3_7_ineq 7) as [H _].
  cbv [sum_f_R0 tg_alt PI_2_3_7_tg Ratan_seq Nat.mul Nat.add INR] in H.
  unfold PI_const. lra.
Qed.



Lemma sqrt_gt_1 (x : R) : 1 < x -> 1 < sqrt x.
Proof.
  intros H. rewrite <- sqrt_1 at 1. apply sqrt_lt_1_alt. lra.
Qed.

Lemma length_center : length (centered (mkVec2 (1 / 2) (1 / 2))) = 0.
Proof.
  unfold length, centered; simpl.
  replace ((1 / 2 * 2 - 1) * (1 / 2 * 2 - 1) + (1 / 2 * 2 - 1) * (1 / 2 * 2 - 1)) with 0 by field.
  apply sqrt_0.
Qed.

Lemma length_east : length (centered (mkVec2 1 (1 / 2))) = 1.
Proof.
  unfold length, centered; simpl.
  replace ((1 * 2 - 1) * (1 * 2 - 1) + (1 / 2 * 2 - 1) * (1 / 2 * 2 - 1)) with 1 by field.
  apply sqrt_1.
Qed.

(** Inside the disk the shader fetches the cube map once, in the direction
    built from [theta] and [phi]. *)
Lemma fragmentShader_inside (atan2 : R -> R -> R) (fov : R) (vUv : vec2) :
  length (centered vUv) <= 1 ->
  fragmentShader atan2 fov vUv =
    TextureCube (toCapture (dir_of (theta_of atan2 (centered vUv))
                                   (phi_of fov (length (centered vUv))))).
Proof.
  intros H. unfold fragmentShader.
  destruct (Rgt_dec (length (centered vUv)) 1) as [Hgt | _]; [lra | reflexivity].
Qed.


(** C1.  For every pixel whose centred coordinates lie outside the unit disk
    ([length(u,v) > 1]) the shader writes opaque black, whatever the capture
    holds, and does not read the capture: the projector never samples for a
    pixel outside the disk. *)
Theorem C1_outside_disk_opaque_black :
  forall (atan2 : R -> R -> R) (tCube : vec3 -> vec4) (fov : R) (vUv : vec2),
    length (centered vUv) > 1 ->
    fragmentShader atan2 fov vUv = WriteColor (mkVec4 0 0 0 1) /\
    gl_FragColor atan2 tCube fov vUv = mkVec4 0 0 0 1 /\
    samples atan2 fov vUv = [].
Proof.
  intros atan2 tCube fov vUv H.
  assert (E : fragmentShader atan2 fov vUv = WriteColor (mkVec4 0 0 0 1)).
  { unfold fragmentShader.
    destruct (Rgt_dec (length (centered vUv)) 1) as [_ | Hn]; [reflexivity | contradiction]. }
  unfold gl_FragColor, samples. rewrite E. repeat split.
Qed.

Lemma C1_outside_disk_opaque_black_witness :
  length (centered (mkVec2 1 1)) > 1 /\
  gl_FragColor atan_yx (fun _ => mkVec4 1 1 1 1) DOME_FOV (mkVec2 1 1) = mkVec4 0 0 0 1.
Proof.
  assert (H : length (centered (mkVec2 1 1)) > 1).
  { unfold length, centered; simpl. apply Rlt_gt, sqrt_gt_1. lra. }
  split; [exact H|].
  exact (proj1 (proj2 (C1_outside_disk_opaque_black atan_yx (fun _ => mkVec4 1 1 1 1)
                         DOME_FOV (mkVec2 1 1) H))).
Defined.




End FisheyeTheorems.

(* ====================================================================== *)
(** * Part VII.  Theorems: the frame pacer *)
(* ====================================================================== *)

Section PacerTheorems.

Local Open Scope Q_scope.

Lemma frame_duration_value : DOME_FRAME_DURATION == 100 # 3.
Proof. reflexivity. Qed.

Lemma Qtrunc_nonneg (x : Q) : 0 <= x -> Qtrunc x = Qfloor x.
Proof.
  destruct x as [n p]. unfold Qle, Qtrunc, Qfloor; simpl. intros H.
  apply Z.quot_div_nonneg; lia.
Qed.

Lemma Qfloor_unique (x : Q) (z : Z) :
  inject_Z z <= x -> x < inject_Z (z + 1) -> Qfloor x = z.
Proof.
  intros H1 H2.
  pose proof (Qfloor_le x) as F1. pose proof (Qlt_floor x) as F2.
  assert (A : (z < Qfloor x + 1)%Z).
  { rewrite Zlt_Qlt. eapply Qle_lt_trans; eauto. }
  assert (B : (Qfloor x < z + 1)%Z).
  { rewrite Zlt_Qlt. eapply Qle_lt_trans; eauto. }
  lia.
Qed.

Lemma div_frame (x : Q) : x / DOME_FRAME_DURATION == x * (3 # 100).
Proof. unfold DOME_FRAME_DURATION, DOME_TARGET_FPS. field. Qed.

(** The quotient that [%] drops is the number of whole frame durations in a
    non-negative [x]. *)
Lemma trunc_bounds (x : Q) :
  0 <= x ->
  let q := Qtrunc (x / DOME_FRAME_DURATION) in
  (0 <= q)%Z /\
  inject_Z q * DOME_FRAME_DURATION <= x /\
  x < inject_Z (q + 1) * DOME_FRAME_DURATION.
Proof.
  intros Hx q.
  pose proof (div_frame x) as E.
  assert (Hd : 0 <= x / DOME_FRAME_DURATION) by lra.
  unfold q. rewrite (Qtrunc_nonneg _ Hd).
  pose proof (Qfloor_le (x / DOME_FRAME_DURATION)) as F1.
  pose proof (Qlt_floor (x / DOME_FRAME_DURATION)) as F2.
  assert (F0 : (Qfloor 0 <= Qfloor (x / DOME_FRAME_DURATION))%Z)
    by (apply Qfloor_resp_le; exact Hd).
  set (f := Qfloor (x / DOME_FRAME_DURATION)) in *.
  rewrite inject_Z_plus in *.
  pose proof frame_duration_value as V.
  split; [exact F0|].
  split; rewrite V; lra.
Qed.

(** When between one and two frame durations have elapsed, [%] takes away
    exactly one. *)
Lemma trunc_one (x : Q) :
  DOME_FRAME_DURATION <= x -> x < 2 * DOME_FRAME_DURATION ->
  Qtrunc (x / DOME_FRAME_DURATION) = 1%Z.
Proof.
  intros H1 H2.
  pose proof frame_duration_value as V.
  pose proof (div_frame x) as E.
  assert (Hd : 0 <= x / DOME_FRAME_DURATION) by lra.
  rewrite (Qtrunc_nonneg _ Hd).
  apply Qfloor_unique.
  - change (inject_Z 1) with 1. lra.
  - change (inject_Z (1 + 1)) with 2. lra.
Qed.

(** The skip branch. *)
Lemma pacer_skip (e : Env) (w : World) :
  DOME_MODE (dome w) = true ->
  now e - lastFrameTime (dome w) < DOME_FRAME_DURATION ->
  shouldRenderDomeFrame e w = (false, w).
Proof.
  intros Hm Hlt. unfold shouldRenderDomeFrame. rewrite Hm; simpl.
  destruct (Qlt_le_dec (now e - lastFrameTime (dome w)) DOME_FRAME_DURATION) as [_ | Hle];
    [reflexivity | lra].
Qed.

(** The produce branch. *)
Lemma pacer_produce (e : Env) (w : World) :
  DOME_MODE (dome w) = true ->
  DOME_FRAME_DURATION <= now e - lastFrameTime (dome w) ->
  exists w' : World,
    shouldRenderDomeFrame e w = (true, w') /\
    DOME_MODE (dome w') = true /\
    lastFrameTime (dome w') =
      now e - js_rem (now e - lastFrameTime (dome w)) DOME_FRAME_DURATION /\
    domeFrameCount (dome w') = (domeFrameCount (dome w) + 1)%Z /\
    rec w' = rec w /\ app w' = app w.
Proof.
  intros Hm Hle. unfold shouldRenderDomeFrame. rewrite Hm; simpl.
  destruct (Qlt_le_dec (now e - lastFrameTime (dome w)) DOME_FRAME_DURATION) as [Hlt | _];
    [lra|].
  eexists. split; [reflexivity|].
  destruct (Z.rem (domeFrameCount (dome w) + 1) 30 =? 0)%Z; simpl; auto.
Qed.

(** A callback in dome mode keeps dome mode on. *)
Lemma pacer_keeps_mode (e : Env) (w : World) :
  DOME_MODE (dome w) = true ->
  DOME_MODE (dome (snd (shouldRenderDomeFrame e w))) = true.
Proof.
  intros Hm.
  destruct (Qlt_le_dec (now e - lastFrameTime (dome w)) DOME_FRAME_DURATION) as [Hlt | Hle].
  - rewrite (pacer_skip e w Hm Hlt). exact Hm.
  - destruct (pacer_produce e w Hm Hle) as (w' & E & Hm' & _). rewrite E. exact Hm'.
Qed.

Lemma last_cons (t prev : Q) (rest : list Q) : last (t :: rest) prev = last rest t.
Proof.
  revert t prev. induction rest as [| r rest IH]; intros t prev; [reflexivity|].
  change (last (t :: r :: rest) prev) with (last (r :: rest) prev).
  rewrite (IH r prev), (IH r t). reflexivity.
Qed.

Lemma pacer_signals_cons (w : World) (t : Q) (rest : list Q) :
  pacer_signals w (t :: rest) =
    (fst (shouldRenderDomeFrame (mkEnv t 0) w)
       :: fst (pacer_signals (snd (shouldRenderDomeFrame (mkEnv t 0) w)) rest),
     snd (pacer_signals (snd (shouldRenderDomeFrame (mkEnv t 0) w)) rest)).
Proof.
  simpl. destruct (shouldRenderDomeFrame (mkEnv t 0) w) as [b w1]. simpl.
  destruct (pacer_signals w1 rest) as [bs w2]. reflexivity.
Qed.

Lemma produced_cons (w : World) (t : Q) (rest : list Q) :
  produced w (t :: rest) =
    ((if fst (shouldRenderDomeFrame (mkEnv t 0) w) then 1 else 0)
     + produced (snd (shouldRenderDomeFrame (mkEnv t 0) w)) rest)%Z.
Proof.
  unfold produced. rewrite pacer_signals_cons. simpl fst.
  destruct (fst (shouldRenderDomeFrame (mkEnv t 0) w)); simpl count_occ; lia.
Qed.

Lemma produced_nonneg (w : World) (times : list Q) : (0 <= produced w times)%Z.
Proof. unfold produced. lia. Qed.

(** ** Rounding to the nearest double *)

Lemma round_half_even_error (y : Q) : Qabs (inject_Z (round_half_even y) - y) <= 1 # 2.
Proof.
  unfold round_half_even.
  pose proof (Qfloor_le y) as F1. pose proof (Qlt_floor y) as F2.
  set (f := Qfloor y) in *. rewrite inject_Z_plus in F2. change (inject_Z 1) with 1 in F2.
  apply Qabs_Qle_condition.
  destruct (y - inject_Z f ?= 1 # 2) eqn:C.
  - apply Qeq_alt in C.
    destruct (Z.even f); [|rewrite inject_Z_plus; change (inject_Z 1) with 1]; split; lra.
  - apply Qlt_alt in C. split; lra.
  - apply Qgt_alt in C. rewrite inject_Z_plus. change (inject_Z 1) with 1. split; lra.
Qed.

Lemma two_pow_pos (e : Z) : 0 < 2 ^ e.
Proof. apply Qpower_0_lt. reflexivity. Qed.

Lemma Qlog2_spec (x : Q) : 0 < x -> 2 ^ Qlog2 x <= x.
Proof.
  intros Hx. unfold Qlog2.
  set (e := (Z.log2 (Qnum x) - Z.log2 (Z.pos (Qden x)))%Z).
  destruct (Qle_bool (2 ^ e) x) eqn:B; [apply Qle_bool_iff; exact B|].
  destruct x as [n d]. cbn [Qnum Qden] in e.
  assert (Hn : (0 < n)%Z) by (unfold Qlt in Hx; cbn in Hx; lia).
  destruct (Z.log2_spec n Hn) as [N1 _].
  destruct (Z.log2_spec (Z.pos d) (Pos2Z.is_pos d)) as [_ D2].
  pose proof (Z.log2_nonneg n) as A0. pose proof (Z.log2_nonneg (Z.pos d)) as B0.
  set (a := Z.log2 n) in *. set (b := Z.log2 (Z.pos d)) in *.
  (* 2^(a-b-1) * d <= 2^(a-b-1) * 2^(b+1) = 2^a <= n *)
  rewrite (Qmake_Qdiv n d).
  apply Qle_shift_div_l; [change 0 with (inject_Z 0); rewrite <- Zlt_Qlt; lia|].
  apply Qle_trans with (2 ^ (e - 1) * 2 ^ (b + 1)).
  - apply Qmult_le_l; [apply two_pow_pos|].
    change 2 with (inject_Z 2). rewrite <- Zpower_Qpower by lia.
    rewrite <- Zle_Qle. unfold Z.succ in D2. lia.
  - rewrite <- Qpower_plus by discriminate.
    replace (e - 1 + (b + 1))%Z with a by (unfold e; lia).
    change 2 with (inject_Z 2). rewrite <- Zpower_Qpower by lia.
    rewrite <- Zle_Qle. exact N1.
Qed.

Lemma ulp_bound (x : Q) (m : Z) :
  ~ x == 0 -> Qabs x <= 2 ^ m -> ulp x * (1 # 2) <= 2 ^ (m - 53).
Proof.
  intros Hx Hm. unfold ulp.
  assert (Hp : 0 < Qabs x).
  { pose proof (Qabs_nonneg x) as H0.
    destruct (Qlt_le_dec 0 (Qabs x)) as [H | H]; [exact H|].
    exfalso. apply Hx. assert (E : Qabs x <= 0) by exact H.
    apply Qabs_Qle_condition in E. lra. }
  pose proof (Qlog2_spec (Qabs x) Hp) as L.
  assert (Le : (Qlog2 (Qabs x) <= m)%Z).
  { apply (Qpower_le_compat_l_inv 2); [|reflexivity]. lra. }
  replace (Qlog2 (Qabs x) - 52)%Z with ((Qlog2 (Qabs x) - 53) + 1)%Z by lia.
  rewrite Qpower_plus by discriminate. change (2 ^ 1) with 2.
  assert (P : 2 ^ (Qlog2 (Qabs x) - 53) <= 2 ^ (m - 53)).
  { apply Qpower_le_compat_l; [lia | discriminate]. }
  lra.
Qed.

(** A double is within half the distance to its neighbours of the number it
    stands for: up to [2^m], within [2^(m - 53)]. *)
Lemma round64_error (m : Z) (x : Q) :
  Qabs x <= 2 ^ m -> Qabs (round64 x - x) <= 2 ^ (m - 53).
Proof.
  intros Hm. unfold round64.
  destruct (Qeq_bool x 0) eqn:Z0.
  - apply Qeq_bool_iff in Z0. apply Qabs_Qle_condition.
    pose proof (two_pow_pos (m - 53)). lra.
  - apply Qeq_bool_neq in Z0.
    pose proof (ulp_bound x m Z0 Hm) as U.
    assert (Up : 0 < ulp x) by apply two_pow_pos.
    pose proof (round_half_even_error (x / ulp x)) as R.
    set (z := inject_Z (round_half_even (x / ulp x))) in *.
    assert (E : z * ulp x - x == (z - x / ulp x) * ulp x) by (field; lra).
    rewrite E, Qabs_Qmult, (Qabs_pos (ulp x)) by lra.
    apply Qle_trans with ((1 # 2) * ulp x); [|lra].
    apply Qmult_le_compat_r; [exact R | lra].
Qed.

Lemma round64_rounds_within (m : Z) : rounds_within round64 (2 ^ m) (2 ^ (m - 53)).
Proof. intros x. apply round64_error. Qed.

Lemma exact_rounds_within (M : Q) : rounds_within (fun x => x) M 0.
Proof.
  intros x _. apply Qabs_Qle_condition. split; lra.
Qed.

Lemma frame_duration_64_value :
  DOME_FRAME_DURATION_64 == 4691249611844267 # 140737488355328.
Proof. vm_compute. reflexivity. Qed.

(** With nothing rounded and the exact frame duration, the pacer with
    parameters is the pacer in exact arithmetic. *)
Lemma pacer_exact_instance (e : Env) (w : World) :
  shouldRenderDomeFrame_with (fun x => x) DOME_FRAME_DURATION e w = shouldRenderDomeFrame e w.
Proof. reflexivity. Qed.

Lemma pacer_signals_exact_instance (times : list Q) :
  forall w : World,
    pacer_signals_with (fun x => x) DOME_FRAME_DURATION w times = pacer_signals w times.
Proof.
  induction times as [| t rest IH]; intros w; [reflexivity|].
  cbn [pacer_signals_with pacer_signals]. rewrite pacer_exact_instance.
  destruct (shouldRenderDomeFrame (mkEnv t 0) w) as [b w1]. rewrite IH. reflexivity.
Qed.

(** ** The pacer with rounded arithmetic *)

Section Rounded.

Variable rnd : Q -> Q.
Variables D M eta : Q.
Hypothesis rnd_close : rounds_within rnd M eta.
Hypothesis eta_small : 2 * eta <= D.
Hypothesis D_pos : 0 < D.
Hypothesis D_below : D <= M.

Lemma rnd_bounds (x : Q) : - M <= x -> x <= M -> x - eta <= rnd x /\ rnd x <= x + eta.
Proof using rnd_close.
  intros H1 H2.
  assert (H : Qabs x <= M) by (apply Qabs_Qle_condition; split; assumption).
  pose proof (rnd_close x H) as R. apply Qabs_Qle_condition in R. split; lra.
Qed.

(** What [%] drops is the number of whole [D] in a non-negative [x]. *)
Lemma trunc_bounds_with (x : Q) :
  0 <= x ->
  let q := Qtrunc (x / D) in
  (0 <= q)%Z /\ inject_Z q * D <= x /\ x < inject_Z (q + 1) * D.
Proof using D_pos.
  intros Hx q.
  assert (Hd : 0 <= x / D).
  { apply Qle_shift_div_l; [exact D_pos | lra]. }
  unfold q. rewrite (Qtrunc_nonneg _ Hd).
  pose proof (Qfloor_le (x / D)) as F1. pose proof (Qlt_floor (x / D)) as F2.
  assert (F0 : (Qfloor 0 <= Qfloor (x / D))%Z) by (apply Qfloor_resp_le; exact Hd).
  set (f := Qfloor (x / D)) in *.
  assert (E : x == x / D * D) by (field; lra).
  split; [exact F0|]. split.
  - apply Qle_trans with (x / D * D);
      [apply Qmult_le_compat_r; [exact F1 | lra] | rewrite <- E; apply Qle_refl].
  - apply Qle_lt_trans with (x / D * D);
      [rewrite <- E; apply Qle_refl | apply Qmult_lt_compat_r; [exact D_pos | exact F2]].
Qed.

Lemma whole_frames (q : Z) (x : Q) :
  D <= x -> inject_Z q * D <= x -> x < inject_Z (q + 1) * D ->
  (1 <= q)%Z /\ D <= inject_Z q * D /\ (x < 2 * D -> q = 1%Z).
Proof using D_pos.
  intros H1 H2 H3.
  assert (Hq : (1 <= q)%Z).
  { destruct (Z_lt_le_dec q 1) as [Hlt | Hle]; [|exact Hle]. exfalso.
    assert (A : inject_Z (q + 1) <= 1)
      by (change 1 with (inject_Z 1); rewrite <- Zle_Qle; lia).
    assert (B : inject_Z (q + 1) * D <= 1 * D)
      by (apply Qmult_le_compat_r; [exact A | lra]).
    lra. }
  assert (Hq' : 1 <= inject_Z q) by (change 1 with (inject_Z 1); rewrite <- Zle_Qle; exact Hq).
  assert (C : 1 * D <= inject_Z q * D) by (apply Qmult_le_compat_r; [exact Hq' | lra]).
  split; [exact Hq|]. split; [lra|].
  intros H4. destruct (Z_lt_le_dec q 2) as [Hlt | Hle]; [lia|]. exfalso.
  assert (A : 2 <= inject_Z q) by (change 2 with (inject_Z 2); rewrite <- Zle_Qle; exact Hle).
  assert (B : 2 * D <= inject_Z q * D) by (apply Qmult_le_compat_r; [exact A | lra]).
  lra.
Qed.

(** The skip branch. *)
Lemma pacer_with_skip (e : Env) (w : World) :
  DOME_MODE (dome w) = true ->
  rnd (now e - lastFrameTime (dome w)) < D ->
  shouldRenderDomeFrame_with rnd D e w = (false, w).
Proof.
  intros Hm Hlt. unfold shouldRenderDomeFrame_with. rewrite Hm; simpl.
  destruct (Qlt_le_dec (rnd (now e - lastFrameTime (dome w))) D) as [_ | Hle];
    [reflexivity | lra].
Qed.

(** The produce branch. *)
Lemma pacer_with_produce (e : Env) (w : World) :
  DOME_MODE (dome w) = true ->
  D <= rnd (now e - lastFrameTime (dome w)) ->
  exists w' : World,
    shouldRenderDomeFrame_with rnd D e w = (true, w') /\
    DOME_MODE (dome w') = true /\
    lastFrameTime (dome w') =
      rnd (now e - js_rem (rnd (now e - lastFrameTime (dome w))) D) /\
    domeFrameCount (dome w') = (domeFrameCount (dome w) + 1)%Z /\
    rec w' = rec w /\ app w' = app w.
Proof.
  intros Hm Hle. unfold shouldRenderDomeFrame_with. rewrite Hm; simpl.
  destruct (Qlt_le_dec (rnd (now e - lastFrameTime (dome w))) D) as [Hlt | _];
    [lra|].
  eexists. split; [reflexivity|].
  destruct (Z.rem (domeFrameCount (dome w) + 1) 30 =? 0)%Z; simpl; auto.
Qed.

(** One produce, in numbers: the time of the last frame moves by whole frame
    durations, give or take the two roundings, and lands within a frame
    duration of the clock. *)
Lemma produce_moves (T L : Q) :
  0 <= T -> T <= M - D -> 0 <= L -> L <= M ->
  D <= rnd (T - L) ->
  let elapsed := rnd (T - L) in
  let q := Qtrunc (elapsed / D) in
  let L' := rnd (T - js_rem elapsed D) in
  (1 <= q)%Z /\
  L + inject_Z q * D - 2 * eta <= L' /\ L' <= L + inject_Z q * D + 2 * eta /\
  L + D - 2 * eta <= L' /\
  L' <= T + eta /\ T - L' < D + eta /\
  (T - L < 2 * D - eta -> q = 1%Z).
Proof using All.
  intros T0 T1 L0' L1 Hge elapsed q L'.
  destruct (rnd_bounds (T - L)) as [E1 E2]; [lra | lra |]. fold elapsed in E1, E2, Hge.
  destruct (trunc_bounds_with elapsed) as (_ & Q1 & Q2); [lra|]. fold q in Q1, Q2.
  destruct (whole_frames q elapsed Hge Q1 Q2) as (Hq & Hq1 & Hq2).
  assert (R : js_rem elapsed D == elapsed - inject_Z q * D) by reflexivity.
  rewrite inject_Z_plus in Q2. change (inject_Z 1) with 1 in Q2.
  destruct (rnd_bounds (T - js_rem elapsed D)) as [F1 F2]; [rewrite R; lra | rewrite R; lra |].
  fold L' in F1, F2. rewrite R in F1, F2.
  split; [exact Hq|]. repeat split; try lra.
  intros H. apply Hq2. lra.
Qed.

Lemma pacer_signals_with_cons (w : World) (t : Q) (rest : list Q) :
  pacer_signals_with rnd D w (t :: rest) =
    (fst (shouldRenderDomeFrame_with rnd D (mkEnv t 0) w)
       :: fst (pacer_signals_with rnd D (snd (shouldRenderDomeFrame_with rnd D (mkEnv t 0) w)) rest),
     snd (pacer_signals_with rnd D (snd (shouldRenderDomeFrame_with rnd D (mkEnv t 0) w)) rest)).
Proof.
  simpl. destruct (shouldRenderDomeFrame_with rnd D (mkEnv t 0) w) as [b w1]. simpl.
  destruct (pacer_signals_with rnd D w1 rest) as [bs w2]. reflexivity.
Qed.

Lemma produced_with_cons (w : World) (t : Q) (rest : list Q) :
  produced_with rnd D w (t :: rest) =
    ((if fst (shouldRenderDomeFrame_with rnd D (mkEnv t 0) w) then 1 else 0)
     + produced_with rnd D (snd (shouldRenderDomeFrame_with rnd D (mkEnv t 0) w)) rest)%Z.
Proof.
  unfold produced_with. rewrite pacer_signals_with_cons. simpl fst.
  destruct (fst (shouldRenderDomeFrame_with rnd D (mkEnv t 0) w)); simpl count_occ; lia.
Qed.

Lemma produced_with_nonneg (w : World) (times : list Q) : (0 <= produced_with rnd D w times)%Z.
Proof. unfold produced_with. lia. Qed.

(** The counter counts the produces. *)
Lemma counted_run_with :
  forall (times : list Q) (w : World),
    DOME_MODE (dome w) = true ->
    domeFrameCount (dome (snd (pacer_signals_with rnd D w times)))
      = (domeFrameCount (dome w) + produced_with rnd D w times)%Z.
Proof.
  induction times as [| t rest IH]; intros w Hm.
  - unfold produced_with; simpl. lia.
  - rewrite produced_with_cons, pacer_signals_with_cons. simpl snd.
    destruct (Qlt_le_dec (rnd (now (mkEnv t 0) - lastFrameTime (dome w))) D) as [Hlt | Hle].
    + rewrite (pacer_with_skip _ w Hm Hlt). simpl fst; simpl snd.
      rewrite (IH w Hm). lia.
    + destruct (pacer_with_produce _ w Hm Hle) as (w1 & E & Hm1 & _ & Hc1 & _).
      rewrite E. simpl fst; simpl snd. rewrite (IH w1 Hm1), Hc1. lia.
Qed.

(** Callbacks at non-decreasing instants: every produce moves the time of
    the last frame forward by a frame duration less the two roundings, and
    that time does not pass the latest callback by more than one rounding. *)
Lemma ascending_run_with (L0 : Q) :
  forall (times : list Q) (w : World) (prev : Q) (k : Z),
    DOME_MODE (dome w) = true ->
    0 <= lastFrameTime (dome w) ->
    lastFrameTime (dome w) <= prev + eta ->
    0 <= prev -> prev <= M - D ->
    L0 + inject_Z k * (D - 2 * eta) <= lastFrameTime (dome w) ->
    times_within (M - D) times = true ->
    ascending prev times = true ->
    let w' := snd (pacer_signals_with rnd D w times) in
    L0 + inject_Z (k + produced_with rnd D w times) * (D - 2 * eta)
      <= lastFrameTime (dome w') /\
    lastFrameTime (dome w') <= last times prev + eta.
Proof using All.
  induction times as [| t rest IH]; intros w prev k Hm HL0 HLp Hp0 Hp1 Hg Hw Ha.
  - simpl. unfold produced_with; simpl. rewrite Z.add_0_r. split; assumption.
  - simpl in Ha. apply andb_prop in Ha as [Ha Harest]. apply Qle_bool_iff in Ha.
    simpl in Hw. apply andb_prop in Hw as [Hw Hwrest]. apply andb_prop in Hw as [Hw0 Hw1].
    apply Qle_bool_iff in Hw0. apply Qle_bool_iff in Hw1.
    rewrite produced_with_cons, pacer_signals_with_cons. simpl snd.
    rewrite last_cons.
    destruct (Qlt_le_dec (rnd (now (mkEnv t 0) - lastFrameTime (dome w))) D) as [Hlt | Hle].
    + rewrite (pacer_with_skip _ w Hm Hlt). simpl fst; simpl snd.
      apply (IH w t k Hm HL0); try assumption; lra.
    + destruct (pacer_with_produce _ w Hm Hle) as (w1 & E & Hm1 & HL1 & _).
      rewrite E. simpl fst; simpl snd. cbn [now] in Hle, HL1.
      destruct (produce_moves t (lastFrameTime (dome w))) as (_ & _ & _ & P3 & P4 & _);
        [lra | lra | lra | lra | exact Hle |].
      rewrite <- HL1 in P3, P4.
      replace (k + (1 + produced_with rnd D w1 rest))%Z
        with (k + 1 + produced_with rnd D w1 rest)%Z by lia.
      apply (IH w1 t (k + 1)%Z Hm1); try assumption; try lra.
      rewrite inject_Z_plus. change (inject_Z 1) with 1. lra.
Qed.

(** Callbacks that never come more than a frame duration, less two
    roundings, apart: every produce moves the time of the last frame by one
    frame duration, give or take the two roundings, and that time stays
    within a frame duration of the latest callback. *)
Lemma paced_run_with (L0 : Q) :
  forall (times : list Q) (w : World) (prev : Q) (k : Z),
    DOME_MODE (dome w) = true ->
    0 <= lastFrameTime (dome w) ->
    lastFrameTime (dome w) <= prev + eta ->
    0 <= prev -> prev <= M - D ->
    prev - lastFrameTime (dome w) < D + eta ->
    (0 <= k)%Z ->
    L0 + inject_Z k * D - inject_Z (2 * k) * eta <= lastFrameTime (dome w) ->
    lastFrameTime (dome w) <= L0 + inject_Z k * D + inject_Z (2 * k) * eta ->
    times_within (M - D) times = true ->
    gaps_within (D - 2 * eta) prev times = true ->
    let w' := snd (pacer_signals_with rnd D w times) in
    let k' := (k + produced_with rnd D w times)%Z in
    L0 + inject_Z k' * D - inject_Z (2 * k') * eta <= lastFrameTime (dome w') /\
    lastFrameTime (dome w') <= L0 + inject_Z k' * D + inject_Z (2 * k') * eta /\
    lastFrameTime (dome w') <= last times prev + eta /\
    last times prev - lastFrameTime (dome w') < D + eta.
Proof using All.
  induction times as [| t rest IH]; intros w prev k Hm HL0 HLp Hp0 Hp1 Hb Hk G1 G2 Hw Hg.
  - simpl. unfold produced_with; simpl. rewrite Z.add_0_r. repeat split; assumption.
  - simpl in Hg. apply andb_prop in Hg as [Hg Hgrest]. apply andb_prop in Hg as [Ha Hb'].
    apply Qle_bool_iff in Ha. apply Qle_bool_iff in Hb'.
    simpl in Hw. apply andb_prop in Hw as [Hw Hwrest]. apply andb_prop in Hw as [Hw0 Hw1].
    apply Qle_bool_iff in Hw0. apply Qle_bool_iff in Hw1.
    rewrite produced_with_cons, pacer_signals_with_cons. simpl snd.
    rewrite last_cons.
    destruct (Qlt_le_dec (rnd (now (mkEnv t 0) - lastFrameTime (dome w))) D) as [Hlt | Hle].
    + rewrite (pacer_with_skip _ w Hm Hlt). simpl fst; simpl snd. cbn [now] in Hlt.
      destruct (rnd_bounds (t - lastFrameTime (dome w))) as [E1 E2]; [lra | lra |].
      apply (IH w t k Hm HL0); try assumption; lra.
    + destruct (pacer_with_produce _ w Hm Hle) as (w1 & E & Hm1 & HL1 & _).
      rewrite E. simpl fst; simpl snd. cbn [now] in Hle, HL1.
      destruct (produce_moves t (lastFrameTime (dome w)))
        as (_ & P1 & P2 & P3 & P4 & P5 & P6); [lra | lra | lra | lra | exact Hle |].
      rewrite (P6 ltac:(lra)) in P1, P2. change (inject_Z 1) with 1 in P1, P2.
      rewrite <- HL1 in P1, P2, P3, P4, P5.
      replace (k + (1 + produced_with rnd D w1 rest))%Z
        with (k + 1 + produced_with rnd D w1 rest)%Z by lia.
      assert (I1 : inject_Z (k + 1) == inject_Z k + 1)
        by (rewrite inject_Z_plus; reflexivity).
      assert (I2 : inject_Z (2 * (k + 1)) == inject_Z (2 * k) + 2)
        by (replace (2 * (k + 1))%Z with (2 * k + 2)%Z by lia;
            rewrite inject_Z_plus; reflexivity).
      apply (IH w1 t (k + 1)%Z Hm1); try assumption; try lra; try lia.
      * rewrite I1, I2. lra.
      * rewrite I1, I2. lra.
Qed.

End Rounded.

Lemma rounds_within_nonneg (rnd : Q -> Q) (M eta : Q) :
  rounds_within rnd M eta -> 0 <= M -> 0 <= eta.
Proof.
  intros H HM.
  assert (H0 : Qabs 0 <= M) by (rewrite Qabs_pos; lra).
  pose proof (H 0 H0) as R. pose proof (Qabs_nonneg (rnd 0 - 0)). lra.
Qed.

(** C3, the claim as stated fails: callbacks that average sixty a second,
    but arrive in bursts 100 ms apart, yield one produce per burst.  Dome
    mode is switched on at 0 ms and the bursts start at 150 ms; over the
    ten seconds to the last callback, at 10055 ms, that is 100 produces,
    on doubles as in exact arithmetic, where [targetFPS] times the window
    is 301. *)
Lemma C3_counterexample_bursts :
  let w := step (initial 1920 1080 1 true (1 # 2)) (mkEnv 0 0, KeyDown "d") in
  let times := bursts 50 100 in
  DOME_MODE (dome w) = true /\
  lastFrameTime (dome w) = 0 /\
  List.length times = 600%nat /\
  ascending 0 times = true /\
  Qeq_bool (last times 0) 10055 = true /\
  produced_with round64 DOME_FRAME_DURATION_64 w times = 100%Z /\
  produced w times = 100%Z /\
  frames_due 0 (last times 0) = 301%Z.
Proof. vm_compute. repeat split. Qed.

(** C3, amended.  On a callback at time [T] in dome mode, with
    [elapsed = T - lastFrameTime] as the subtraction returns it: if
    [elapsed < frameDuration] the pacer signals skip and changes nothing;
    otherwise it signals produce, sets
    [lastFrameTime = T - (elapsed mod frameDuration)] and adds one to the
    frame count.  The arithmetic is a parameter: [rnd] rounds each
    subtraction to within [eta], for times up to [M - D]; doubles do so with
    [eta = 2^(m - 53)] up to [2^m], exact arithmetic with [eta = 0].

    Over callbacks at non-decreasing times after [lastFrameTime], [k]
    produces take [k] frame durations, less two roundings each, out of the
    window.  When moreover no two neighbouring callbacks are more than a
    frame duration, less two roundings, apart, the [k] produces fill the
    window to within one frame duration and [2 k + 1] roundings.  In exact
    arithmetic [k] is then [floor(targetFPS * window seconds)]; on doubles
    it can be one less. *)
Theorem C3_pacer_fixed_rate :
  forall (rnd : Q -> Q) (D M eta : Q) (w : World) (e : Env) (times : list Q),
    DOME_MODE (dome w) = true ->
    rounds_within rnd M eta ->
    2 * eta <= D -> 0 < D -> D <= M ->
    let L0 := lastFrameTime (dome w) in
    let elapsed := rnd (now e - L0) in
    let k := produced_with rnd D w times in
    let T := last times L0 in
    (elapsed < D -> shouldRenderDomeFrame_with rnd D e w = (false, w)) /\
    (D <= elapsed ->
     exists w' : World,
       shouldRenderDomeFrame_with rnd D e w = (true, w') /\
       lastFrameTime (dome w') = rnd (now e - js_rem elapsed D) /\
       domeFrameCount (dome w') = (domeFrameCount (dome w) + 1)%Z) /\
    domeFrameCount (dome (snd (pacer_signals_with rnd D w times)))
      = (domeFrameCount (dome w) + k)%Z /\
    (0 <= L0 -> L0 <= M - D -> times_within (M - D) times = true ->
     (ascending L0 times = true ->
      inject_Z k * (D - 2 * eta) <= T - L0 + eta /\
      (eta == 0 -> D == DOME_FRAME_DURATION -> (k <= frames_due L0 T)%Z)) /\
     (gaps_within (D - 2 * eta) L0 times = true ->
      T - L0 - D - inject_Z (2 * k + 1) * eta < inject_Z k * D /\
      inject_Z k * D <= T - L0 + inject_Z (2 * k + 1) * eta /\
      (eta == 0 -> D == DOME_FRAME_DURATION -> k = frames_due L0 T))).
Proof.
  intros rnd D M eta w e times Hm Hr Hs Hd HM L0 elapsed k T.
  pose proof frame_duration_value as V.
  assert (He : 0 <= eta) by (apply (rounds_within_nonneg rnd M eta Hr); lra).
  assert (Ediv : (T - L0) / 1000 == (T - L0) * (1 # 1000)) by field.
  split; [exact (pacer_with_skip rnd D e w Hm)|].
  split.
  { intros Hle. destruct (pacer_with_produce rnd D e w Hm Hle) as (w' & E & _ & HL & Hc & _).
    exists w'. auto. }
  split; [exact (counted_run_with rnd D times w Hm)|].
  intros H0 H1 Hw. split.
  - intros Ha.
    destruct (ascending_run_with rnd D M eta Hr Hs Hd HM L0 times w L0 0%Z Hm) as [A B];
      [exact H0 | fold L0; lra | exact H0 | exact H1
      | fold L0; change (inject_Z 0) with 0; lra | exact Hw | exact Ha |].
    rewrite Z.add_0_l in A. fold k T in A, B.
    split; [lra|].
    intros E0 ED. rewrite <- (Qfloor_Z k). unfold frames_due. apply Qfloor_resp_le.
    change (inject_Z DOME_TARGET_FPS) with 30. rewrite Ediv.
    assert (KD : inject_Z k * D == inject_Z k * (100 # 3)) by (rewrite ED, V; reflexivity).
    assert (KE : inject_Z k * eta == 0) by (rewrite E0; ring).
    lra.
  - intros Hg.
    destruct (paced_run_with rnd D M eta Hr Hs Hd HM L0 times w L0 0%Z Hm)
      as (A & B & C & F);
      [exact H0 | fold L0; lra | exact H0 | exact H1 | fold L0; lra | lia
      | fold L0; change (inject_Z (2 * 0)) with 0; change (inject_Z 0) with 0; lra
      | fold L0; change (inject_Z (2 * 0)) with 0; change (inject_Z 0) with 0; lra
      | exact Hw | exact Hg |].
    cbv zeta in A, B. rewrite Z.add_0_l in A, B. fold k T in A, B, C, F.
    assert (I : inject_Z (2 * k + 1) == inject_Z (2 * k) + 1)
      by (rewrite inject_Z_plus; reflexivity).
    split; [rewrite I; lra|]. split; [rewrite I; lra|].
    intros E0 ED. symmetry. unfold frames_due.
    assert (KD : inject_Z k * D == inject_Z k * (100 # 3)) by (rewrite ED, V; reflexivity).
    assert (KE : inject_Z (2 * k) * eta == 0) by (rewrite E0; ring).
    assert (DV : D == 100 # 3) by (rewrite ED, V; reflexivity).
    apply Qfloor_unique.
    + change (inject_Z DOME_TARGET_FPS) with 30. rewrite Ediv. lra.
    + change (inject_Z DOME_TARGET_FPS) with 30. rewrite Ediv, inject_Z_plus.
      change (inject_Z 1) with 1. lra.
Qed.

(** The amended C3 on doubles, on the page just switched to dome mode at
    time 0, with callbacks every 20 ms, and times up to [2^33] ms, which
    doubles hold to within [2^-20] ms.  The fifth callback, at 100 ms, finds
    that 33.33333333333333 ms have elapsed, which is less than the frame
    duration on doubles: there are two produces, where exact arithmetic has
    three. *)
Lemma C3_pacer_fixed_rate_witness :
  let w := step (initial 1920 1080 1 true (1 # 2)) (mkEnv 0 0, KeyDown "d") in
  let times := [20; 40; 60; 80; 100] in
  let D := DOME_FRAME_DURATION_64 in
  let eta := 2 ^ (33 - 53) in
  let k := produced_with round64 D w times in
  DOME_MODE (dome w) = true /\
  rounds_within round64 (2 ^ 33) eta /\
  2 * eta <= D /\ 0 < D /\ D <= 2 ^ 33 /\
  times_within (2 ^ 33 - D) times = true /\
  gaps_within (D - 2 * eta) (lastFrameTime (dome w)) times = true /\
  shouldRenderDomeFrame_64 (mkEnv 20 0) w = (false, w) /\
  fst (pacer_signals_with round64 D w times) = [false; true; false; true; false] /\
  k = 2%Z /\
  produced w times = 3%Z /\
  100 - 0 - D - inject_Z (2 * k + 1) * eta < inject_Z k * D /\
  inject_Z k * D <= 100 - 0 + inject_Z (2 * k + 1) * eta.
Proof.
  intros w times D eta k.
  assert (Hm : DOME_MODE (dome w) = true) by reflexivity.
  assert (Hr : rounds_within round64 (2 ^ 33) eta) by exact (round64_rounds_within 33).
  assert (Hs : 2 * eta <= D) by (apply Qle_bool_iff; vm_compute; reflexivity).
  assert (Hd : 0 < D) by (apply Qlt_alt; vm_compute; reflexivity).
  assert (HM : D <= 2 ^ 33) by (apply Qle_bool_iff; vm_compute; reflexivity).
  assert (Hw : times_within (2 ^ 33 - D) times = true) by (vm_compute; reflexivity).
  assert (Hg : gaps_within (D - 2 * eta) (lastFrameTime (dome w)) times = true)
    by (vm_compute; reflexivity).
  destruct (C3_pacer_fixed_rate round64 D (2 ^ 33) eta w (mkEnv 20 0) times Hm Hr Hs Hd HM)
    as (Hskip & _ & _ & Hrun).
  destruct Hrun as [_ Hpaced];
    [apply Qle_bool_iff; vm_compute; reflexivity
    | apply Qle_bool_iff; vm_compute; reflexivity | exact Hw |].
  destruct (Hpaced Hg) as (A & B & _).
  split; [exact Hm|]. split; [exact Hr|]. split; [exact Hs|]. split; [exact Hd|].
  split; [exact HM|]. split; [exact Hw|]. split; [exact Hg|].
  split; [apply Hskip; apply Qlt_alt; vm_compute; reflexivity|].
  split; [vm_compute; reflexivity|]. split; [vm_compute; reflexivity|].
  split; [vm_compute; reflexivity|].
  split; [exact A | exact B].
Defined.

(** Whole frame durations and a rest: what [%] drops and what it keeps. *)
Lemma trunc_decompose (x r : Q) (k : Z) :
  x == inject_Z k * DOME_FRAME_DURATION + r ->
  (0 <= k)%Z -> 0 <= r -> r < DOME_FRAME_DURATION ->
  Qtrunc (x / DOME_FRAME_DURATION) = k /\ js_rem x DOME_FRAME_DURATION == r.
Proof.
  intros Hx Hk H0 H1. pose proof frame_duration_value as V.
  pose proof (div_frame x) as E.
  assert (Hk' : 0 <= inject_Z k) by (change 0 with (inject_Z 0); rewrite <- Zle_Qle; exact Hk).
  assert (Hd : 0 <= x / DOME_FRAME_DURATION) by (rewrite V in Hx; lra).
  assert (Ht : Qtrunc (x / DOME_FRAME_DURATION) = k).
  { rewrite (Qtrunc_nonneg _ Hd). apply Qfloor_unique.
    - rewrite V in Hx, H1. lra.
    - rewrite inject_Z_plus. change (inject_Z 1) with 1. rewrite V in Hx, H1. lra. }
  split; [exact Ht|]. unfold js_rem. rewrite Ht, Hx. ring.
Qed.

(** Bursts again, for any number of them and any phase that leaves room for
    the five late callbacks of a burst: each burst yields one produce. *)
Lemma bursts_one_produce_each :
  forall (n : nat) (w : World) (t r : Q) (k : Z),
    DOME_MODE (dome w) = true ->
    t - lastFrameTime (dome w) == inject_Z k * DOME_FRAME_DURATION + r ->
    (0 <= k)%Z -> 0 <= r -> r + 5 < DOME_FRAME_DURATION ->
    produced w (bursts t n) = Z.of_nat n.
Proof.
  induction n as [| n IH]; intros w t r k Hm HL Hk H0 H5; [reflexivity|].
  pose proof frame_duration_value as V.
  change (bursts t (S n))
    with ((t + 100) :: (t + 100 + 1) :: (t + 100 + 2) :: (t + 100 + 3)
            :: (t + 100 + 4) :: (t + 100 + 5) :: bursts (t + 100) n).
  rewrite produced_cons.
  assert (Hk' : 0 <= inject_Z k) by (change 0 with (inject_Z 0); rewrite <- Zle_Qle; exact Hk).
  assert (Hx : t + 100 - lastFrameTime (dome w)
               == inject_Z (k + 3) * DOME_FRAME_DURATION + r).
  { rewrite inject_Z_plus. change (inject_Z 3) with 3. rewrite V in HL |- *. lra. }
  assert (Hle : DOME_FRAME_DURATION <= now (mkEnv (t + 100) 0) - lastFrameTime (dome w)).
  { cbn [now]. rewrite V in HL |- *. lra. }
  destruct (pacer_produce _ w Hm Hle) as (w1 & E & Hm1 & HL1 & _).
  rewrite E. simpl fst; simpl snd. cbn [now] in HL1.
  destruct (trunc_decompose _ r (k + 3) Hx) as [_ Hrem]; [lia | exact H0 | lra |].
  assert (HL1' : t + 100 - lastFrameTime (dome w1) == inject_Z 0 * DOME_FRAME_DURATION + r).
  { rewrite HL1, Hrem. change (inject_Z 0) with 0. ring. }
  assert (Hskip : forall c : Q, 0 < c -> c <= 5 ->
            shouldRenderDomeFrame (mkEnv (t + 100 + c) 0) w1 = (false, w1)).
  { intros c Hc0 Hc5. apply pacer_skip; [exact Hm1|]. cbn [now].
    change (inject_Z 0) with 0 in HL1'. rewrite V in H5 |- *. lra. }
  rewrite !produced_cons, !Hskip by lra. simpl fst; simpl snd.
  rewrite (IH w1 (t + 100) r 0%Z Hm1 HL1'); [lia | lia | exact H0 | exact H5].
Qed.

(** C4, the claim as stated fails: dome mode switched on, off, and on again
    at 1000 ms; the first callback afterwards, at 1010 ms, signals skip. *)
Lemma C4_counterexample_first_callback_skips :
  let w := run (initial 1920 1080 1 true (1 # 2))
               [ (mkEnv 0 0, KeyDown "d"); (mkEnv 500 0, KeyDown "d");
                 (mkEnv 1000 0, KeyDown "d") ] in
  DOME_MODE (dome w) = true /\
  fst (shouldRenderDomeFrame (mkEnv 1010 0) w) = false /\
  domeFrameCount (dome (step w (mkEnv 1010 0, AnimationFrame))) = 0%Z.
Proof. vm_compute. repeat split. Qed.

(** C4, amended.  The [d] key switches dome mode and, either way, sets
    [lastFrameTime] to the current time and the frame count to 0.  After a
    switch to on at time [T0], the first callback signals produce when at
    least [frameDuration] has passed since [T0], and skip when less has. *)
Theorem C4_toggle_resets_pacer :
  forall (w : World) (e e' : Env) (key : string),
    key = "d" \/ key = "D" ->
    let w' := step w (e, KeyDown key) in
    DOME_MODE (dome w') = negb (DOME_MODE (dome w)) /\
    lastFrameTime (dome w') = now e /\
    domeFrameCount (dome w') = 0%Z /\
    (DOME_MODE (dome w) = false ->
     (now e' - now e < DOME_FRAME_DURATION ->
      fst (shouldRenderDomeFrame e' w') = false) /\
     (DOME_FRAME_DURATION <= now e' - now e ->
      fst (shouldRenderDomeFrame e' w') = true)).
Proof.
  intros w e e' key Hkey w'.
  assert (Hreset : DOME_MODE (dome w') = negb (DOME_MODE (dome w)) /\
                   lastFrameTime (dome w') = now e /\ domeFrameCount (dome w') = 0%Z).
  { unfold w'. destruct Hkey as [-> | ->];
      destruct w as [[m c l n f] r a h]; destruct m, c; cbn; auto. }
  destruct Hreset as (Hm & HL & Hc).
  split; [exact Hm|]. split; [exact HL|]. split; [exact Hc|].
  intros Hoff.
  assert (Hon : DOME_MODE (dome w') = true) by (rewrite Hm, Hoff; reflexivity).
  split.
  - intros Hlt. rewrite pacer_skip; [reflexivity | exact Hon | rewrite HL; exact Hlt].
  - intros Hle.
    destruct (pacer_produce e' w') as (w2 & E & _); [exact Hon | rewrite HL; exact Hle |].
    rewrite E. reflexivity.
Qed.

Lemma C4_toggle_resets_pacer_witness :
  let w := initial 1920 1080 1 true (1 # 2) in
  let w' := step w (mkEnv 1000 0, KeyDown "d") in
  DOME_MODE (dome w) = false /\
  lastFrameTime (dome w') = 1000 /\ domeFrameCount (dome w') = 0%Z /\
  fst (shouldRenderDomeFrame (mkEnv 1010 0) w') = false /\
  fst (shouldRenderDomeFrame (mkEnv 1040 0) w') = true.
Proof.
  intros w w'.
  pose proof (C4_toggle_resets_pacer w (mkEnv 1000 0) (mkEnv 1010 0) "d" (or_introl eq_refl))
    as (_ & HL & Hc & H1).
  pose proof (C4_toggle_resets_pacer w (mkEnv 1000 0) (mkEnv 1040 0) "d" (or_introl eq_refl))
    as (_ & _ & _ & H2).
  split; [reflexivity|]. split; [exact HL|]. split; [exact Hc|].
  split.
  - apply (proj1 (H1 eq_refl)). reflexivity.
  - apply (proj2 (H2 eq_refl)). unfold Qle; simpl; lia.
Defined.

End PacerTheorems.

(* ====================================================================== *)
(** * Part VIII.  Theorems: the simulation clock *)
(* ====================================================================== *)

Section ClockTheorems.

Local Open Scope Q_scope.






End ClockTheorems.

(* ====================================================================== *)
(** * Part IX.  Theorems: the frame counter and the recording session *)
(* ====================================================================== *)

Section SessionTheorems.

Lemma inert_refl (w : World) : inert w w.
Proof. repeat split. Qed.

Lemma inert_trans (w1 w2 w3 : World) : inert w1 w2 -> inert w2 w3 -> inert w1 w3.
Proof.
  unfold inert, video_inert. intros (A & B & C & D) (A' & B' & C' & D').
  repeat split; congruence.
Qed.

Lemma video_inert_trans (w1 w2 w3 : World) :
  video_inert w1 w2 -> video_inert w2 w3 -> video_inert w1 w3.
Proof.
  unfold video_inert. intros (B & C & D) (B' & C' & D'). repeat split; congruence.
Qed.

Lemma inert_video (w w' : World) : inert w w' -> video_inert w w'.
Proof. intros [_ H]. exact H. Qed.

(** What the operations outside the recorder leave alone. *)

Lemma console_logs_inert (l : list string) (w : World) :
  inert w (fold_left (fun w s => console_log s w) l w).
Proof.
  revert w. induction l as [| s l IH]; intros w; [apply inert_refl|].
  cbn [fold_left]. eapply inert_trans; [|apply IH]. repeat split.
Qed.

Lemma exportDomeFrame_inert (w : World) : inert w (exportDomeFrame w).
Proof. unfold exportDomeFrame. break_world w. split_ifs; repeat split. Qed.

Lemma renderDomeFrameHighRes_inert (w : World) : inert w (snd (renderDomeFrameHighRes w)).
Proof. unfold renderDomeFrameHighRes. break_world w. split_ifs; repeat split. Qed.

Lemma renderDome_inert (w : World) : inert w (renderDome w).
Proof. unfold renderDome. break_world w. split_ifs; repeat split. Qed.

Lemma exportSingleFrame_inert (e : Env) (w : World) : inert w (exportSingleFrame e w).
Proof. unfold exportSingleFrame. break_world w. split_ifs; repeat split. Qed.

Lemma startImageSequence_inert (w : World) : inert w (startImageSequence w).
Proof. unfold startImageSequence. break_world w. repeat split. Qed.

Lemma captureImageSequenceFrame_inert (w : World) : inert w (captureImageSequenceFrame w).
Proof. unfold captureImageSequenceFrame. break_world w. split_ifs; repeat split. Qed.

Lemma schedule_downloads_inert (t : Q) (frames : list Payload) :
  forall (index : nat) (w : World), inert w (schedule_downloads t index frames w).
Proof.
  induction frames as [| f frames IH]; intros index w; [apply inert_refl|].
  cbn [schedule_downloads]. eapply inert_trans; [|apply IH]. repeat split.
Qed.

Lemma stopImageSequence_inert (e : Env) (w : World) : inert w (stopImageSequence e w).
Proof.
  unfold stopImageSequence.
  eapply inert_trans; [|repeat split].
  eapply inert_trans; [|repeat split].
  eapply inert_trans; [|apply schedule_downloads_inert].
  eapply inert_trans; [|apply console_logs_inert]. repeat split.
Qed.

Lemma toggleImageSequence_inert (e : Env) (w : World) : inert w (toggleImageSequence e w).
Proof.
  unfold toggleImageSequence. destruct (imageSequenceMode (rec w));
    [apply stopImageSequence_inert | apply startImageSequence_inert].
Qed.

Lemma fireTimer_inert (w : World) : inert w (fireTimer w).
Proof.
  unfold fireTimer. destruct (pick_earliest (timers (host w))) as [[t rest] |]; repeat split.
Qed.

Lemma deliverData_inert (id : nat) (data : Chunk) (w : World) : inert w (deliverData id data w).
Proof.
  unfold deliverData, ondataavailable.
  destruct (enc_state_of id w) as [[| | |] |]; try apply inert_refl;
    destruct (0 <? Datatypes.length data)%nat; repeat split.
Qed.

Lemma onWindowResize_inert (wd ht : Z) (w : World) : inert w (onWindowResize (set_inner wd ht w)).
Proof. repeat split. Qed.

Lemma render_inert (e : Env) (w : World) : inert w (render e w).
Proof.
  unfold render, render_delta, clock_getDelta, isDomeMode, renderDome, isImageSequenceMode,
    captureImageSequenceFrame.
  break_world w. split_ifs; repeat split.
Qed.

Lemma shouldRenderDomeFrame_video_inert (e : Env) (w : World) :
  video_inert w (snd (shouldRenderDomeFrame e w)) /\
  (domeFrameCount (dome w) <= domeFrameCount (dome (snd (shouldRenderDomeFrame e w))))%Z.
Proof.
  unfold shouldRenderDomeFrame. break_world w. split_ifs; repeat split; lia.
Qed.

Lemma animate_video_inert (e : Env) (w : World) :
  video_inert w (animate e w) /\
  (domeFrameCount (dome w) <= domeFrameCount (dome (animate e w)))%Z.
Proof.
  unfold animate.
  destruct (isDomeMode w); [|split; [apply inert_video, render_inert | rewrite (proj1 (render_inert e w)); lia]].
  pose proof (shouldRenderDomeFrame_video_inert e w) as [Hv Hc].
  destruct (shouldRenderDomeFrame e w) as [b w1]. cbn [snd] in *.
  destruct b; cbn [negb]; [|split; assumption].
  pose proof (render_inert e w1) as [Hc1 Hv1].
  split; [eapply video_inert_trans; eassumption | rewrite Hc1; exact Hc].
Qed.

Lemma setupDomeProjection_inert (w : World) : inert w (setupDomeProjection w).
Proof.
  unfold setupDomeProjection. eapply inert_trans; [|apply console_logs_inert]. repeat split.
Qed.

Lemma domeKey_d_video_inert (e : Env) (key : string) (w : World) :
  video_inert w (domeKey_d e key w).
Proof.
  unfold domeKey_d. destruct (key_is key "d" "D"); [|repeat split].
  cbv zeta.
  set (w2 := console_log _ (set_DOME_MODE _ w)).
  assert (H2 : video_inert w w2) by (repeat split).
  destruct (DOME_MODE (dome w2) && negb (cubeCamera (dome w2))).
  - apply video_inert_trans with w2; [exact H2|].
    apply video_inert_trans with (setupDomeProjection w2);
      [apply inert_video, setupDomeProjection_inert |].
    generalize (setupDomeProjection w2). intros w3. repeat split.
  - apply video_inert_trans with w2; [exact H2|].
    generalize w2. intros w3. repeat split.
Qed.

Lemma domeKey_d_other (e : Env) (key : string) (w : World) :
  key_is key "d" "D" = false -> domeKey_d e key w = w.
Proof. intros H. unfold domeKey_d. rewrite H. reflexivity. Qed.

Lemma domeKey_f_inert (key : string) (w : World) : inert w (domeKey_f key w).
Proof. unfold domeKey_f. break_world w. split_ifs; repeat split. Qed.

Lemma domeKey_e_inert (key : string) (w : World) : inert w (domeKey_e key w).
Proof.
  unfold domeKey_e. destruct (key_is key "e" "E" && DOME_MODE (dome w));
    [apply exportDomeFrame_inert | apply inert_refl].
Qed.

Lemma domeKeydown_video_inert (e : Env) (key : string) (w : World) :
  video_inert w (domeKeydown e key w).
Proof.
  unfold domeKeydown.
  eapply video_inert_trans; [apply domeKey_d_video_inert|].
  eapply video_inert_trans; apply inert_video; [apply domeKey_f_inert | apply domeKey_e_inert].
Qed.

Lemma domeKeydown_inert (e : Env) (key : string) (w : World) :
  key_is key "d" "D" = false -> inert w (domeKeydown e key w).
Proof.
  intros H. unfold domeKeydown. rewrite (domeKey_d_other e key w H).
  eapply inert_trans; [apply domeKey_f_inert | apply domeKey_e_inert].
Qed.

(** ** Lists of encoders *)

Lemma nth_error_app_last {A : Type} (l : list A) (x : A) :
  nth_error (l ++ [x])%list (List.length l) = Some x.
Proof. induction l as [| y l IH]; [reflexivity | exact IH]. Qed.

Lemma update_nth_app_last {A : Type} (f : A -> A) (l : list A) (x : A) :
  update_nth (List.length l) f (l ++ [x])%list = (l ++ [f x])%list.
Proof. induction l as [| y l IH]; [reflexivity | cbn; rewrite IH; reflexivity]. Qed.

Lemma nth_update_same {A : Type} (f : A -> A) (l : list A) (n : nat) :
  nth_error (update_nth n f l) n = option_map f (nth_error l n).
Proof.
  revert n. induction l as [| y l IH]; intros [| n]; cbn; auto.
Qed.

Lemma nth_update_other {A : Type} (f : A -> A) (l : list A) (n m : nat) :
  n <> m -> nth_error (update_nth n f l) m = nth_error l m.
Proof.
  revert n m. induction l as [| y l IH]; intros [| n] [| m] H; cbn; auto; try congruence.
Qed.

Lemma count_recording_app (l : list Encoder) (x : Encoder) :
  count_recording (l ++ [x])%list
    = (count_recording l + (if is_recording_enc x then 1 else 0))%nat.
Proof.
  unfold count_recording. rewrite filter_app, length_app. cbn.
  destruct (is_recording_enc x); reflexivity.
Qed.

Lemma count_recording_update (f : Encoder -> Encoder) (l : list Encoder) (n : nat) (en : Encoder) :
  nth_error l n = Some en ->
  (count_recording (update_nth n f l) + (if is_recording_enc en then 1 else 0)
   = count_recording l + (if is_recording_enc (f en) then 1 else 0))%nat.
Proof.
  unfold count_recording.
  revert n. induction l as [| y l IH]; intros [| n] H; cbn in *; try discriminate.
  - injection H as ->. destruct (is_recording_enc en), (is_recording_enc (f en)); cbn; lia.
  - specialize (IH n H). destruct (is_recording_enc y); cbn; lia.
Qed.

(** ** The recorder *)

(** A recording that starts: one new encoder, recording; the frame counter
    at 0; no chunks; the renderer at the recording size. *)
Lemma startRecording_effect (w : World) :
  isRecording (rec w) = false ->
  let w' := startRecording w in
  domeFrameCount (dome w') = 0%Z /\
  isRecording (rec w') = true /\
  mediaRecorder (rec w') = Some (List.length (encoders (host w))) /\
  recordedChunks (rec w') = [] /\
  rendererSize (host w') = (RECORDING_RESOLUTION, RECORDING_RESOLUTION) /\
  downloads (host w') = downloads (host w) /\
  exists c : Codec,
    encoders (host w') = (encoders (host w) ++ [mkEncoder c DOME_TARGET_FPS EncRecording])%list.
Proof.
  break_world w. cbn. intros ->.
  unfold startRecording. cbn.
  match goal with |- context [if ?v then _ else _] => destruct v end;
    cbn; unfold MediaRecorder_start, enc_state_of, set_enc_state; cbn;
    rewrite nth_error_app_last; cbn; rewrite update_nth_app_last; cbn;
    repeat split; eexists; reflexivity.
Qed.

(** A recording that stops: its encoder stops taking frames, and nothing is
    downloaded or resized yet. *)
Lemma stopRecording_effect (w : World) (id : nat) :
  isRecording (rec w) = true ->
  mediaRecorder (rec w) = Some id ->
  let w' := stopRecording w in
  dome w' = dome w /\
  isRecording (rec w') = false /\
  mediaRecorder (rec w') = Some id /\
  recordedChunks (rec w') = recordedChunks (rec w) /\
  rendererSize (host w') = rendererSize (host w) /\
  downloads (host w') = downloads (host w) /\
  encoders (host w') =
    match enc_state_of id w with
    | Some EncRecording =>
        update_nth id (fun en => mkEncoder (enc_codec en) (enc_fps en) EncStopping)
                   (encoders (host w))
    | _ => encoders (host w)
    end.
Proof.
  break_world w. cbn. intros -> ->.
  unfold stopRecording, MediaRecorder_stop. cbn.
  unfold enc_state_of; cbn.
  match goal with
  | |- context [nth_error ?l id] =>
      destruct (option_map enc_state (nth_error l id)) as [[| | |] |]
  end; cbn; repeat split.
Qed.

(** The [stop] event of an encoder. *)
Lemma deliverStop_effect (e : Env) (id : nat) (w : World) :
  let w' := deliverStop e id w in
  dome w' = dome w /\ rec w' = rec w /\
  encoders (host w') =
    match enc_state_of id w with
    | Some EncStopping =>
        update_nth id (fun en => mkEncoder (enc_codec en) (enc_fps en) EncStopped)
                   (encoders (host w))
    | _ => encoders (host w)
    end.
Proof.
  break_world w. unfold deliverStop, enc_state_of. cbn.
  match goal with
  | |- context [nth_error ?l id] =>
      destruct (option_map enc_state (nth_error l id)) as [[| | |] |]
  end; cbn; repeat split.
Qed.

Lemma startRecording_again (w : World) :
  isRecording (rec w) = true -> startRecording w = w.
Proof. intros H. unfold startRecording. rewrite H. reflexivity. Qed.

Lemma stopRecording_idle (w : World) :
  isRecording (rec w) = false \/ mediaRecorder (rec w) = None -> stopRecording w = w.
Proof.
  intros [H | H]; unfold stopRecording; rewrite H;
    [reflexivity | destruct (isRecording (rec w)); reflexivity].
Qed.

Lemma stopRecording_dome (w : World) : dome (stopRecording w) = dome w.
Proof.
  destruct (isRecording (rec w)) eqn:Hr; [|rewrite stopRecording_idle; auto].
  destruct (mediaRecorder (rec w)) as [id |] eqn:Hm; [|rewrite stopRecording_idle; auto].
  exact (proj1 (stopRecording_effect w id Hr Hm)).
Qed.

(** ** The frame counter, operation by operation *)

Lemma counter_step_inert (w w' : World) : inert w w' -> counter_step w w'.
Proof. intros [H _]. left. rewrite H. lia. Qed.

Lemma counter_step_then_inert (w w1 w2 : World) :
  counter_step w w1 -> inert w1 w2 -> counter_step w w2.
Proof.
  intros [H | (H0 & Ha & Hb)] (Hc & Hr & _); [left | right]; rewrite Hc; auto.
  rewrite Hr. auto.
Qed.

Lemma inert_then_counter_step (w w1 w2 : World) :
  inert w w1 -> counter_step w1 w2 -> counter_step w w2.
Proof.
  intros (Hc & Hr & _) [H | (H0 & Ha & Hb)]; [left | right]; rewrite <- ?Hc, <- ?Hr; auto.
Qed.

Lemma startRecording_counter_step (w : World) : counter_step w (startRecording w).
Proof.
  destruct (isRecording (rec w)) eqn:Hr.
  - rewrite startRecording_again by exact Hr. left. lia.
  - destruct (startRecording_effect w Hr) as (H0 & H1 & _). right. auto.
Qed.

Lemma stopRecording_counter_step (w : World) : counter_step w (stopRecording w).
Proof. left. rewrite stopRecording_dome. lia. Qed.

Lemma toggleRecording_counter_step (w : World) : counter_step w (toggleRecording w).
Proof.
  unfold toggleRecording. destruct (isRecording (rec w));
    [apply stopRecording_counter_step | apply startRecording_counter_step].
Qed.

Lemma recordingKey_r_counter_step (key : string) (w : World) :
  counter_step w (recordingKey_r key w).
Proof.
  unfold recordingKey_r. destruct (key_is key "r" "R"); [|left; lia].
  destruct (isDomeMode w); [apply toggleRecording_counter_step|].
  apply counter_step_inert. repeat split.
Qed.

Lemma recordingKey_i_inert (e : Env) (key : string) (w : World) :
  inert w (recordingKey_i e key w).
Proof.
  unfold recordingKey_i. destruct (key_is key "i" "I"); [|apply inert_refl].
  destruct (isDomeMode w); [apply exportSingleFrame_inert | repeat split].
Qed.

Lemma recordingKey_s_inert (e : Env) (key : string) (w : World) :
  inert w (recordingKey_s e key w).
Proof.
  unfold recordingKey_s. destruct (key_is key "s" "S"); [|apply inert_refl].
  destruct (isDomeMode w); [apply toggleImageSequence_inert | repeat split].
Qed.

Lemma recordingKeydown_counter_step (e : Env) (key : string) (w : World) :
  counter_step w (recordingKeydown e key w).
Proof.
  unfold recordingKeydown.
  eapply counter_step_then_inert; [|apply recordingKey_s_inert].
  eapply counter_step_then_inert; [|apply recordingKey_i_inert].
  apply recordingKey_r_counter_step.
Qed.

Lemma key_is_cases (key lower upper : string) :
  key_is key lower upper = true -> key = lower \/ key = upper.
Proof.
  unfold key_is. intros H. apply orb_prop in H as [H | H]; apply String.eqb_eq in H; auto.
Qed.

Lemma key_d_resets (e : Env) (w : World) (key : string) :
  key = "d" \/ key = "D" ->
  DOME_MODE (dome (step w (e, KeyDown key))) = negb (DOME_MODE (dome w)) /\
  lastFrameTime (dome (step w (e, KeyDown key))) = now e /\
  domeFrameCount (dome (step w (e, KeyDown key))) = 0%Z.
Proof.
  intros [-> | ->]; destruct w as [[m c l n f] r a h]; destruct m, c; cbn; auto.
Qed.

(** C6, the claim as stated fails: with dome mode on and two frames
    counted, the [r] key starts a recording and the counter is back at 0,
    in the middle of the activation. *)
Lemma C6_counterexample_recording_resets :
  let w := run (initial 1920 1080 1 true (1 # 2))
               [ (mkEnv 0 0, KeyDown "d"); (mkEnv 40 0, AnimationFrame);
                 (mkEnv 80 0, AnimationFrame) ] in
  let w' := step w (mkEnv 90 0, KeyDown "r") in
  DOME_MODE (dome w) = true /\ domeFrameCount (dome w) = 2%Z /\
  DOME_MODE (dome w') = true /\ domeFrameCount (dome w') = 0%Z.
Proof. vm_compute. repeat split. Qed.

(** C6, amended.  Whatever happens to the page, the frame counter does not
    decrease, except that it is set to 0 by the [d] key (switching dome mode
    on or off), by a recording that starts, and by [resetDomeFrameCount]
    itself. *)
Theorem C6_counter_monotone_between_resets :
  forall (w : World) (e : Env) (x : Event),
    let w' := step w (e, x) in
    (domeFrameCount (dome w) <= domeFrameCount (dome w'))%Z \/
    (domeFrameCount (dome w') = 0%Z /\ resets_counter x w w').
Proof.
  intros w e x w'.
  assert (Hcs : forall v, counter_step w v ->
            (domeFrameCount (dome w) <= domeFrameCount (dome v))%Z \/
            (domeFrameCount (dome v) = 0%Z /\ resets_counter x w v)).
  { intros v [H | (H0 & Ha & Hb)]; [left; exact H | right].
    split; [exact H0|]. unfold resets_counter. auto. }
  destruct x as [key | | wd ht | id data | id | | c]; unfold w'; cbn [step].
  - destruct (key_is key "d" "D") eqn:Hk.
    + right. apply key_is_cases in Hk.
      split; [exact (proj2 (proj2 (key_d_resets e w key Hk)))|].
      unfold resets_counter. destruct Hk as [-> | ->]; auto.
    + apply Hcs. eapply inert_then_counter_step;
        [apply domeKeydown_inert; exact Hk | apply recordingKeydown_counter_step].
  - left. exact (proj2 (animate_video_inert e w)).
  - apply Hcs, counter_step_inert, onWindowResize_inert.
  - apply Hcs, counter_step_inert, deliverData_inert.
  - left. rewrite (proj1 (deliverStop_effect e id w)). lia.
  - apply Hcs, counter_step_inert, fireTimer_inert.
  - destruct c; cbn [invoke].
    + apply Hcs, startRecording_counter_step.
    + apply Hcs, stopRecording_counter_step.
    + apply Hcs, toggleRecording_counter_step.
    + apply Hcs, counter_step_inert, exportSingleFrame_inert.
    + apply Hcs, counter_step_inert, startImageSequence_inert.
    + apply Hcs, counter_step_inert, stopImageSequence_inert.
    + apply Hcs, counter_step_inert, toggleImageSequence_inert.
    + apply Hcs, counter_step_inert, captureImageSequenceFrame_inert.
    + apply Hcs, counter_step_inert, exportDomeFrame_inert.
    + apply Hcs, counter_step_inert, renderDomeFrameHighRes_inert.
    + left. exact (proj2 (shouldRenderDomeFrame_video_inert e w)).
    + apply Hcs, counter_step_inert, renderDome_inert.
    + left. cbn. lia.
    + right. split; [reflexivity|]. unfold resets_counter. auto.
Qed.

(** ** At most one recording encoder *)

Lemma sessions_ok_video_inert (w w' : World) :
  video_inert w w' -> sessions_ok w -> sessions_ok w'.
Proof.
  unfold video_inert, sessions_ok, recording_sessions, enc_state_of.
  intros (Hr & Hm & He) [Hc Hx]. rewrite Hr, Hm, He. auto.
Qed.

Lemma enc_state_of_Some (id : nat) (w : World) (st : EncState) :
  enc_state_of id w = Some st ->
  exists en : Encoder, nth_error (encoders (host w)) id = Some en /\ enc_state en = st.
Proof.
  unfold enc_state_of. destruct (nth_error (encoders (host w)) id) as [en |]; cbn;
    [|discriminate].
  intros H. injection H as <-. eauto.
Qed.

Lemma sessions_ok_startRecording (w : World) : sessions_ok w -> sessions_ok (startRecording w).
Proof.
  intros Hok. destruct (isRecording (rec w)) eqn:Hr.
  - rewrite startRecording_again by exact Hr. exact Hok.
  - destruct (startRecording_effect w Hr) as (_ & H1 & H2 & _ & _ & _ & c & He).
    destruct Hok as [Hc _]. rewrite Hr in Hc.
    unfold sessions_ok, recording_sessions, enc_state_of in *.
    rewrite H1, H2, He, count_recording_app, Hc. split; [reflexivity|].
    intros _. eexists. split; [reflexivity|]. rewrite nth_error_app_last. reflexivity.
Qed.

Lemma sessions_ok_stopRecording (w : World) : sessions_ok w -> sessions_ok (stopRecording w).
Proof.
  intros Hok. destruct (isRecording (rec w)) eqn:Hr;
    [|rewrite stopRecording_idle; auto].
  destruct Hok as [Hc Hx]. rewrite Hr in Hc.
  destruct (Hx Hr) as (id & Hm & Hs).
  destruct (stopRecording_effect w id Hr Hm) as (_ & H1 & _ & _ & _ & _ & He).
  rewrite Hs in He. destruct (enc_state_of_Some id w _ Hs) as (en & Hn & Hst).
  unfold sessions_ok, recording_sessions in *. rewrite H1, He.
  split; [|discriminate].
  pose proof (count_recording_update
                (fun en => mkEncoder (enc_codec en) (enc_fps en) EncStopping)
                (encoders (host w)) id en Hn) as Hu.
  unfold is_recording_enc in Hu at 1 2. rewrite Hst in Hu. cbn in Hu. lia.
Qed.

Lemma sessions_ok_toggleRecording (w : World) : sessions_ok w -> sessions_ok (toggleRecording w).
Proof.
  unfold toggleRecording. destruct (isRecording (rec w));
    [apply sessions_ok_stopRecording | apply sessions_ok_startRecording].
Qed.

Lemma sessions_ok_deliverStop (e : Env) (id : nat) (w : World) :
  sessions_ok w -> sessions_ok (deliverStop e id w).
Proof.
  intros Hok. destruct (deliverStop_effect e id w) as (_ & Hr & He).
  assert (Hv : encoders (host (deliverStop e id w)) = encoders (host w) ->
               sessions_ok (deliverStop e id w)).
  { intros He'. apply (sessions_ok_video_inert w); [|exact Hok].
    unfold video_inert. rewrite Hr, He'. auto. }
  destruct (enc_state_of id w) as [[| | |] |] eqn:Hs; try (apply Hv; exact He).
  clear Hv. destruct Hok as [Hc Hx].
  destruct (enc_state_of_Some id w _ Hs) as (en & Hn & Hst).
  unfold sessions_ok, recording_sessions, enc_state_of in *. rewrite Hr, He.
  split.
  - pose proof (count_recording_update
                  (fun en => mkEncoder (enc_codec en) (enc_fps en) EncStopped)
                  (encoders (host w)) id en Hn) as Hu.
    unfold is_recording_enc in Hu at 1 2. rewrite Hst in Hu. cbn in Hu. lia.
  - intros H. destruct (Hx H) as (id0 & Hm & Hs0). exists id0. split; [exact Hm|].
    rewrite nth_update_other; [exact Hs0|].
    intros ->. rewrite Hn in Hs0. cbn in Hs0. congruence.
Qed.

Lemma sessions_ok_recordingKeydown (e : Env) (key : string) (w : World) :
  sessions_ok w -> sessions_ok (recordingKeydown e key w).
Proof.
  intros Hok. unfold recordingKeydown.
  eapply sessions_ok_video_inert; [apply inert_video, recordingKey_s_inert|].
  eapply sessions_ok_video_inert; [apply inert_video, recordingKey_i_inert|].
  unfold recordingKey_r. destruct (key_is key "r" "R"); [|exact Hok].
  destruct (isDomeMode w); [apply sessions_ok_toggleRecording; exact Hok|].
  eapply sessions_ok_video_inert; [|exact Hok]. repeat split.
Qed.

Lemma sessions_ok_step (w : World) (ev : Env * Event) :
  sessions_ok w -> sessions_ok (step w ev).
Proof.
  intros Hok. destruct ev as [e x].
  destruct x as [key | | wd ht | id data | id | | c]; cbn [step].
  - apply sessions_ok_recordingKeydown.
    eapply sessions_ok_video_inert; [apply domeKeydown_video_inert | exact Hok].
  - eapply sessions_ok_video_inert; [apply animate_video_inert | exact Hok].
  - eapply sessions_ok_video_inert; [apply inert_video, onWindowResize_inert | exact Hok].
  - eapply sessions_ok_video_inert; [apply inert_video, deliverData_inert | exact Hok].
  - apply sessions_ok_deliverStop; exact Hok.
  - eapply sessions_ok_video_inert; [apply inert_video, fireTimer_inert | exact Hok].
  - destruct c; cbn [invoke];
      try (apply sessions_ok_startRecording; exact Hok);
      try (apply sessions_ok_stopRecording; exact Hok);
      try (apply sessions_ok_toggleRecording; exact Hok);
      (eapply sessions_ok_video_inert; [|exact Hok]).
    + apply inert_video, exportSingleFrame_inert.
    + apply inert_video, startImageSequence_inert.
    + apply inert_video, stopImageSequence_inert.
    + apply inert_video, toggleImageSequence_inert.
    + apply inert_video, captureImageSequenceFrame_inert.
    + apply inert_video, exportDomeFrame_inert.
    + apply inert_video, renderDomeFrameHighRes_inert.
    + apply shouldRenderDomeFrame_video_inert.
    + apply inert_video, renderDome_inert.
    + repeat split.
    + repeat split.
Qed.

Lemma sessions_ok_run (evs : list (Env * Event)) :
  forall w : World, sessions_ok w -> sessions_ok (run w evs).
Proof.
  induction evs as [| ev evs IH]; intros w Hok; [exact Hok|].
  cbn [run fold_left]. apply (IH (step w ev)), sessions_ok_step, Hok.
Qed.

Lemma sessions_ok_initial (wd ht : Z) (ratio : Q) (vp9 : bool) (speed0 : Q) :
  sessions_ok (initial wd ht ratio vp9 speed0).
Proof. split; [reflexivity | discriminate]. Qed.

(** [startRecording] while a recording is in progress returns at once: the
    world is unchanged (no new encoder, the chunks kept, the renderer not
    resized); [stopRecording] while nothing is being recorded likewise.  So
    in every state the page can reach, at most one encoder is in the
    recording state, and one is exactly when the recorder says it is
    recording. *)
Lemma recorder_reentrancy_noops :
  forall (w : World) (wd ht : Z) (ratio : Q) (vp9 : bool) (speed0 : Q)
         (evs : list (Env * Event)),
    (isRecording (rec w) = true -> startRecording w = w) /\
    (isRecording (rec w) = false \/ mediaRecorder (rec w) = None -> stopRecording w = w) /\
    let w' := run (initial wd ht ratio vp9 speed0) evs in
    (recording_sessions w' <= 1)%nat /\
    (recording_sessions w' = 1%nat <-> isRecording (rec w') = true).
Proof.
  intros w wd ht ratio vp9 speed0 evs.
  split; [exact (startRecording_again w)|].
  split; [exact (stopRecording_idle w)|].
  intros w'.
  destruct (sessions_ok_run evs _ (sessions_ok_initial wd ht ratio vp9 speed0)) as [Hc _].
  fold w' in Hc. rewrite Hc. destruct (isRecording (rec w')); split; try lia;
    split; intros; try reflexivity; discriminate.
Qed.

(** C10, where the code departs from it.  The guards of [startRecording]
    and [stopRecording] look at [isRecording], and [stopRecording] clears
    that flag at once, while the stopped encoder still owes its data and its
    [stop] event.  With dome mode on, the key R pressed three times before
    those are delivered starts a second recording beside the first: two
    recordings are open, on one [recordedChunks].  The data of the first
    lands in the list of the second; the [stop] event of the first writes its
    file and gives the renderer the size of the window while the second
    encoder is recording at 2048 by 2048; and the file of the second, written
    after a fourth R, begins with the data of the first. *)
Theorem C10_restart_before_flush_overlaps :
  let c1 : Chunk := [1%N] in
  let c2 : Chunk := [2%N] in
  let w0 := initial 1920 1080 1 true (1 # 2) in
  let w3 := run w0 [ (mkEnv 0 0, KeyDown "d"); (mkEnv 1000 1000, KeyDown "r");
                     (mkEnv 5000 5000, KeyDown "r"); (mkEnv 5030 5030, KeyDown "r") ] in
  let w5 := run w3 [ (mkEnv 5040 5040, DataAvailable 0 c1); (mkEnv 5040 5040, StopEvent 0) ] in
  let w8 := run w5 [ (mkEnv 9000 9000, KeyDown "r");
                     (mkEnv 9010 9010, DataAvailable 1 c2); (mkEnv 9010 9010, StopEvent 1) ] in
  map enc_state (encoders (host w3)) = [EncStopping; EncRecording] /\
  open_recordings w3 = 2%nat /\
  isRecording (rec w3) = true /\
  rendererSize (host w3) = (2048, 2048)%Z /\
  recordedChunks (rec (step w3 (mkEnv 5040 5040, DataAvailable 0 c1))) = [c1] /\
  downloads (host w5) = [mkDownload "dome_recording_5040.webm" (VideoBlob [c1])] /\
  enc_state_of 1 w5 = Some EncRecording /\
  rendererSize (host w5) = (1920, 1080)%Z /\
  downloads (host w8) = [mkDownload "dome_recording_5040.webm" (VideoBlob [c1]);
                         mkDownload "dome_recording_9010.webm" (VideoBlob [c1; c2])].
Proof.
  vm_compute. repeat split; reflexivity.
Qed.

End SessionTheorems.

(* ====================================================================== *)
(** * Part X.  Theorems: recording and export *)
(* ====================================================================== *)

Section ExportTheorems.

(** ** Video: start, stop, finalize *)

Lemma startRecording_window (w : World) :
  innerWidth (host (startRecording w)) = innerWidth (host w) /\
  innerHeight (host (startRecording w)) = innerHeight (host w).
Proof.
  unfold startRecording. destruct (isRecording (rec w)); [auto|].
  break_world w. cbn.
  match goal with |- context [if ?v then new_MediaRecorder _ _ _ else _] => destruct v end;
    cbn; unfold MediaRecorder_start, enc_state_of, set_enc_state; cbn;
    rewrite nth_error_app_last; cbn; auto.
Qed.

Lemma stopRecording_window (w : World) :
  innerWidth (host (stopRecording w)) = innerWidth (host w) /\
  innerHeight (host (stopRecording w)) = innerHeight (host w).
Proof.
  unfold stopRecording, MediaRecorder_stop, enc_state_of. break_world w. cbn.
  repeat match goal with
         | |- context [match ?x with _ => _ end] => destruct x; cbn
         end; auto.
Qed.

Lemma deliverData_effect (id : nat) (data : Chunk) (w : World) :
  let w' := deliverData id data w in
  host w' = host w /\
  recordedChunks (rec w') =
    match enc_state_of id w with
    | Some EncRecording | Some EncStopping =>
        if (0 <? List.length data)%nat
        then (recordedChunks (rec w) ++ [data])%list else recordedChunks (rec w)
    | _ => recordedChunks (rec w)
    end.
Proof.
  unfold deliverData, ondataavailable. cbv zeta.
  destruct (enc_state_of id w) as [[| | |] |];
    try destruct (0 <? List.length data)%nat; split; reflexivity.
Qed.

Lemma deliverStop_downloads (e : Env) (id : nat) (w : World) :
  enc_state_of id w = Some EncStopping ->
  let w' := deliverStop e id w in
  downloads (host w')
    = (downloads (host w)
       ++ [mkDownload ("dome_recording_" ++ String_of_Z (Z.of_N (dateNow e)) ++ ".webm")
                      (VideoBlob (recordedChunks (rec w)))])%list /\
  rendererSize (host w') = (innerWidth (host w), innerHeight (host w)).
Proof.
  intros H. unfold deliverStop. rewrite H. split; reflexivity.
Qed.


(** A recording started and stopped at once, from a state in which nothing
    is being recorded: nothing is downloaded or resized by [stopRecording];
    when the encoder's last data and its [stop] event arrive, exactly one
    file is downloaded, named after the time of the event, and the renderer
    is given the size of the window. *)
Lemma recording_round_trip (w : World) (e : Env) (data : Chunk) :
  isRecording (rec w) = false ->
  let id := List.length (encoders (host w)) in
  let w1 := stopRecording (startRecording w) in
  let w2 := deliverStop e id (deliverData id data w1) in
  downloads (host w1) = downloads (host w) /\
  rendererSize (host w1) = (RECORDING_RESOLUTION, RECORDING_RESOLUTION) /\
  downloads (host w2)
    = (downloads (host w)
       ++ [mkDownload ("dome_recording_" ++ String_of_Z (Z.of_N (dateNow e)) ++ ".webm")
                      (VideoBlob (if (0 <? List.length data)%nat then [data] else []))])%list /\
  rendererSize (host w2) = (innerWidth (host w), innerHeight (host w)).
Proof.
  intros Hr id w1 w2.
  destruct (startRecording_effect w Hr) as (_ & S1 & S2 & S3 & S4 & S5 & c & S6).
  destruct (startRecording_window w) as [S7 S8].
  set (ws := startRecording w) in *.
  assert (Hs : enc_state_of id ws = Some EncRecording).
  { unfold enc_state_of. rewrite S6. unfold id. rewrite nth_error_app_last. reflexivity. }
  destruct (stopRecording_effect ws id S1 S2) as (_ & _ & _ & T3 & T4 & T5 & T6).
  destruct (stopRecording_window ws) as [T7 T8].
  fold w1 in T3, T4, T5, T6, T7, T8. rewrite Hs in T6.
  assert (Hs1 : enc_state_of id w1 = Some EncStopping).
  { unfold enc_state_of. rewrite T6, nth_update_same.
    unfold enc_state_of in Hs. destruct (nth_error (encoders (host ws)) id); [|discriminate].
    reflexivity. }
  destruct (deliverData_effect id data w1) as (D1 & D2).
  rewrite Hs1 in D2.
  set (wd := deliverData id data w1) in *.
  assert (Hs2 : enc_state_of id wd = Some EncStopping).
  { unfold enc_state_of. rewrite D1. exact Hs1. }
  destruct (deliverStop_downloads e id wd Hs2) as (E1 & E2). fold w2 in E1, E2.
  split; [rewrite T5; exact S5|].
  split; [rewrite T4; exact S4|].
  split.
  - rewrite E1, D1, T5, S5, D2, T3, S3. destruct (0 <? List.length data)%nat; reflexivity.
  - rewrite E2, D1, T7, T8, S7, S8. reflexivity.
Qed.

(** C7, where the code departs from it: a 1920x1080 window, dome mode on and
    the 1:1 preview on, so that the renderer is 1080x1080 when the recording
    starts.  Stopping downloads nothing and resizes nothing by itself; the
    [stop] event downloads one file with a timestamped name, and then sets
    the renderer to the window's 1920x1080, which is not the size it had
    before the recording. *)
Theorem C7_restore_takes_window_size :
  let w := run (initial 1920 1080 1 true (1 # 2))
               [ (mkEnv 0 0, KeyDown "d"); (mkEnv 10 0, KeyDown "f") ] in
  let w1 := run w [ (mkEnv 20 0, KeyDown "r"); (mkEnv 30 0, KeyDown "r") ] in
  let w2 := run w1 [ (mkEnv 40 0, DataAvailable 0 [1; 2; 3]%N);
                     (mkEnv 40 1700000000040, StopEvent 0) ] in
  rendererSize (host w) = (1080, 1080)%Z /\
  rendererSize (host w1) = (2048, 2048)%Z /\
  downloads (host w1) = [] /\
  downloads (host w2)
    = [mkDownload "dome_recording_1700000000040.webm" (VideoBlob [[1; 2; 3]%N])] /\
  rendererSize (host w2) = (1920, 1080)%Z /\
  rendererSize (host w2) <> rendererSize (host w).
Proof. vm_compute. repeat split. discriminate. Qed.

(** ** Requests outside dome mode *)

(** C8, the claim as stated fails: the exported functions do not look at
    dome mode.  On the fresh page, dome mode off, [startRecording] resizes
    the renderer and starts an encoder; and once dome mode has been on and
    off again, [exportSingleFrame] downloads a frame. *)
Lemma C8_counterexample_functions_unguarded :
  let w := initial 1920 1080 1 true (1 # 2) in
  let v := run w [ (mkEnv 0 0, KeyDown "d"); (mkEnv 10 0, KeyDown "d") ] in
  isDomeMode w = false /\
  isRecording (rec (startRecording w)) = true /\
  rendererSize (host (startRecording w)) = (2048, 2048)%Z /\
  recording_sessions (startRecording w) = 1%nat /\
  isDomeMode v = false /\
  map dl_name (downloads (host (exportSingleFrame (mkEnv 20 1700000000020) v)))
    = ["dome_frame_4096x4096_1700000000020.png"].
Proof. vm_compute. repeat split. Qed.

(** C8, amended.  A request made from the keyboard (R, I or S) while dome
    mode is off is a reported no-op: the only change to the world is one
    line on the console.  Of the functions themselves, [exportSingleFrame]
    refuses, with an error on the console, when dome projection was never
    set up, and [stopRecording] does nothing when nothing is recorded. *)
Theorem C8_keyboard_requests_need_dome_mode :
  forall (w : World) (e : Env) (key : string),
    isDomeMode w = false ->
    (key = "r" \/ key = "R" ->
     step w (e, KeyDown key)
       = console_log "Enable dome mode first (press D) before recording" w) /\
    (key = "i" \/ key = "I" \/ key = "s" \/ key = "S" ->
     step w (e, KeyDown key) = console_log "Enable dome mode first (press D)" w) /\
    (getCubeCamera w = false ->
     exportSingleFrame e w = console_error "Dome mode not initialized" w) /\
    (isRecording (rec w) = false -> stopRecording w = w).
Proof.
  intros w e key Hm.
  split; [|split; [|split]].
  - intros [-> | ->]; break_world w; cbn in Hm; subst; reflexivity.
  - intros [-> | [-> | [-> | ->]]]; break_world w; cbn in Hm; subst; reflexivity.
  - intros Hc. unfold exportSingleFrame. rewrite Hc. reflexivity.
  - intros Hr. apply stopRecording_idle. auto.
Qed.

Lemma C8_keyboard_requests_need_dome_mode_witness :
  let w := initial 1920 1080 1 true (1 # 2) in
  isDomeMode w = false /\
  step w (mkEnv 5 0, KeyDown "r")
    = console_log "Enable dome mode first (press D) before recording" w /\
  step w (mkEnv 5 0, KeyDown "s") = console_log "Enable dome mode first (press D)" w /\
  exportSingleFrame (mkEnv 5 0) w = console_error "Dome mode not initialized" w /\
  stopRecording w = w.
Proof.
  intros w.
  assert (Hm : isDomeMode w = false) by reflexivity.
  split; [exact Hm|].
  split; [exact (proj1 (C8_keyboard_requests_need_dome_mode w (mkEnv 5 0) "r" Hm)
                   (or_introl eq_refl))|].
  split; [exact (proj1 (proj2 (C8_keyboard_requests_need_dome_mode w (mkEnv 5 0) "s" Hm))
                   (or_intror (or_intror (or_introl eq_refl))))|].
  split; [exact (proj1 (proj2 (proj2 (C8_keyboard_requests_need_dome_mode w (mkEnv 5 0) "s" Hm)))
                   eq_refl)|].
  exact (proj2 (proj2 (proj2 (C8_keyboard_requests_need_dome_mode w (mkEnv 5 0) "s" Hm)))
           eq_refl).
Defined.

(** ** Image sequences *)

Lemma set_timers_same (w : World) : set_timers (timers (host w)) w = w.
Proof. break_world w. reflexivity. Qed.

Lemma set_timers_twice (l l' : list Timer) (w : World) :
  set_timers l (set_timers l' w) = set_timers l w.
Proof. reflexivity. Qed.

(** The [forEach] of [stopImageSequence] appends one timer per frame and
    touches nothing else. *)
Lemma schedule_downloads_eq (t : Q) (frames : list Payload) :
  forall (index : nat) (w : World),
    schedule_downloads t index frames w
      = set_timers (timers (host w) ++ staggered t index frames)%list w.
Proof.
  induction frames as [| f frames IH]; intros index w.
  - cbn. rewrite app_nil_r, set_timers_same. reflexivity.
  - cbn [schedule_downloads staggered]. rewrite IH. unfold setTimeout.
    rewrite set_timers_twice. cbn. rewrite <- app_assoc. reflexivity.
Qed.

Lemma stopImageSequence_effect (e : Env) (w : World) :
  let w' := stopImageSequence e w in
  imageSequenceMode (rec w') = false /\
  imageSequenceFrames (rec w') = [] /\
  downloads (host w') = downloads (host w) /\
  timers (host w')
    = (timers (host w) ++ staggered (now e) 0 (imageSequenceFrames (rec w)))%list.
Proof.
  unfold stopImageSequence. cbv zeta. rewrite schedule_downloads_eq.
  break_world w. repeat split.
Qed.

Lemma capture_effect (img : Image) (w : World) :
  imageSequenceMode (rec w) = true ->
  let w' := captureImageSequenceFrame (set_canvas img w) in
  imageSequenceMode (rec w') = true /\
  imageSequenceFrames (rec w') = (imageSequenceFrames (rec w) ++ [PngDataURL img])%list /\
  imageSequenceFrameCount (rec w') = (imageSequenceFrameCount (rec w) + 1)%Z /\
  timers (host w') = timers (host w) /\
  downloads (host w') = downloads (host w).
Proof.
  break_world w. cbn. intros ->. unfold captureImageSequenceFrame. split_ifs; repeat split.
Qed.

Lemma capture_each_effect (imgs : list Image) :
  forall w : World,
    imageSequenceMode (rec w) = true ->
    let w' := capture_each imgs w in
    imageSequenceMode (rec w') = true /\
    imageSequenceFrames (rec w') = (imageSequenceFrames (rec w) ++ map PngDataURL imgs)%list /\
    imageSequenceFrameCount (rec w')
      = (imageSequenceFrameCount (rec w) + Z.of_nat (List.length imgs))%Z /\
    timers (host w') = timers (host w) /\
    downloads (host w') = downloads (host w).
Proof.
  induction imgs as [| img imgs IH]; intros w Hm.
  - cbn. rewrite app_nil_r, Z.add_0_r. auto.
  - destruct (capture_effect img w Hm) as (A & B & C & D & E).
    destruct (IH _ A) as (A' & B' & C' & D' & E').
    unfold capture_each in *. cbn [fold_left map].
    rewrite B', C', D', E', B, C, D, E, <- app_assoc.
    repeat split; auto. cbn [List.length]. lia.
Qed.

Lemma startImageSequence_effect (w : World) :
  let w' := startImageSequence w in
  imageSequenceMode (rec w') = true /\
  imageSequenceFrames (rec w') = [] /\
  imageSequenceFrameCount (rec w') = 0%Z /\
  timers (host w') = timers (host w) /\
  downloads (host w') = downloads (host w).
Proof. break_world w. repeat split. Qed.

(** ** Timers *)

Lemma pick_earliest_none (l : list Timer) : pick_earliest l = None -> l = [].
Proof.
  destruct l as [| t rest]; [reflexivity|]. cbn.
  destruct (pick_earliest rest) as [[m rest'] |]; [|discriminate].
  destruct (Qlt_le_dec (due m) (due t)); discriminate.
Qed.

Lemma pick_earliest_in (l : list Timer) (m : Timer) (rest : list Timer) :
  pick_earliest l = Some (m, rest) -> In m l.
Proof.
  revert m rest. induction l as [| t l IH]; intros m rest; [discriminate|].
  cbn. destruct (pick_earliest l) as [[m' rest'] |].
  - destruct (Qlt_le_dec (due m') (due t)); intros H; injection H as <- <-.
    + right. eapply IH. reflexivity.
    + left. reflexivity.
  - intros H. injection H as <- <-. left. reflexivity.
Qed.

(** A timer that no later one precedes is the one that fires. *)
Lemma pick_earliest_head (t : Timer) (rest : list Timer) :
  (forall x : Timer, In x rest -> (due t <= due x)%Q) ->
  pick_earliest (t :: rest) = Some (t, rest).
Proof.
  intros H. cbn. destruct (pick_earliest rest) as [[m rest'] |] eqn:E.
  - specialize (H m (pick_earliest_in _ _ _ E)).
    destruct (Qlt_le_dec (due m) (due t)) as [Hlt | _]; [|reflexivity].
    exfalso. apply (Qlt_not_le _ _ Hlt). exact H.
  - apply pick_earliest_none in E. rewrite E. reflexivity.
Qed.

Lemma staggered_due (t : Q) (frames : list Payload) :
  forall (index : nat) (x : Timer),
    In x (staggered t index frames) ->
    exists k : nat, (index <= k)%nat /\ due x = (t + inject_Z (Z.of_nat k * 100))%Q.
Proof.
  induction frames as [| f frames IH]; intros index x; [intros []|].
  cbn [staggered]. intros [<- | H].
  - exists index. split; [lia | reflexivity].
  - destruct (IH _ _ H) as (k & Hk & Hd). exists k. split; [lia | exact Hd].
Qed.

(** The timers of one image sequence fire in the order of their frames. *)
Lemma fire_staggered (t : Q) (frames : list Payload) :
  forall (index : nat) (w : World),
    timers (host w) = staggered t index frames ->
    downloads (host (fire (List.length frames) w))
      = (downloads (host w) ++ map t_link (staggered t index frames))%list /\
    timers (host (fire (List.length frames) w)) = [].
Proof.
  induction frames as [| f frames IH]; intros index w Ht.
  - cbn. rewrite app_nil_r. auto.
  - cbn [List.length fire staggered map] in *.
    assert (E : fireTimer w
                = click (mkDownload (frame_name index) f)
                        (set_timers (staggered t (S index) frames) w)).
    { unfold fireTimer. rewrite Ht, pick_earliest_head; [reflexivity|].
      intros x Hx. destruct (staggered_due _ _ _ _ Hx) as (k & Hk & ->).
      unfold due; cbn [t_set t_delay].
      apply Qplus_le_r. rewrite <- Zle_Qle. nia. }
    rewrite E.
    destruct (IH (S index) (click (mkDownload (frame_name index) f)
                                 (set_timers (staggered t (S index) frames) w)))
      as [A B]; [reflexivity|].
    rewrite A, B. cbn. rewrite <- app_assoc. auto.
Qed.

(** C9.  When exactly five frames are captured in an image-sequence
    session, [stopImageSequence] sets exactly five timers, with the delays
    0, 100, 200, 300 and 400 ms, for the downloads [frame_000000.png] to
    [frame_000004.png] of the five frames in the order of their capture, and
    clears the list of frames; nothing is downloaded before the timers fire,
    and when they do the five files are downloaded in that order. *)
Theorem C9_five_frames_five_downloads :
  forall (w : World) (e : Env) (imgs : list Image),
    List.length imgs = 5%nat ->
    let frame := fun k : nat => PngDataURL (nth k imgs Blank) in
    let links :=
      [ mkDownload "frame_000000.png" (frame 0%nat);
        mkDownload "frame_000001.png" (frame 1%nat);
        mkDownload "frame_000002.png" (frame 2%nat);
        mkDownload "frame_000003.png" (frame 3%nat);
        mkDownload "frame_000004.png" (frame 4%nat) ] in
    let w2 := capture_each imgs (startImageSequence w) in
    let w3 := stopImageSequence e w2 in
    imageSequenceFrameCount (rec w2) = 5%Z /\
    timers (host w3)
      = (timers (host w)
         ++ map (fun p => mkTimer (now e) (fst p) (snd p))
                (combine [0; 100; 200; 300; 400]%Z links))%list /\
    downloads (host w3) = downloads (host w) /\
    imageSequenceFrames (rec w3) = [] /\
    (timers (host w) = [] ->
     downloads (host (fire 5 w3)) = (downloads (host w) ++ links)%list /\
     timers (host (fire 5 w3)) = []).
Proof.
  intros w e imgs Hlen frame links w2 w3.
  destruct (startImageSequence_effect w) as (A1 & A2 & A3 & A4 & A5).
  destruct (capture_each_effect imgs _ A1) as (B1 & B2 & B3 & B4 & B5). fold w2 in B1, B2, B3, B4, B5.
  destruct (stopImageSequence_effect e w2) as (C1 & C2 & C3 & C4). fold w3 in C1, C2, C3, C4.
  rewrite A2 in B2. rewrite A3, Hlen in B3. rewrite A4 in B4. rewrite A5 in B5.
  rewrite B2, B4 in C4. rewrite B5 in C3.
  destruct imgs as [| i0 [| i1 [| i2 [| i3 [| i4 [| i5 rest]]]]]]; try discriminate Hlen.
  split; [exact B3|].
  split; [exact C4|].
  split; [exact C3|].
  split; [exact C2|].
  intros Hnil. rewrite Hnil in C4. cbn [app] in C4.
  destruct (fire_staggered (now e) (map PngDataURL [i0; i1; i2; i3; i4]) 0 w3 C4) as [D1 D2].
  split; [rewrite C3 in D1; exact D1 | exact D2].
Qed.

Lemma C9_five_frames_five_downloads_witness :
  let w := run (initial 1920 1080 1 true (1 # 2)) [ (mkEnv 0 0, KeyDown "d") ] in
  let imgs := [Domemaster 1 2048 2048; Domemaster 2 2048 2048; Domemaster 3 2048 2048;
               Domemaster 4 2048 2048; Domemaster 5 2048 2048] in
  let w3 := stopImageSequence (mkEnv 500 0) (capture_each imgs (startImageSequence w)) in
  List.length imgs = 5%nat /\ timers (host w) = [] /\
  map dl_name (downloads (host (fire 5 w3)))
    = ["frame_000000.png"; "frame_000001.png"; "frame_000002.png";
       "frame_000003.png"; "frame_000004.png"].
Proof.
  intros w imgs w3.
  assert (Hlen : List.length imgs = 5%nat) by reflexivity.
  assert (Hnil : timers (host w) = []) by reflexivity.
  split; [exact Hlen|]. split; [exact Hnil|].
  destruct (C9_five_frames_five_downloads w (mkEnv 500 0) imgs Hlen) as (_ & _ & _ & _ & H).
  destruct (H Hnil) as [H1 _]. fold w3 in H1. rewrite H1. reflexivity.
Defined.

(** The same from the keyboard: dome mode on, [s], five produced frames,
    [s] again, and the five timers fire. *)
Example image_sequence_from_keyboard :
  let w := run (initial 1920 1080 1 true (1 # 2))
               [ (mkEnv 1000 0, KeyDown "d"); (mkEnv 1010 0, KeyDown "s");
                 (mkEnv 1040 0, AnimationFrame); (mkEnv 1080 0, AnimationFrame);
                 (mkEnv 1120 0, AnimationFrame); (mkEnv 1160 0, AnimationFrame);
                 (mkEnv 1205 0, AnimationFrame); (mkEnv 1210 0, KeyDown "S");
                 (mkEnv 1210 0, TimerFires); (mkEnv 1310 0, TimerFires);
                 (mkEnv 1410 0, TimerFires); (mkEnv 1510 0, TimerFires);
                 (mkEnv 1610 0, TimerFires) ] in
  map dl_name (downloads (host w))
    = ["frame_000000.png"; "frame_000001.png"; "frame_000002.png";
       "frame_000003.png"; "frame_000004.png"] /\
  imageSequenceFrames (rec w) = [] /\ timers (host w) = [].
Proof. vm_compute. repeat split. Qed.

End ExportTheorems.

(* ====================================================================== *)
(** * Part XI.  Further properties: the fisheye projector *)
(* ====================================================================== *)

Section FisheyeFurther.

Import Fisheye.
Local Open Scope R_scope.

Lemma length_nonneg (v : vec2) : 0 <= length v.
Proof. unfold length. apply sqrt_pos. Qed.

(** X1.  Whatever the pixel, the field of view and the arctangent, a
    direction in which the shader samples the cube map has length one. *)
Theorem fisheye_direction_is_unit :
  forall (atan2 : R -> R -> R) (fov : R) (vUv : vec2) (d : vec3),
    fragmentShader atan2 fov vUv = TextureCube d ->
    dot d d = 1.
Proof.
  intros atan2 fov vUv d. unfold fragmentShader.
  destruct (Rgt_dec (length (centered vUv)) 1) as [_ | _]; [discriminate|].
  intros H. injection H as <-. unfold dot, dir_of; simpl.
  set (t := theta_of atan2 (centered vUv)).
  set (p := phi_of fov (length (centered vUv))).
  pose proof (sin2_cos2 t) as Ht. pose proof (sin2_cos2 p) as Hp.
  unfold Rsqr in Ht, Hp.
  replace (sin p * cos t * (sin p * cos t) + sin p * sin t * (sin p * sin t)
           + - cos p * - cos p)
    with (sin p * sin p * (sin t * sin t + cos t * cos t) + cos p * cos p) by ring.
  rewrite Ht. lra.
Qed.

Lemma centre_samples_forward :
  fragmentShader atan_yx DOME_FOV (mkVec2 (1 / 2) (1 / 2)) = TextureCube forward.
Proof.
  rewrite fragmentShader_inside by (rewrite length_center; lra).
  rewrite length_center.
  unfold phi_of, dir_of, toCapture, forward, forward_local; simpl.
  replace (0 * (DOME_FOV / 2) * PI_const / 180) with 0 by field.
  rewrite sin_0, cos_0.
  replace (0 * cos (theta_of atan_yx (centered (mkVec2 (1 / 2) (1 / 2))))) with 0 by ring.
  replace (0 * sin (theta_of atan_yx (centered (mkVec2 (1 / 2) (1 / 2))))) with 0 by ring.
  reflexivity.
Qed.

Lemma fisheye_direction_is_unit_witness :
  fragmentShader atan_yx DOME_FOV (mkVec2 (1 / 2) (1 / 2)) = TextureCube forward /\
  dot forward forward = 1.
Proof.
  pose proof centre_samples_forward as H.
  split; [exact H|].
  exact (fisheye_direction_is_unit atan_yx DOME_FOV (mkVec2 (1 / 2) (1 / 2)) forward H).
Defined.

(** X2.  With the dome's field of view of 180 degrees, the radius of a
    pixel encodes the angle from the forward axis monotonically: of two
    pixels in the disk, the one farther from the centre is sampled in a
    direction with a strictly smaller forward component. *)
Theorem fisheye_radius_orders_angle :
  forall (atan2 : R -> R -> R) (p q : vec2) (dp dq : vec3),
    length (centered p) < length (centered q) ->
    length (centered q) <= 1 ->
    fragmentShader atan2 DOME_FOV p = TextureCube dp ->
    fragmentShader atan2 DOME_FOV q = TextureCube dq ->
    dot dq forward < dot dp forward.
Proof.
  intros atan2 p q dp dq Hlt Hq Ep Eq.
  rewrite fragmentShader_inside in Ep by lra.
  rewrite fragmentShader_inside in Eq by lra.
  injection Ep as <-. injection Eq as <-.
  assert (E : forall t f, dot (toCapture (dir_of t f)) forward = cos f).
  { intros t f. unfold dot, forward, forward_local, toCapture, dir_of; simpl. ring. }
  rewrite !E.
  pose proof (length_nonneg (centered p)) as H0.
  pose proof PI_const_close as Hc. pose proof PI2_1 as H1.
  assert (Hphi : forall r, phi_of DOME_FOV r = r * (PI_const / 2))
    by (intros r; unfold phi_of, DOME_FOV; field).
  rewrite !Hphi.
  assert (Hpos : 0 < PI_const / 2) by (pose proof PI_below_PI_const; lra).
  apply cos_decreasing_1; nra.
Qed.

Lemma fisheye_radius_orders_angle_witness :
  length (centered (mkVec2 (1 / 2) (1 / 2))) < length (centered (mkVec2 1 (1 / 2))) /\
  length (centered (mkVec2 1 (1 / 2))) <= 1 /\
  exists dq : vec3,
    fragmentShader atan_yx DOME_FOV (mkVec2 1 (1 / 2)) = TextureCube dq /\
    dot dq forward < dot forward forward.
Proof.
  assert (H1 : length (centered (mkVec2 (1 / 2) (1 / 2))) < length (centered (mkVec2 1 (1 / 2))))
    by (rewrite length_center, length_east; lra).
  assert (H2 : length (centered (mkVec2 1 (1 / 2))) <= 1) by (rewrite length_east; lra).
  split; [exact H1|]. split; [exact H2|].
  eexists. split; [apply fragmentShader_inside; exact H2|].
  apply (fisheye_radius_orders_angle atan_yx (mkVec2 (1 / 2) (1 / 2)) (mkVec2 1 (1 / 2)));
    [exact H1 | exact H2 | | apply fragmentShader_inside; exact H2].
  exact centre_samples_forward.
Defined.

End FisheyeFurther.

(* ====================================================================== *)
(** * Part XII.  Further properties: single frames, keys and file names *)
(* ====================================================================== *)

Section ExportFurther.

Lemma Qfloor_times_one (z : Z) (r : Q) : (r == 1)%Q -> Qfloor (inject_Z z * r) = z.
Proof.
  intros H. assert (E : (inject_Z z * r == inject_Z z)%Q) by (rewrite H; ring).
  rewrite E. apply Qfloor_Z.
Qed.



(** X4.  On a screen whose device pixel ratio is 1, [exportSingleFrame],
    once the projection is set up, downloads exactly one PNG of 4096 by 4096
    pixels, named after the export resolution and the time, and gives the
    renderer back the size it had; the state of the dome module and of the
    recorder is as before. *)
Theorem exportSingleFrame_saves_and_restores :
  forall (w : World) (e : Env),
    getCubeCamera w = true ->
    (devicePixelRatio (host w) == 1)%Q ->
    let w' := exportSingleFrame e w in
    downloads (host w')
      = (downloads (host w)
         ++ [mkDownload
               ("dome_frame_4096x4096_" ++ String_of_Z (Z.of_N (dateNow e)) ++ ".png")
               (PngDataURL (Domemaster (time (app w)) 4096 4096))])%list /\
    rendererSize (host w') = rendererSize (host w) /\
    dome w' = dome w /\ rec w' = rec w.
Proof.
  intros w e Hc Hr w'.
  assert (F : forall z : Z, Qfloor (inject_Z z * devicePixelRatio (host w)) = z)
    by (intros z; apply Qfloor_times_one; exact Hr).
  assert (A : downloads (host w')
              = (downloads (host w)
                 ++ [mkDownload
                       ("dome_frame_4096x4096_" ++ String_of_Z (Z.of_N (dateNow e)) ++ ".png")
                       (PngDataURL
                          (Domemaster (time (app w))
                             (Qfloor (inject_Z 4096 * devicePixelRatio (host w)))
                             (Qfloor (inject_Z 4096 * devicePixelRatio (host w)))))])%list /\
              rendererSize (host w') = (domElement_width w, domElement_height w) /\
              dome w' = dome w /\ rec w' = rec w).
  { unfold w'. revert Hc. clear F Hr. break_world w. destruct_size.
    unfold getCubeCamera. cbn [dome cubeCamera]. intros ->. repeat split. }
  destruct A as (A1 & A2 & A3 & A4).
  split; [rewrite A1, !F; reflexivity|].
  split; [|split; assumption].
  rewrite A2. unfold domElement_width, domElement_height. rewrite !F.
  destruct (rendererSize (host w)); reflexivity.
Qed.

Lemma exportSingleFrame_saves_and_restores_witness :
  let v := run (initial 1920 1080 1 true (1 # 2)) [ (mkEnv 0 0, KeyDown "d") ] in
  getCubeCamera v = true /\ (devicePixelRatio (host v) == 1)%Q /\
  rendererSize (host (exportSingleFrame (mkEnv 10 1700000000010) v)) = (1920, 1080)%Z /\
  map dl_name (downloads (host (exportSingleFrame (mkEnv 10 1700000000010) v)))
    = ["dome_frame_4096x4096_1700000000010.png"] /\
  map dl_href (downloads (host (exportSingleFrame (mkEnv 10 1700000000010) v)))
    = [PngDataURL (Domemaster 0 4096 4096)].
Proof.
  intros v.
  assert (Hv : getCubeCamera v = true) by reflexivity.
  assert (Hr : (devicePixelRatio (host v) == 1)%Q) by reflexivity.
  destruct (exportSingleFrame_saves_and_restores v (mkEnv 10 1700000000010) Hv Hr)
    as (A & B & _).
  split; [exact Hv|]. split; [exact Hr|].
  split; [rewrite B; reflexivity|].
  split; rewrite A; reflexivity.
Defined.

(** X5.  [renderDomeFrameHighRes] returns the pixels of the 4096 by 4096
    target exactly when dome mode is on and the projection is set up; it
    then logs one line and leaves the canvas cleared, since the frame goes to
    the off-screen target and each change of size resets the drawing buffer.
    Otherwise it returns [null] and does nothing but log the error
    [Dome mode must be enabled first].  Either way the size of the renderer
    and the downloads are as before. *)
Theorem renderDomeFrameHighRes_result :
  forall w : World,
    let r := renderDomeFrameHighRes w in
    (fst r = Some (Domemaster (time (app w)) DOME_OUTPUT_RESOLUTION DOME_OUTPUT_RESOLUTION)
     <-> DOME_MODE (dome w) && cubeCamera (dome w) = true) /\
    (fst r = None <-> DOME_MODE (dome w) && cubeCamera (dome w) = false) /\
    (DOME_MODE (dome w) && cubeCamera (dome w) = false ->
     snd r = console_error "Dome mode must be enabled first" w) /\
    (DOME_MODE (dome w) && cubeCamera (dome w) = true ->
     console (host (snd r))
       = (console (host w) ++ [mkLog Log "Rendered high-res dome frame: 4096x4096"])%list /\
     canvas (host (snd r)) = Blank) /\
    rendererSize (host (snd r)) = rendererSize (host w) /\
    downloads (host (snd r)) = downloads (host w).
Proof.
  intros w. break_world w. destruct_size. unfold renderDomeFrameHighRes.
  cbn [dome DOME_MODE cubeCamera].
  match goal with |- context [negb ?a || negb ?c] => destruct a, c end;
    cbn [negb orb andb fst snd]; cbv zeta;
    repeat split; intros; try discriminate; reflexivity.
Qed.

Lemma renderDomeFrameHighRes_result_witness :
  let w0 := initial 1920 1080 1 true (1 # 2) in
  let w := run w0 [ (mkEnv 0 0, KeyDown "d") ] in
  DOME_MODE (dome w0) && cubeCamera (dome w0) = false /\
  DOME_MODE (dome w) && cubeCamera (dome w) = true /\
  renderDomeFrameHighRes w0 = (None, console_error "Dome mode must be enabled first" w0) /\
  fst (renderDomeFrameHighRes w) = Some (Domemaster 0 4096 4096) /\
  List.last (console (host (snd (renderDomeFrameHighRes w)))) (mkLog Error "")
    = mkLog Log "Rendered high-res dome frame: 4096x4096".
Proof.
  intros w0 w.
  assert (H0 : DOME_MODE (dome w0) && cubeCamera (dome w0) = false) by reflexivity.
  assert (H1 : DOME_MODE (dome w) && cubeCamera (dome w) = true) by reflexivity.
  destruct (renderDomeFrameHighRes_result w0) as (_ & N & E & _).
  destruct (renderDomeFrameHighRes_result w) as (S & _ & _ & L & _).
  destruct (L H1) as [L1 _].
  split; [exact H0|]. split; [exact H1|].
  split.
  - rewrite (surjective_pairing (renderDomeFrameHighRes w0)).
    rewrite (proj2 N H0), (E H0). reflexivity.
  - split; [exact (proj2 S H1)|].
    rewrite L1. apply last_last.
Defined.

(** X6.  The [f] key in dome mode switches the 1:1 preview: switching it on
    makes the renderer a square with the smaller side of the window, which
    fits in the window; switching it off gives the renderer the size of the
    window.  Outside dome mode the key changes nothing and logs a line. *)
Theorem key_f_square_preview :
  forall (w : World) (e : Env) (key : string),
    key = "f" \/ key = "F" ->
    let w' := step w (e, KeyDown key) in
    (DOME_MODE (dome w) = true -> fullscreen1to1 (dome w) = false ->
     fullscreen1to1 (dome w') = true /\
     exists size : Z,
       rendererSize (host w') = (size, size) /\
       (size <= innerWidth (host w))%Z /\ (size <= innerHeight (host w))%Z /\
       (size = innerWidth (host w) \/ size = innerHeight (host w))) /\
    (DOME_MODE (dome w) = true -> fullscreen1to1 (dome w) = true ->
     fullscreen1to1 (dome w') = false /\
     rendererSize (host w') = (innerWidth (host w), innerHeight (host w))) /\
    (DOME_MODE (dome w) = false ->
     w' = console_log "Enable dome mode first (press D)" w).
Proof.
  intros w e key Hkey w'. unfold w'.
  split; [|split].
  - intros Hm Hf. destruct Hkey as [-> | ->]; break_world w; cbn in Hm, Hf; subst; cbn;
      (split; [reflexivity|]); eexists; (split; [reflexivity|]); lia.
  - intros Hm Hf. destruct Hkey as [-> | ->]; break_world w; cbn in Hm, Hf; subst; cbn;
      split; reflexivity.
  - intros Hm. destruct Hkey as [-> | ->]; break_world w; cbn in Hm; subst; reflexivity.
Qed.

Lemma key_f_square_preview_witness :
  let w0 := initial 1920 1080 1 true (1 # 2) in
  let w := step w0 (mkEnv 0 0, KeyDown "d") in
  let w1 := step w (mkEnv 10 0, KeyDown "f") in
  let w2 := step w1 (mkEnv 20 0, KeyDown "F") in
  DOME_MODE (dome w) = true /\ fullscreen1to1 (dome w) = false /\
  fullscreen1to1 (dome w1) = true /\ rendererSize (host w1) = (1080, 1080)%Z /\
  rendererSize (host w2) = (1920, 1080)%Z /\
  DOME_MODE (dome w0) = false /\
  step w0 (mkEnv 5 0, KeyDown "f") = console_log "Enable dome mode first (press D)" w0.
Proof.
  intros w0 w w1 w2.
  assert (Hm : DOME_MODE (dome w) = true) by reflexivity.
  assert (Hf : fullscreen1to1 (dome w) = false) by reflexivity.
  assert (Hm1 : DOME_MODE (dome w1) = true) by reflexivity.
  assert (Hm0 : DOME_MODE (dome w0) = false) by reflexivity.
  destruct (key_f_square_preview w (mkEnv 10 0) "f" (or_introl eq_refl)) as (A & _ & _).
  destruct (A Hm Hf) as (A1 & _).
  destruct (key_f_square_preview w1 (mkEnv 20 0) "F" (or_intror eq_refl)) as (_ & B & _).
  destruct (B Hm1 A1) as (_ & B2).
  destruct (key_f_square_preview w0 (mkEnv 5 0) "f" (or_introl eq_refl)) as (_ & _ & C).
  split; [exact Hm|]. split; [exact Hf|]. split; [exact A1|]. split; [reflexivity|].
  split; [exact B2|]. split; [exact Hm0|]. exact (C Hm0).
Defined.

End ExportFurther.

(* ====================================================================== *)
(** * Part XIII.  Further properties: the pacer, the recorder, invariants *)
(* ====================================================================== *)

Section PipelineFurther.

(** X7.  One callback in dome mode, with each subtraction rounded to within
    [eta]: zero in exact arithmetic, [2^(m - 53)] on doubles up to [2^m].
    Afterwards the time of the last produced frame is at most [eta] ahead
    of the clock and less than a frame duration plus [eta] behind it; it has
    not moved back; a produce has moved it forward by at least a frame
    duration less [2 eta], and a skip has changed nothing. *)
Theorem pacer_stays_in_phase :
  forall (rnd : Q -> Q) (D M eta : Q) (w : World) (e : Env),
    DOME_MODE (dome w) = true ->
    rounds_within rnd M eta ->
    (2 * eta <= D)%Q -> (0 < D)%Q -> (D <= M)%Q ->
    (0 <= lastFrameTime (dome w))%Q ->
    (lastFrameTime (dome w) <= now e + eta)%Q ->
    (0 <= now e)%Q -> (now e <= M - D)%Q ->
    let r := shouldRenderDomeFrame_with rnd D e w in
    (lastFrameTime (dome w) <= lastFrameTime (dome (snd r)))%Q /\
    (lastFrameTime (dome (snd r)) <= now e + eta)%Q /\
    (now e - lastFrameTime (dome (snd r)) < D + eta)%Q /\
    (fst r = true ->
     (lastFrameTime (dome w) + D - 2 * eta <= lastFrameTime (dome (snd r)))%Q) /\
    (fst r = false -> snd r = w).
Proof.
  intros rnd D M eta w e Hm Hr Hs Hd HM HL0 HL1 HT0 HT1 r. unfold r.
  assert (He : (0 <= eta)%Q) by (apply (rounds_within_nonneg rnd M eta Hr); lra).
  destruct (Qlt_le_dec (rnd (now e - lastFrameTime (dome w))%Q) D) as [Hlt | Hge].
  - rewrite (pacer_with_skip rnd D e w Hm Hlt). cbn [fst snd].
    destruct (rnd_bounds rnd M eta Hr (now e - lastFrameTime (dome w))%Q) as [E1 E2];
      [lra | lra |].
    repeat split; try lra; try discriminate.
  - destruct (pacer_with_produce rnd D e w Hm Hge) as (w1 & E & _ & HL & _).
    rewrite E. cbn [fst snd].
    destruct (produce_moves rnd D M eta Hr Hs Hd HM (now e) (lastFrameTime (dome w)))
      as (_ & _ & _ & P3 & P4 & P5 & _); [lra | lra | lra | lra | exact Hge |].
    rewrite <- HL in P3, P4, P5.
    repeat split; try discriminate; intros; lra.
Qed.

(** X7 on doubles: dome mode switched on at time 0, a callback at 100 ms
    and one at 110 ms.  Both produce: the first leaves the time of the last
    frame at 66.66666666666667, and the second, finding 43.33333333333333
    elapsed, moves it to 100, which is forward by a little less than the
    frame duration on doubles. *)
Lemma pacer_stays_in_phase_witness :
  let w0 := step (initial 1920 1080 1 true (1 # 2)) (mkEnv 0 0, KeyDown "d") in
  let w := snd (shouldRenderDomeFrame_64 (mkEnv 100 0) w0) in
  let r := shouldRenderDomeFrame_64 (mkEnv 110 0) w in
  let D := DOME_FRAME_DURATION_64 in
  let eta := (2 ^ (33 - 53))%Q in
  DOME_MODE (dome w) = true /\
  rounds_within round64 (2 ^ 33)%Q eta /\
  (lastFrameTime (dome w) == 4691249611844267 # 70368744177664)%Q /\
  fst r = true /\
  (lastFrameTime (dome (snd r)) == 100)%Q /\
  (lastFrameTime (dome (snd r)) - lastFrameTime (dome w) < D)%Q /\
  (lastFrameTime (dome w) + D - 2 * eta <= lastFrameTime (dome (snd r)))%Q /\
  (110 - lastFrameTime (dome (snd r)) < D + eta)%Q.
Proof.
  intros w0 w r D eta.
  assert (Hm : DOME_MODE (dome w) = true) by reflexivity.
  assert (Hr : rounds_within round64 (2 ^ 33)%Q eta) by exact (round64_rounds_within 33).
  assert (Hp : fst r = true) by (vm_compute; reflexivity).
  destruct (pacer_stays_in_phase round64 D (2 ^ 33)%Q eta w (mkEnv 110 0) Hm Hr)
    as (_ & _ & A & B & _);
    try (apply Qle_bool_iff; vm_compute; reflexivity);
    try (apply Qlt_alt; vm_compute; reflexivity).
  split; [exact Hm|]. split; [exact Hr|].
  split; [apply Qeq_bool_iff; vm_compute; reflexivity|].
  split; [exact Hp|].
  split; [apply Qeq_bool_iff; vm_compute; reflexivity|].
  split; [apply Qlt_alt; vm_compute; reflexivity|].
  split; [exact (B Hp) | exact A].
Defined.

(** ** File names *)

Lemma string_length_app (a b : string) :
  String.length (a ++ b) = (String.length a + String.length b)%nat.
Proof. induction a as [| c a IH]; cbn; [reflexivity | rewrite IH; reflexivity]. Qed.

Lemma substring_prefix (a b : string) : substring 0 (String.length a) (a ++ b) = a.
Proof. induction a as [| c a IH]; cbn; [destruct b; reflexivity | rewrite IH; reflexivity]. Qed.

Lemma uint_of_zeros (k : nat) (s : string) :
  NilEmpty.uint_of_string (repeat_char "0"%char k ++ s)
    = option_map (Nat.iter k D0) (NilEmpty.uint_of_string s).
Proof.
  induction k as [| k IH]; cbn [repeat_char append Nat.iter nat_rect].
  - destruct (NilEmpty.uint_of_string s); reflexivity.
  - cbn [NilEmpty.uint_of_string]. rewrite IH.
    destruct (NilEmpty.uint_of_string s); reflexivity.
Qed.

Lemma Pos_of_uint_zeros (k : nat) (d : uint) : Pos.of_uint (Nat.iter k D0 d) = Pos.of_uint d.
Proof. induction k as [| k IH]; [reflexivity | exact IH]. Qed.

Lemma parse_String_of_Z (i : nat) :
  option_map Pos.of_uint (NilEmpty.uint_of_string (String_of_Z (Z.of_nat i)))
    = Some (N.of_nat i).
Proof.
  destruct i as [| i]; [reflexivity|].
  cbn [Z.of_nat String_of_Z]. rewrite NilEmpty.usu. cbn [option_map].
  rewrite DecimalPos.Unsigned.of_to. reflexivity.
Qed.

(** X8.  The name of a frame can be read back: the digits between [frame_]
    and [.png] are the index, whatever its size (padding adds zeros and
    never cuts digits).  So different frames never get the same file
    name. *)
Theorem frame_names_read_back :
  (forall i : nat, frame_index (frame_name i) = Some (N.of_nat i)) /\
  (forall i j : nat, frame_name i = frame_name j -> i = j).
Proof.
  assert (H : forall i : nat, frame_index (frame_name i) = Some (N.of_nat i)).
  { intros i. unfold frame_index, frame_name.
    set (padded := padStart 6 "0"%char (String_of_Z (Z.of_nat i))).
    assert (L : (String.length ("frame_" ++ padded ++ ".png") - 10 = String.length padded)%nat).
    { rewrite !string_length_app. cbn [String.length]. lia. }
    cbv zeta. rewrite L.
    change (substring 6 (String.length padded) ("frame_" ++ padded ++ ".png"))
      with (substring 0 (String.length padded) (padded ++ ".png")).
    rewrite substring_prefix. unfold padded, padStart.
    rewrite uint_of_zeros.
    pose proof (parse_String_of_Z i) as P.
    destruct (NilEmpty.uint_of_string (String_of_Z (Z.of_nat i))) as [u |]; [|discriminate].
    cbn [option_map] in *. rewrite Pos_of_uint_zeros. exact P. }
  split; [exact H|].
  intros i j E. pose proof (H i) as Hi. rewrite E, (H j) in Hi.
  injection Hi as Hi. lia.
Qed.

(** ** The recorder *)

Lemma deliver_all (id : nat) (datas : list Chunk) :
  forall w : World,
    enc_state_of id w = Some EncRecording \/ enc_state_of id w = Some EncStopping ->
    let w' := fold_left (fun v d => deliverData id d v) datas w in
    host w' = host w /\
    isRecording (rec w') = isRecording (rec w) /\
    mediaRecorder (rec w') = mediaRecorder (rec w) /\
    recordedChunks (rec w') = (recordedChunks (rec w) ++ filter nonempty datas)%list.
Proof.
  induction datas as [| d datas IH]; intros w Hs.
  - cbn. rewrite app_nil_r. auto.
  - cbn [fold_left filter].
    destruct (deliverData_effect id d w) as (D1 & D2).
    destruct (deliverData_inert id d w) as (_ & I1 & I2 & _).
    assert (Hs' : enc_state_of id (deliverData id d w) = Some EncRecording \/
                  enc_state_of id (deliverData id d w) = Some EncStopping).
    { unfold enc_state_of in *. rewrite D1. exact Hs. }
    destruct (IH _ Hs') as (A & B & C & D).
    cbv zeta. rewrite A, B, C, D, D1, I1, I2, D2.
    repeat split.
    unfold nonempty at 2.
    destruct Hs as [-> | ->]; destruct (0 <? List.length d)%nat;
      rewrite <- ?app_assoc; reflexivity.
Qed.

(** X9.  One recording, from start to the encoder's [stop] event: the file
    that is downloaded holds exactly the non-empty chunks that the encoder
    delivered, before and after [stopRecording], in the order of delivery;
    nothing is downloaded before the [stop] event, and after it the renderer
    has the size of the window and no encoder is recording. *)
Theorem recording_collects_chunks :
  forall (w : World) (e : Env) (before after : list Chunk),
    isRecording (rec w) = false ->
    sessions_ok w ->
    let id := List.length (encoders (host w)) in
    let deliver := fun v d => deliverData id d v in
    let w1 := fold_left deliver before (startRecording w) in
    let w2 := fold_left deliver after (stopRecording w1) in
    let w3 := deliverStop e id w2 in
    downloads (host w2) = downloads (host w) /\
    downloads (host w3)
      = (downloads (host w)
         ++ [mkDownload ("dome_recording_" ++ String_of_Z (Z.of_N (dateNow e)) ++ ".webm")
                        (VideoBlob (filter nonempty (before ++ after)))])%list /\
    rendererSize (host w3) = (innerWidth (host w), innerHeight (host w)) /\
    recording_sessions w3 = 0%nat.
Proof.
  intros w e before after Hr Hok id deliver w1 w2 w3.
  destruct (startRecording_effect w Hr) as (_ & S1 & S2 & S3 & S4 & S5 & c & S6).
  destruct (startRecording_window w) as [S7 S8].
  pose proof (sessions_ok_startRecording w Hok) as Hok0.
  set (ws := startRecording w) in *.
  assert (Hs : enc_state_of id ws = Some EncRecording).
  { unfold enc_state_of. rewrite S6. unfold id. rewrite nth_error_app_last. reflexivity. }
  destruct (deliver_all id before ws (or_introl Hs)) as (A1 & A2 & A3 & A4). fold deliver w1 in A1, A2, A3, A4.
  assert (Hs1 : enc_state_of id w1 = Some EncRecording)
    by (unfold enc_state_of in *; rewrite A1; exact Hs).
  rewrite S1 in A2. rewrite S2 in A3. rewrite S3 in A4. cbn [app] in A4.
  destruct (stopRecording_effect w1 id A2 A3) as (_ & T1 & _ & T3 & T4 & T5 & T6).
  destruct (stopRecording_window w1) as [T7 T8].
  rewrite Hs1 in T6.
  set (wt := stopRecording w1) in *.
  assert (Hs2 : enc_state_of id wt = Some EncStopping).
  { unfold enc_state_of. rewrite T6, nth_update_same.
    unfold enc_state_of in Hs1. destruct (nth_error (encoders (host w1)) id); [|discriminate].
    reflexivity. }
  destruct (deliver_all id after wt (or_intror Hs2)) as (B1 & B2 & _ & B4). fold deliver w2 in B1, B2, B4.
  assert (Hs3 : enc_state_of id w2 = Some EncStopping)
    by (unfold enc_state_of in *; rewrite B1; exact Hs2).
  destruct (deliverStop_downloads e id w2 Hs3) as (E1 & E2). fold w3 in E1, E2.
  assert (Hok1 : sessions_ok w1).
  { apply (sessions_ok_video_inert ws); [|exact Hok0].
    unfold video_inert. rewrite A1, A2, A3, S1, S2. auto. }
  pose proof (sessions_ok_stopRecording w1 Hok1) as Hok2. fold wt in Hok2.
  assert (Hok3 : sessions_ok w2).
  { apply (sessions_ok_video_inert wt); [|exact Hok2].
    unfold video_inert. rewrite B1, B2.
    destruct (deliver_all id after wt (or_intror Hs2)) as (_ & _ & B3 & _). fold deliver w2 in B3.
    rewrite B3. auto. }
  pose proof (sessions_ok_deliverStop e id w2 Hok3) as [Hc _]. fold w3 in Hc.
  destruct (deliverStop_effect e id w2) as (_ & R3 & _). fold w3 in R3.
  split; [rewrite B1, T5, A1; exact S5|].
  split.
  - rewrite E1, B1, T5, A1, S5, B4, T3, A4, filter_app. reflexivity.
  - split; [rewrite E2, B1, T7, T8, A1, S7, S8; reflexivity|].
    rewrite Hc, R3, B2, T1. reflexivity.
Qed.

Lemma recording_collects_chunks_witness :
  let w := run (initial 1920 1080 1 true (1 # 2)) [ (mkEnv 0 0, KeyDown "d") ] in
  let chunk := fun v d => deliverData 0 d v in
  let w2 := fold_left chunk [[]; [9]%N]
              (stopRecording (fold_left chunk [[1; 2]%N; []; [3]%N] (startRecording w))) in
  isRecording (rec w) = false /\
  downloads (host w2) = [] /\
  downloads (host (deliverStop (mkEnv 50 1700000000050) 0 w2))
    = [mkDownload "dome_recording_1700000000050.webm"
                  (VideoBlob [[1; 2]%N; [3]%N; [9]%N])].
Proof.
  intros w chunk w2.
  assert (Hr : isRecording (rec w) = false) by reflexivity.
  assert (Hok : sessions_ok w) by (split; [reflexivity | discriminate]).
  destruct (recording_collects_chunks w (mkEnv 50 1700000000050)
              [[1; 2]%N; []; [3]%N] [[]; [9]%N] Hr Hok) as (A & B & _).
  split; [exact Hr|]. split; [exact A | exact B].
Defined.

(** X10.  [startRecording] asks for VP9 at 50 Mbps and falls back to the
    browser's default codec when that is refused: either way one encoder is
    created at the target frame rate and starts recording, and a warning is
    logged exactly in the fallback case. *)
Theorem startRecording_codec_fallback :
  forall w : World,
    isRecording (rec w) = false ->
    let w' := startRecording w in
    encoders (host w')
      = (encoders (host w)
         ++ [mkEncoder (if vp9Supported (host w) then VP9_50Mbps else DefaultCodec)
                       DOME_TARGET_FPS EncRecording])%list /\
    filter is_warning (console (host w'))
      = (filter is_warning (console (host w))
         ++ (if vp9Supported (host w) then []
             else [mkLog Warn "VP9 not supported, using default codec"]))%list /\
    isRecording (rec w') = true.
Proof.
  intros w. break_world w. cbn [rec isRecording host encoders vp9Supported console]. intros ->.
  match goal with |- context [if ?v then VP9_50Mbps else DefaultCodec] => destruct v end;
    unfold startRecording; cbn;
    unfold MediaRecorder_start, enc_state_of, set_enc_state; cbn;
    rewrite nth_error_app_last; cbn; rewrite update_nth_app_last; cbn;
    (split; [reflexivity|]); (split; [|reflexivity]);
    rewrite !filter_app; cbn; rewrite ?app_nil_r; reflexivity.
Qed.

Lemma startRecording_codec_fallback_witness :
  let w := initial 1920 1080 1 false (1 # 2) in
  isRecording (rec w) = false /\
  encoders (host (startRecording w)) = [mkEncoder DefaultCodec 30 EncRecording] /\
  filter is_warning (console (host (startRecording w)))
    = [mkLog Warn "VP9 not supported, using default codec"].
Proof.
  intros w.
  assert (Hr : isRecording (rec w) = false) by reflexivity.
  destruct (startRecording_codec_fallback w Hr) as (A & B & _).
  split; [exact Hr|]. split; [exact A | exact B].
Defined.

Lemma recordingKeydown_other_key (e : Env) (key : string) (w : World) :
  key_is key "r" "R" = false -> key_is key "i" "I" = false -> key_is key "s" "S" = false ->
  recordingKeydown e key w = w.
Proof.
  intros Hr Hi Hs. unfold recordingKeydown, recordingKey_r, recordingKey_i, recordingKey_s.
  rewrite Hr, Hi, Hs. reflexivity.
Qed.

(** X11.  The keys of the dome module never touch a recording: after [d],
    [f] or [e], in either case, the recorder's flag, its encoder and every
    encoder's state are as before.  In particular switching dome mode off
    while recording leaves the encoder recording. *)
Theorem dome_keys_leave_recording_alone :
  forall (w : World) (e : Env) (key : string),
    In key ["d"; "D"; "f"; "F"; "e"; "E"] ->
    let w' := step w (e, KeyDown key) in
    isRecording (rec w') = isRecording (rec w) /\
    mediaRecorder (rec w') = mediaRecorder (rec w) /\
    encoders (host w') = encoders (host w) /\
    recording_sessions w' = recording_sessions w.
Proof.
  intros w e key Hkey w'. unfold w'. cbn [step].
  assert (E : recordingKeydown e key (domeKeydown e key w) = domeKeydown e key w).
  { apply recordingKeydown_other_key;
      cbn [In] in Hkey; decompose [or] Hkey; subst; try reflexivity; contradiction. }
  rewrite E. destruct (domeKeydown_video_inert e key w) as (A & B & C).
  unfold recording_sessions. rewrite A, B, C. auto.
Qed.

Lemma dome_keys_leave_recording_alone_witness :
  let w := run (initial 1920 1080 1 true (1 # 2))
               [ (mkEnv 0 0, KeyDown "d"); (mkEnv 10 0, KeyDown "r") ] in
  let w' := step w (mkEnv 20 0, KeyDown "d") in
  In "d" ["d"; "D"; "f"; "F"; "e"; "E"] /\
  DOME_MODE (dome w') = false /\ isRecording (rec w') = true /\
  recording_sessions w' = 1%nat.
Proof.
  intros w w'.
  assert (H : In "d" ["d"; "D"; "f"; "F"; "e"; "E"]) by (left; reflexivity).
  destruct (dome_keys_leave_recording_alone w (mkEnv 20 0) "d" H) as (A & _ & _ & D).
  split; [exact H|]. split; [reflexivity|].
  split; [exact (eq_trans A eq_refl) | exact (eq_trans D eq_refl)].
Defined.

End PipelineFurther.

(* ====================================================================== *)
(** * Part XIV.  Further properties: what every reachable state satisfies *)
(* ====================================================================== *)

Section Invariants.

Lemma calm_refl (w : World) : calm w w.
Proof. repeat split. Qed.

Lemma flags_same_trans (w1 w2 w3 : World) :
  flags_same w1 w2 -> flags_same w2 w3 -> flags_same w1 w3.
Proof. unfold flags_same. intros [A B] [A' B']. split; congruence. Qed.

Lemma seq_same_trans (w1 w2 w3 : World) :
  seq_same w1 w2 -> seq_same w2 w3 -> seq_same w1 w3.
Proof. unfold seq_same. intros (A & B & C) (A' & B' & C'). repeat split; congruence. Qed.

Lemma calm_trans (w1 w2 w3 : World) : calm w1 w2 -> calm w2 w3 -> calm w1 w3.
Proof.
  intros [A B] [A' B']. split; [eapply flags_same_trans | eapply seq_same_trans]; eassumption.
Qed.

(** The setters that touch neither the dome flags nor the image sequence. *)

Lemma calm_console_log (s : string) (w : World) : calm w (console_log s w).
Proof. repeat split. Qed.
Lemma calm_console_warn (s : string) (w : World) : calm w (console_warn s w).
Proof. repeat split. Qed.
Lemma calm_console_error (s : string) (w : World) : calm w (console_error s w).
Proof. repeat split. Qed.
Lemma calm_setSize (a b : Z) (w : World) : calm w (setSize a b w).
Proof. repeat split. Qed.
Lemma calm_click (d : Download) (w : World) : calm w (click d w).
Proof. repeat split. Qed.
Lemma calm_set_canvas (i : Image) (w : World) : calm w (set_canvas i w).
Proof. repeat split. Qed.
Lemma calm_set_timers (l : list Timer) (w : World) : calm w (set_timers l w).
Proof. repeat split. Qed.
Lemma calm_set_encoders (l : list Encoder) (w : World) : calm w (set_encoders l w).
Proof. repeat split. Qed.
Lemma calm_set_inner (a b : Z) (w : World) : calm w (set_inner a b w).
Proof. repeat split. Qed.
Lemma calm_set_time (t : Q) (w : World) : calm w (set_time t w).
Proof. repeat split. Qed.
Lemma calm_set_clock (o : option Q) (w : World) : calm w (set_clock_oldTime o w).
Proof. repeat split. Qed.
Lemma calm_set_isRecording (b : bool) (w : World) : calm w (set_isRecording b w).
Proof. repeat split. Qed.
Lemma calm_set_mediaRecorder (m : option nat) (w : World) : calm w (set_mediaRecorder m w).
Proof. repeat split. Qed.
Lemma calm_set_recordedChunks (c : list Chunk) (w : World) : calm w (set_recordedChunks c w).
Proof. repeat split. Qed.
Lemma calm_set_lastFrameTime (t : Q) (w : World) : calm w (set_lastFrameTime t w).
Proof. repeat split. Qed.
Lemma calm_set_domeFrameCount (n : Z) (w : World) : calm w (set_domeFrameCount n w).
Proof. repeat split. Qed.
Lemma calm_set_fullscreen1to1 (b : bool) (w : World) : calm w (set_fullscreen1to1 b w).
Proof. repeat split. Qed.
Lemma calm_renderFisheye (w : World) : calm w (renderFisheye w).
Proof. repeat split. Qed.
Lemma calm_resetDomeFrameCount (w : World) : calm w (resetDomeFrameCount w).
Proof. repeat split. Qed.
Lemma calm_incrementDomeFrameCount (w : World) : calm w (incrementDomeFrameCount w).
Proof. repeat split. Qed.
Lemma calm_set_enc_state (id : nat) (st : EncState) (w : World) : calm w (set_enc_state id st w).
Proof. repeat split. Qed.

Lemma calm_console_logs (l : list string) (w : World) :
  calm w (fold_left (fun w s => console_log s w) l w).
Proof.
  revert w. induction l as [| s l IH]; intros w; [apply calm_refl|].
  cbn [fold_left]. eapply calm_trans; [apply calm_console_log | apply IH].
Qed.

Create HintDb calm.
#[local] Hint Resolve calm_console_log calm_console_warn calm_console_error calm_setSize
  calm_click calm_set_canvas calm_set_timers calm_set_encoders calm_set_inner calm_set_time
  calm_set_clock calm_set_isRecording calm_set_mediaRecorder calm_set_recordedChunks
  calm_set_lastFrameTime calm_set_domeFrameCount calm_set_fullscreen1to1 calm_renderFisheye
  calm_resetDomeFrameCount calm_incrementDomeFrameCount calm_set_enc_state
  calm_console_logs : calm.

(** Peel a composition of calm operations, outermost first. *)
Ltac calm_chain :=
  repeat first [ apply calm_refl
               | eapply calm_trans; [| solve [auto with calm nocore]] ].

Ltac calm_cases :=
  repeat match goal with
         | |- context [if ?b then _ else _] => destruct b
         end.

Lemma calm_MediaRecorder_start (id : nat) (w : World) : calm w (MediaRecorder_start id w).
Proof.
  unfold MediaRecorder_start. destruct (enc_state_of id w) as [[| | |] |]; calm_chain.
Qed.

Lemma calm_MediaRecorder_stop (id : nat) (w : World) : calm w (MediaRecorder_stop id w).
Proof.
  unfold MediaRecorder_stop. destruct (enc_state_of id w) as [[| | |] |]; calm_chain.
Qed.

#[local] Hint Resolve calm_MediaRecorder_start calm_MediaRecorder_stop : calm.

Lemma calm_exportDomeFrame (w : World) : calm w (exportDomeFrame w).
Proof. unfold exportDomeFrame. calm_cases; cbv zeta; calm_chain. Qed.

Lemma calm_renderDomeFrameHighRes (w : World) : calm w (snd (renderDomeFrameHighRes w)).
Proof. unfold renderDomeFrameHighRes. calm_cases; cbv zeta; cbn [snd]; calm_chain. Qed.

Lemma calm_renderDome (w : World) : calm w (renderDome w).
Proof. unfold renderDome. calm_cases; calm_chain. Qed.

Lemma calm_exportSingleFrame (e : Env) (w : World) : calm w (exportSingleFrame e w).
Proof. unfold exportSingleFrame. calm_cases; cbv zeta; calm_chain. Qed.

Lemma calm_shouldRenderDomeFrame (e : Env) (w : World) :
  calm w (snd (shouldRenderDomeFrame e w)).
Proof. unfold shouldRenderDomeFrame. calm_cases; cbv zeta; cbn [snd]; calm_chain. Qed.

Lemma calm_startRecording (w : World) : calm w (startRecording w).
Proof.
  unfold startRecording, new_MediaRecorder. calm_cases; cbv beta iota zeta; calm_chain.
Qed.

Lemma calm_stopRecording (w : World) : calm w (stopRecording w).
Proof.
  unfold stopRecording.
  destruct (isRecording (rec w)); [|apply calm_refl].
  destruct (mediaRecorder (rec w)); [|apply calm_refl].
  cbv zeta. calm_chain.
Qed.

Lemma calm_toggleRecording (w : World) : calm w (toggleRecording w).
Proof.
  unfold toggleRecording. destruct (isRecording (rec w));
    [apply calm_stopRecording | apply calm_startRecording].
Qed.

Lemma calm_fireTimer (w : World) : calm w (fireTimer w).
Proof.
  unfold fireTimer. destruct (pick_earliest (timers (host w))) as [[t rest] |]; calm_chain.
Qed.

Lemma calm_deliverData (id : nat) (data : Chunk) (w : World) : calm w (deliverData id data w).
Proof.
  unfold deliverData, ondataavailable.
  destruct (enc_state_of id w) as [[| | |] |]; calm_cases; calm_chain.
Qed.

Lemma calm_deliverStop (e : Env) (id : nat) (w : World) : calm w (deliverStop e id w).
Proof.
  unfold deliverStop, onstop.
  destruct (enc_state_of id w) as [[| | |] |]; cbv zeta; calm_chain.
Qed.

Lemma calm_domeKey_f (key : string) (w : World) : calm w (domeKey_f key w).
Proof. unfold domeKey_f. calm_cases; cbv zeta; calm_chain. Qed.

Lemma calm_domeKey_e (key : string) (w : World) : calm w (domeKey_e key w).
Proof. unfold domeKey_e. calm_cases; [apply calm_exportDomeFrame | apply calm_refl]. Qed.

Lemma calm_recordingKey_r (key : string) (w : World) : calm w (recordingKey_r key w).
Proof.
  unfold recordingKey_r. calm_cases; [apply calm_toggleRecording | calm_chain | apply calm_refl].
Qed.

Lemma calm_recordingKey_i (e : Env) (key : string) (w : World) :
  calm w (recordingKey_i e key w).
Proof.
  unfold recordingKey_i. calm_cases;
    [apply calm_exportSingleFrame | calm_chain | apply calm_refl].
Qed.

(** ** The capture rig *)

Lemma rig_ok_flags_same (w w' : World) : flags_same w w' -> rig_ok w -> rig_ok w'.
Proof. unfold rig_ok. intros [A B] H. rewrite A, B. exact H. Qed.

Lemma rig_ok_calm (w w' : World) : calm w w' -> rig_ok w -> rig_ok w'.
Proof. intros [H _]. apply rig_ok_flags_same, H. Qed.

Lemma flags_same_setupDomeProjection (w : World) :
  DOME_MODE (dome (setupDomeProjection w)) = DOME_MODE (dome w) /\
  cubeCamera (dome (setupDomeProjection w)) = true.
Proof.
  unfold setupDomeProjection.
  destruct (calm_console_logs
              [ rule; "DOME PROJECTION MODE INITIALIZED"; rule;
                "Output Resolution: " ++ by_ DOME_OUTPUT_RESOLUTION DOME_OUTPUT_RESOLUTION;
                "Target FPS: " ++ String_of_Z DOME_TARGET_FPS;
                "Cubemap Resolution: " ++ String_of_Z CUBE_RESOLUTION;
                "";
                "KEYBOARD CONTROLS:";
                "  D - Toggle dome mode on/off";
                "  F - Toggle fullscreen 1:1 aspect ratio";
                "  E - Export current frame as PNG";
                "  R - Start/Stop video recording";
                "  I - Export single high-res frame";
                "  S - Start/Stop image sequence";
                rule ] (set_cubeCamera true w)) as [[A B] _].
  cbv zeta. rewrite A, B. split; reflexivity.
Qed.

Lemma seq_same_setupDomeProjection (w : World) : seq_same w (setupDomeProjection w).
Proof.
  unfold setupDomeProjection. cbv zeta.
  eapply seq_same_trans; [|apply calm_console_logs]. repeat split.
Qed.

(** However the [d] branch is entered, it leaves dome mode with a rig. *)
Lemma rig_ok_domeKey_d (e : Env) (key : string) (w : World) :
  rig_ok w -> rig_ok (domeKey_d e key w).
Proof.
  intros Hok. unfold domeKey_d. destruct (key_is key "d" "D"); [|exact Hok].
  cbv zeta.
  set (w2 := console_log _ (set_DOME_MODE _ w)).
  assert (Hm2 : DOME_MODE (dome w2) = negb (DOME_MODE (dome w))) by reflexivity.
  assert (Hc2 : cubeCamera (dome w2) = cubeCamera (dome w)) by reflexivity.
  destruct (DOME_MODE (dome w2) && negb (cubeCamera (dome w2))) eqn:Hif.
  - destruct (flags_same_setupDomeProjection w2) as [A B].
    generalize dependent (setupDomeProjection w2). intros w3 A B.
    unfold rig_ok. intros _. exact B.
  - generalize dependent w2. intros w2 Hm2 Hc2 Hif.
    unfold rig_ok. cbn. intros Hm. rewrite Hm in Hif. cbn in Hif.
    destruct (cubeCamera (dome w2)); [reflexivity | discriminate].
Qed.

Lemma seq_same_domeKey_d (e : Env) (key : string) (w : World) :
  seq_same w (domeKey_d e key w).
Proof.
  unfold domeKey_d. destruct (key_is key "d" "D"); [|repeat split].
  cbv zeta.
  set (w2 := console_log _ (set_DOME_MODE _ w)).
  assert (H2 : seq_same w w2) by (repeat split).
  destruct (DOME_MODE (dome w2) && negb (cubeCamera (dome w2))).
  - eapply seq_same_trans; [exact H2|].
    eapply seq_same_trans; [apply seq_same_setupDomeProjection|].
    generalize (setupDomeProjection w2). intros w3. repeat split.
  - eapply seq_same_trans; [exact H2|]. generalize w2. intros w3. repeat split.
Qed.

(** ** The image sequence *)

Lemma sequence_ok_seq_same (w w' : World) : seq_same w w' -> sequence_ok w -> sequence_ok w'.
Proof. unfold sequence_ok. intros (A & B & C) H. rewrite A, B, C. exact H. Qed.

Lemma sequence_ok_calm (w w' : World) : calm w w' -> sequence_ok w -> sequence_ok w'.
Proof. intros [_ H]. apply sequence_ok_seq_same, H. Qed.

Lemma flags_same_startImageSequence (w : World) : flags_same w (startImageSequence w).
Proof. break_world w. repeat split. Qed.

Lemma flags_same_stopImageSequence (e : Env) (w : World) :
  flags_same w (stopImageSequence e w).
Proof.
  unfold stopImageSequence. cbv zeta. rewrite schedule_downloads_eq.
  break_world w. repeat split.
Qed.

Lemma flags_same_capture (w : World) : flags_same w (captureImageSequenceFrame w).
Proof. unfold captureImageSequenceFrame. break_world w. split_ifs; repeat split. Qed.

Lemma sequence_ok_start (w : World) : sequence_ok (startImageSequence w).
Proof.
  destruct (startImageSequence_effect w) as (A & B & C & _).
  unfold sequence_ok. rewrite A, B, C. split; [reflexivity | discriminate].
Qed.

Lemma sequence_ok_stop (e : Env) (w : World) : sequence_ok (stopImageSequence e w).
Proof.
  destruct (stopImageSequence_effect e w) as (A & B & _).
  unfold sequence_ok. rewrite A, B. split; [discriminate | reflexivity].
Qed.

Lemma capture_idle (w : World) :
  imageSequenceMode (rec w) = false -> captureImageSequenceFrame w = w.
Proof. intros H. unfold captureImageSequenceFrame. rewrite H. reflexivity. Qed.

Lemma set_canvas_same (w : World) : set_canvas (canvas (host w)) w = w.
Proof. break_world w. reflexivity. Qed.

Lemma sequence_ok_capture (w : World) :
  sequence_ok w -> sequence_ok (captureImageSequenceFrame w).
Proof.
  intros Hok. destruct (imageSequenceMode (rec w)) eqn:Hm;
    [|rewrite capture_idle by exact Hm; exact Hok].
  pose proof (capture_effect (canvas (host w)) w Hm) as (A & B & C & _).
  rewrite set_canvas_same in A, B, C.
  destruct Hok as [Hc _]. unfold sequence_ok. rewrite A, B, C.
  split; [|discriminate]. intros _. rewrite (Hc Hm), length_app. cbn. lia.
Qed.

Lemma flags_same_render (e : Env) (w : World) : flags_same w (render e w).
Proof.
  unfold render, render_delta, clock_getDelta, isDomeMode, renderDome, isImageSequenceMode,
    captureImageSequenceFrame.
  break_world w. split_ifs; repeat split.
Qed.

Lemma sequence_ok_render (e : Env) (w : World) : sequence_ok w -> sequence_ok (render e w).
Proof.
  intros Hok. unfold render, render_delta.
  assert (G : forall v, sequence_ok v ->
            sequence_ok (if isDomeMode v
                         then (let w0 := renderDome v in
                               if isImageSequenceMode w0
                               then captureImageSequenceFrame w0 else w0)
                         else set_canvas (Standard (time (app v))) v)).
  { intros v Hv. destruct (isDomeMode v).
    - cbv zeta. pose proof (sequence_ok_calm _ _ (calm_renderDome v) Hv) as H1.
      destruct (isImageSequenceMode (renderDome v)); [apply sequence_ok_capture|]; exact H1.
    - eapply sequence_ok_calm; [apply calm_set_canvas | exact Hv]. }
  destruct (isDomeMode w).
  - cbv beta iota zeta. apply G. eapply sequence_ok_calm; [apply calm_set_time | exact Hok].
  - unfold clock_getDelta. destruct (clock_oldTime (app w)); cbv beta iota zeta; apply G;
      (eapply sequence_ok_calm; [|exact Hok]);
      (eapply calm_trans; [apply calm_set_clock | apply calm_set_time]).
Qed.

Lemma animate_cases (e : Env) (w : World) :
  animate e w = render e w \/
  animate e w = render e (snd (shouldRenderDomeFrame e w)) \/
  animate e w = snd (shouldRenderDomeFrame e w).
Proof.
  unfold animate. destruct (isDomeMode w); [|left; reflexivity].
  destruct (shouldRenderDomeFrame e w) as [b w1]. cbn [snd].
  destruct b; cbn [negb]; auto.
Qed.

Lemma flags_same_animate (e : Env) (w : World) : flags_same w (animate e w).
Proof.
  pose proof (calm_shouldRenderDomeFrame e w) as [Hp _].
  destruct (animate_cases e w) as [-> | [-> | ->]].
  - apply flags_same_render.
  - eapply flags_same_trans; [exact Hp | apply flags_same_render].
  - exact Hp.
Qed.

Lemma sequence_ok_animate (e : Env) (w : World) : sequence_ok w -> sequence_ok (animate e w).
Proof.
  intros Hok.
  pose proof (sequence_ok_calm _ _ (calm_shouldRenderDomeFrame e w) Hok) as Hp.
  destruct (animate_cases e w) as [-> | [-> | ->]].
  - apply sequence_ok_render, Hok.
  - apply sequence_ok_render, Hp.
  - exact Hp.
Qed.

Lemma flags_same_toggleImageSequence (e : Env) (w : World) :
  flags_same w (toggleImageSequence e w).
Proof.
  unfold toggleImageSequence. destruct (imageSequenceMode (rec w));
    [apply flags_same_stopImageSequence | apply flags_same_startImageSequence].
Qed.

Lemma sequence_ok_toggleImageSequence (e : Env) (w : World) :
  sequence_ok (toggleImageSequence e w).
Proof.
  unfold toggleImageSequence. destruct (imageSequenceMode (rec w));
    [apply sequence_ok_stop | apply sequence_ok_start].
Qed.

Lemma flags_same_recordingKey_s (e : Env) (key : string) (w : World) :
  flags_same w (recordingKey_s e key w).
Proof.
  unfold recordingKey_s. destruct (key_is key "s" "S"); [|repeat split].
  destruct (isDomeMode w); [apply flags_same_toggleImageSequence | repeat split].
Qed.

Lemma sequence_ok_recordingKey_s (e : Env) (key : string) (w : World) :
  sequence_ok w -> sequence_ok (recordingKey_s e key w).
Proof.
  intros Hok. unfold recordingKey_s. destruct (key_is key "s" "S"); [|exact Hok].
  destruct (isDomeMode w); [apply sequence_ok_toggleImageSequence|].
  eapply sequence_ok_calm; [apply calm_console_log | exact Hok].
Qed.

(** ** Every event keeps both invariants *)

Lemma invariants_step (w : World) (ev : Env * Event) :
  rig_ok w /\ sequence_ok w -> rig_ok (step w ev) /\ sequence_ok (step w ev).
Proof.
  intros [Hr Hs]. destruct ev as [e x].
  assert (Hcalm : forall v, calm w v -> rig_ok v /\ sequence_ok v).
  { intros v Hv. split; [eapply rig_ok_calm | eapply sequence_ok_calm]; eassumption. }
  destruct x as [key | | wd ht | id data | id | | c]; cbn [step].
  - unfold recordingKeydown, domeKeydown. cbv zeta.
    set (w1 := domeKey_d e key w).
    assert (H1 : rig_ok w1 /\ sequence_ok w1).
    { split; [apply rig_ok_domeKey_d, Hr|].
      eapply sequence_ok_seq_same; [apply seq_same_domeKey_d | exact Hs]. }
    set (w2 := recordingKey_i e key (recordingKey_r key (domeKey_e key (domeKey_f key w1)))).
    assert (H12 : calm w1 w2).
    { unfold w2. eapply calm_trans; [|apply calm_recordingKey_i].
      eapply calm_trans; [|apply calm_recordingKey_r].
      eapply calm_trans; [apply calm_domeKey_f | apply calm_domeKey_e]. }
    destruct H1 as [Hr1 Hs1].
    pose proof (rig_ok_calm _ _ H12 Hr1) as Hr2.
    pose proof (sequence_ok_calm _ _ H12 Hs1) as Hs2.
    split.
    + eapply rig_ok_flags_same; [apply flags_same_recordingKey_s | exact Hr2].
    + apply sequence_ok_recordingKey_s, Hs2.
  - split; [eapply rig_ok_flags_same; [apply flags_same_animate | exact Hr]
           | apply sequence_ok_animate, Hs].
  - apply Hcalm. unfold onWindowResize, onDomeWindowResize. cbv zeta.
    eapply calm_trans; [apply calm_set_inner | apply calm_setSize].
  - apply Hcalm, calm_deliverData.
  - apply Hcalm, calm_deliverStop.
  - apply Hcalm, calm_fireTimer.
  - destruct c; cbn [invoke].
    + apply Hcalm, calm_startRecording.
    + apply Hcalm, calm_stopRecording.
    + apply Hcalm, calm_toggleRecording.
    + apply Hcalm, calm_exportSingleFrame.
    + split; [eapply rig_ok_flags_same; [apply flags_same_startImageSequence | exact Hr]
             | apply sequence_ok_start].
    + split; [eapply rig_ok_flags_same; [apply flags_same_stopImageSequence | exact Hr]
             | apply sequence_ok_stop].
    + split; [eapply rig_ok_flags_same; [apply flags_same_toggleImageSequence | exact Hr]
             | apply sequence_ok_toggleImageSequence].
    + split; [eapply rig_ok_flags_same; [apply flags_same_capture | exact Hr]
             | apply sequence_ok_capture, Hs].
    + apply Hcalm, calm_exportDomeFrame.
    + apply Hcalm, calm_renderDomeFrameHighRes.
    + apply Hcalm, calm_shouldRenderDomeFrame.
    + apply Hcalm, calm_renderDome.
    + apply Hcalm, calm_incrementDomeFrameCount.
    + apply Hcalm, calm_resetDomeFrameCount.
Qed.

Lemma invariants_run (evs : list (Env * Event)) :
  forall w : World,
    rig_ok w /\ sequence_ok w -> rig_ok (run w evs) /\ sequence_ok (run w evs).
Proof.
  induction evs as [| ev evs IH]; intros w H; [exact H|].
  cbn [run fold_left]. apply (IH (step w ev)), invariants_step, H.
Qed.

Lemma invariants_initial (wd ht : Z) (ratio : Q) (vp9 : bool) (speed0 : Q) :
  rig_ok (initial wd ht ratio vp9 speed0) /\ sequence_ok (initial wd ht ratio vp9 speed0).
Proof. split; [discriminate | split; [discriminate | reflexivity]]. Qed.

(** X12.  In every state the page can reach, dome mode on means that the
    capture rig exists (it is created the first time dome mode is switched
    on and never removed), so that [renderDome] does draw the domemaster
    image of the scene as it is now, at the size of the drawing buffer. *)
Theorem dome_mode_has_its_rig :
  forall (wd ht : Z) (ratio : Q) (vp9 : bool) (speed0 : Q) (evs : list (Env * Event)),
    let w := run (initial wd ht ratio vp9 speed0) evs in
    (DOME_MODE (dome w) = true -> cubeCamera (dome w) = true) /\
    (DOME_MODE (dome w) = true ->
     canvas (host (renderDome w))
       = Domemaster (time (app w)) (domElement_width w) (domElement_height w)).
Proof.
  intros wd ht ratio vp9 speed0 evs w.
  destruct (invariants_run evs _ (invariants_initial wd ht ratio vp9 speed0)) as [Hr _].
  fold w in Hr. split; [exact Hr|].
  intros Hm. unfold renderDome. rewrite (Hr Hm). reflexivity.
Qed.

Lemma dome_mode_has_its_rig_witness :
  let w := run (initial 1920 1080 1 true (1 # 2))
               [ (mkEnv 0 0, KeyDown "d"); (mkEnv 10 0, KeyDown "d");
                 (mkEnv 20 0, KeyDown "D") ] in
  DOME_MODE (dome w) = true /\ cubeCamera (dome w) = true /\
  canvas (host (renderDome w)) = Domemaster 0 1920 1080.
Proof.
  intros w.
  assert (Hm : DOME_MODE (dome w) = true) by reflexivity.
  destruct (dome_mode_has_its_rig 1920 1080 1%Q true (1 # 2)%Q
              [ (mkEnv 0 0, KeyDown "d"); (mkEnv 10 0, KeyDown "d");
                (mkEnv 20 0, KeyDown "D") ]) as [A B].
  split; [exact Hm|]. split; [exact (A Hm)|]. exact (eq_trans (B Hm) eq_refl).
Defined.

(** X13.  In every state the page can reach: while an image sequence is
    active its frame counter equals the number of frames held in memory, so
    that the frames are numbered without gaps; and while none is active no
    frame is held. *)
Theorem image_sequence_counts_its_frames :
  forall (wd ht : Z) (ratio : Q) (vp9 : bool) (speed0 : Q) (evs : list (Env * Event)),
    let w := run (initial wd ht ratio vp9 speed0) evs in
    (imageSequenceMode (rec w) = true ->
     imageSequenceFrameCount (rec w) = Z.of_nat (List.length (imageSequenceFrames (rec w)))) /\
    (imageSequenceMode (rec w) = false -> imageSequenceFrames (rec w) = []).
Proof.
  intros wd ht ratio vp9 speed0 evs w.
  exact (proj2 (invariants_run evs _ (invariants_initial wd ht ratio vp9 speed0))).
Qed.

Lemma image_sequence_counts_its_frames_witness :
  let w := run (initial 1920 1080 1 true (1 # 2))
               [ (mkEnv 0 0, KeyDown "d"); (mkEnv 10 0, KeyDown "s");
                 (mkEnv 50 0, AnimationFrame); (mkEnv 60 0, AnimationFrame);
                 (mkEnv 90 0, AnimationFrame) ] in
  imageSequenceMode (rec w) = true /\
  imageSequenceFrameCount (rec w) = 2%Z /\
  List.length (imageSequenceFrames (rec w)) = 2%nat.
Proof.
  intros w.
  assert (Hm : imageSequenceMode (rec w) = true) by reflexivity.
  destruct (image_sequence_counts_its_frames 1920 1080 1%Q true (1 # 2)%Q
              [ (mkEnv 0 0, KeyDown "d"); (mkEnv 10 0, KeyDown "s");
                (mkEnv 50 0, AnimationFrame); (mkEnv 60 0, AnimationFrame);
                (mkEnv 90 0, AnimationFrame) ]) as [A _].
  split; [exact Hm|]. split; [exact (eq_trans (A Hm) eq_refl) | reflexivity].
Defined.

End Invariants.

(* ====================================================================== *)
(** * Part XV.  Further properties: the step machine of the page *)
(* ====================================================================== *)

Section ScrollTheorems.

Import Scroll.

(** Comparisons of keys stay folded while a handler is computed. *)
#[local] Arguments String.eqb : simpl never.

(** Compute, and split on every test that the computation gets stuck on. *)
Ltac scroll_ifs :=
  repeat (cbn;
          match goal with
          | |- context [if ?b then _ else _] => destruct b
          end);
  cbn.

Lemma row_range (k : Z) (r : StepRow) : row k = Some r -> (0 <= k <= 13)%Z.
Proof.
  unfold row. destruct (k <? 0)%Z eqn:Hk; [discriminate|].
  intros H. apply Z.ltb_ge in Hk.
  assert (Hn : (Z.to_nat k < List.length STEPS)%nat)
    by (apply nth_error_Some; rewrite H; discriminate).
  cbn in Hn. lia.
Qed.

Lemma row_defined (k : Z) : (0 <= k <= 13)%Z -> exists r, row k = Some r.
Proof.
  intros H.
  assert (C : (k = 0 \/ k = 1 \/ k = 2 \/ k = 3 \/ k = 4 \/ k = 5 \/ k = 6 \/ k = 7 \/
               k = 8 \/ k = 9 \/ k = 10 \/ k = 11 \/ k = 12 \/ k = 13)%Z) by lia.
  repeat (destruct C as [-> | C]; [eexists; reflexivity|]).
  subst k. eexists. reflexivity.
Qed.

(** The material that each row selects: the webcam's at steps 10 to 12. *)
Lemma material_of_row (k : Z) (r : StepRow) :
  row k = Some r ->
  material_of r = if (10 <=? k)%Z && (k <=? 12)%Z then "webcam" else "shiny".
Proof.
  intros H. pose proof (row_range k r H) as Hk.
  assert (C : (k = 0 \/ k = 1 \/ k = 2 \/ k = 3 \/ k = 4 \/ k = 5 \/ k = 6 \/ k = 7 \/
               k = 8 \/ k = 9 \/ k = 10 \/ k = 11 \/ k = 12 \/ k = 13)%Z) by lia.
  repeat (destruct C as [-> | C]; [cbv in H; injection H as <-; reflexivity|]).
  subst k. cbv in H. injection H as <-. reflexivity.
Qed.

(** A row that rotates has a rotation speed. *)
Lemma rotating_row_has_speed (k : Z) (r : StepRow) :
  row k = Some r ->
  p_rotation (effectParams r) = true -> finite (p_rotationSpeed (effectParams r)) = true.
Proof.
  intros H. pose proof (row_range k r H) as Hk.
  assert (C : (k = 0 \/ k = 1 \/ k = 2 \/ k = 3 \/ k = 4 \/ k = 5 \/ k = 6 \/ k = 7 \/
               k = 8 \/ k = 9 \/ k = 10 \/ k = 11 \/ k = 12 \/ k = 13)%Z) by lia.
  repeat (destruct C as [-> | C]; [cbv in H; injection H as <-; cbn; congruence|]).
  subst k. cbv in H. injection H as <-. cbn. congruence.
Qed.

(** What [animateToStep] has assigned when it returns, however it ends. *)
Lemma animateToStep_assigns (k : Z) (r : StepRow) (s : State) :
  row k = Some r ->
  let s' := fst (animateToStep k s) in
  isRotating s' = p_rotation (effectParams r) /\
  rotationSpeed s' = p_rotationSpeed (effectParams r) /\
  current_material s' = material_of r /\
  currentStep s' = currentStep s /\
  materials s' = materials s /\
  rotation_y s' = rotation_y s /\ rotation_z s' = rotation_z s /\
  map fst (text3DGoals s') = map fst (text3DGoals s) /\
  cameraGoal s' = Some (cameraPos r) /\
  (buttonTimers s <= buttonTimers s')%nat.
Proof.
  intros H. unfold animateToStep. rewrite H. unfold material_of.
  destruct (truthy (p_material (effectParams r))) as [m|];
    unfold lookup_material, animateToStep_rest, animateTexts, animate3DText;
    scroll_ifs; rewrite ?map_map; repeat split; auto.
Qed.

(** [animateToStep] throws exactly when the material of the row is not
    there. *)
Lemma animateToStep_outcome (k : Z) (r : StepRow) (s : State) :
  row k = Some r ->
  (snd (animateToStep k s) = TypeError
   <-> existsb (String.eqb (material_of r)) (materials s) = false).
Proof.
  intros H. unfold animateToStep. rewrite H. unfold material_of.
  destruct (truthy (p_material (effectParams r))) as [m|]; cbn;
    unfold lookup_material; cbn.
  - destruct (existsb (String.eqb m) (materials s)); cbn; split; congruence.
  - destruct (existsb (String.eqb "shiny") (materials s)); cbn; split; congruence.
Qed.

(** When it throws, the texts, the controller and the console are as they
    were, and the effect is left without a material. *)
Lemma animateToStep_thrown (k : Z) (s : State) :
  snd (animateToStep k s) = TypeError ->
  let s' := fst (animateToStep k s) in
  textGoals s' = textGoals s /\ text3DGoals s' = text3DGoals s /\
  controllerGoal s' = controllerGoal s /\ console s' = console s /\
  buttonsVisible s' = buttonsVisible s /\
  (forall r, row k = Some r -> effect_material s' = None).
Proof.
  unfold animateToStep. destruct (row k) as [r|]; [|intros _; repeat split; discriminate].
  destruct (truthy (p_material (effectParams r))) as [m|]; cbn;
    unfold lookup_material; cbn.
  - destruct (existsb (String.eqb m) (materials s)); cbn; [discriminate|].
    intros _. repeat split.
  - destruct (existsb (String.eqb "shiny") (materials s)); cbn; [discriminate|].
    intros _. repeat split.
Qed.

(** When it completes, the goals of the texts are those of [step]. *)
Lemma animateToStep_done (k : Z) (s : State) :
  snd (animateToStep k s) = Done ->
  let s' := fst (animateToStep k s) in
  text3DGoals s' = text3DGoals (animate3DText k s) /\
  textGoals s' = textGoals (animateTexts k s).
Proof.
  unfold animateToStep. destruct (row k) as [r|]; [|discriminate].
  destruct (truthy (p_material (effectParams r))) as [m|];
    unfold lookup_material, animateToStep_rest, animateTexts, animate3DText;
    scroll_ifs; try discriminate; intros _; split; reflexivity.
Qed.

(** The wheel handler either stays, or moves by one step inside the table
    and animates to the new step. *)
Lemma onTrigger_spec (y : Z) (s : State) :
  (0 <= currentStep s <= 13)%Z ->
  (((y <= 0)%Z \/ (13 <= currentStep s)%Z) /\ ((0 <= y)%Z \/ (currentStep s <= 0)%Z) /\
   onTrigger y s = (log ("Step: " ++ String_of_Z (currentStep s)) s, Done)) \/
  (exists k : Z,
     (0 <= k <= 13)%Z /\
     ((0 < y)%Z /\ k = (currentStep s + 1)%Z \/ (y < 0)%Z /\ k = (currentStep s - 1)%Z) /\
     let a := animateToStep k (set_currentStep k s) in
     onTrigger y s
       = (match snd a with
          | Done => log ("Step: " ++ String_of_Z (currentStep (fst a))) (fst a)
          | TypeError => fst a
          end, snd a)).
Proof.
  intros Hc. unfold onTrigger. change totalSteps with 14%Z.
  destruct ((0 <? y)%Z && (currentStep s <? 14 - 1)%Z) eqn:Hf.
  - right. apply andb_prop in Hf as [Hy Hlt].
    apply Z.ltb_lt in Hy. apply Z.ltb_lt in Hlt.
    exists (currentStep s + 1)%Z. split; [lia|]. split; [left; split; [lia | reflexivity]|].
    cbn [currentStep set_currentStep].
    destruct (animateToStep (currentStep s + 1) (set_currentStep (currentStep s + 1) s))
      as [s2 [|]]; reflexivity.
  - destruct ((y <? 0)%Z && (0 <? currentStep s)%Z) eqn:Hb.
    + right. apply andb_prop in Hb as [Hy Hgt].
      apply Z.ltb_lt in Hy. apply Z.ltb_lt in Hgt.
      exists (currentStep s - 1)%Z. split; [lia|].
      split; [right; split; [lia | reflexivity]|].
      cbn [currentStep set_currentStep].
      destruct (animateToStep (currentStep s - 1) (set_currentStep (currentStep s - 1) s))
        as [s2 [|]]; reflexivity.
    + left. apply andb_false_iff in Hf. apply andb_false_iff in Hb.
      rewrite !Z.ltb_ge in Hf, Hb. split; [lia|]. split; [lia | reflexivity].
Qed.

(** On the last step, a call that completes sets the timer of the buttons. *)
Lemma animateToStep_last (k : Z) (s : State) :
  currentStep s = 13%Z ->
  snd (animateToStep k s) = Done ->
  buttonTimers (fst (animateToStep k s)) = S (buttonTimers s).
Proof.
  intros Hc. unfold animateToStep. destruct (row k) as [r|]; [|discriminate].
  change totalSteps with 14%Z.
  destruct (truthy (p_material (effectParams r))) as [m|];
    unfold lookup_material, animateToStep_rest, animateTexts, animate3DText; cbn;
    match goal with
    | |- context [existsb ?f ?l] => destruct (existsb f l)
    end; cbn; try discriminate;
    destruct (hasInstruction s); cbn; rewrite Hc; reflexivity.
Qed.

(** ** The invariant of the machine *)

Lemma in_step_range (s : State) : in_step s -> (0 <= currentStep s <= 13)%Z.
Proof. intros (r & H & _). exact (row_range _ _ H). Qed.

Lemma well_formed_initial (present : nat -> bool) (instruction : bool) :
  well_formed (initial present instruction).
Proof.
  split; [|repeat split].
  eexists. split; [reflexivity|]. repeat split.
Qed.

Lemma well_formed_log (line : string) (s : State) : well_formed s -> well_formed (log line s).
Proof. intros H. exact H. Qed.

Lemma well_formed_animateToStep (k : Z) (s : State) :
  (0 <= k <= 13)%Z -> well_formed s ->
  well_formed (fst (animateToStep k (set_currentStep k s))).
Proof.
  intros Hk (_ & Hfin & Hshiny & Hkeys).
  destruct (row_defined k Hk) as [r Hr].
  destruct (animateToStep_assigns k r (set_currentStep k s) Hr)
    as (A & B & C & D & E & F & G & H & _).
  generalize dependent (fst (animateToStep k (set_currentStep k s))). intros s' A B C D E F G H.
  cbn in D, E, F, G, H.
  split; [|split; [|split]].
  - exists r. rewrite D. auto.
  - unfold rotation_finite. rewrite F, G. exact Hfin.
  - unfold has_shiny. rewrite E. exact Hshiny.
  - unfold keys_ok. rewrite H. exact Hkeys.
Qed.

Lemma well_formed_onTrigger (y : Z) (s : State) :
  well_formed s -> well_formed (fst (onTrigger y s)).
Proof.
  intros Hw. pose proof (in_step_range s (proj1 Hw)) as Hc.
  destruct (onTrigger_spec y s Hc) as [(_ & _ & ->) | (k & Hk & _ & ->)].
  - exact Hw.
  - pose proof (well_formed_animateToStep k s Hk Hw) as H.
    cbn [fst]. destruct (snd (animateToStep k (set_currentStep k s))); exact H.
Qed.

Lemma finite_js_add (a b : JsVal) :
  finite a = true -> finite b = true -> finite (js_add a b) = true.
Proof. destruct a, b; cbn; congruence. Qed.

Lemma well_formed_applyRotation (s : State) : well_formed s -> well_formed (applyRotation s).
Proof.
  intros Hw. unfold applyRotation. destruct (isRotating s) eqn:Hrot; [|exact Hw].
  destruct Hw as ((r & Hr & A & B & C) & (Fy & Fz) & Hshiny & Hkeys).
  assert (Fs : finite (rotationSpeed s) = true).
  { rewrite B. apply (rotating_row_has_speed _ _ Hr). rewrite <- A. exact Hrot. }
  split; [exists r; auto|]. split; [|split; assumption].
  split; apply finite_js_add; assumption.
Qed.

Lemma well_formed_step (s : State) (ev : Event) : well_formed s -> well_formed (step s ev).
Proof.
  intros Hw. destruct ev as [y | | | |]; cbn [step].
  - apply well_formed_onTrigger, Hw.
  - destruct (introPending s); [|exact Hw].
    destruct Hw as (Hin & Hfin & Hshiny & Hkeys).
    split; [exact Hin|]. split; [exact Hfin|]. split; [exact Hshiny|].
    unfold keys_ok, introTimer, animate3DText. cbn. rewrite map_map. exact Hkeys.
  - destruct (buttonTimers s); exact Hw.
  - unfold webcamGranted. destruct (existsb (String.eqb "webcam") (materials s)); [exact Hw|].
    destruct Hw as (Hin & Hfin & Hshiny & Hkeys).
    split; [exact Hin|]. split; [exact Hfin|]. split; [|exact Hkeys].
    unfold has_shiny in *. cbn. rewrite existsb_app, Hshiny. reflexivity.
  - apply well_formed_applyRotation, Hw.
Qed.

Lemma well_formed_run (evs : list Event) :
  forall s : State, well_formed s -> well_formed (run s evs).
Proof.
  induction evs as [| ev evs IH]; intros s H; [exact H|].
  cbn [run fold_left]. apply (IH (step s ev)), well_formed_step, H.
Qed.

(** The material of a state of the machine is one of two. *)
Lemma material_cases (s : State) :
  in_step s -> current_material s = "shiny" \/ current_material s = "webcam".
Proof.
  intros (r & Hr & _ & _ & Hm). rewrite Hm, (material_of_row _ _ Hr).
  destruct ((10 <=? currentStep s)%Z && (currentStep s <=? 12)%Z); auto.
Qed.

(** X14.  Whatever the wheel, the timers, the webcam and the render loop
    do, in whatever order: the current step stays inside the table, so that
    the row of the current step always exists; the rotation flag, the
    rotation speed and the material are those of that row, however the step
    was reached; and the material is [shiny] or [webcam], never the
    [multiColors] that [updateCubes] tests for. *)
Theorem scroll_state_follows_table :
  forall (present : nat -> bool) (instruction : bool) (evs : list Event),
    let s := run (initial present instruction) evs in
    (0 <= currentStep s < totalSteps)%Z /\
    (exists r : StepRow,
       row (currentStep s) = Some r /\
       isRotating s = p_rotation (effectParams r) /\
       rotationSpeed s = p_rotationSpeed (effectParams r) /\
       getCurrentMaterial s = material_of r) /\
    (getCurrentMaterial s = "shiny" \/ getCurrentMaterial s = "webcam").
Proof.
  intros present instruction evs s.
  destruct (well_formed_run evs _ (well_formed_initial present instruction)) as (Hin & _).
  fold s in Hin. pose proof (in_step_range s Hin) as Hc.
  split; [change totalSteps with 14%Z; lia|]. split; [exact Hin|].
  exact (material_cases s Hin).
Qed.

(** X15.  The rotation of the effect group is always a number.  The row of
    the last step has no rotation speed, and reaching it leaves
    [rotationSpeed] undefined; but that row does not rotate, and
    [applyRotation] only ever adds the speed of a row that does. *)
Theorem scroll_rotation_is_a_number :
  forall (present : nat -> bool) (instruction : bool),
    (forall evs : list Event,
       let s := run (initial present instruction) evs in
       finite (rotation_y s) = true /\ finite (rotation_z s) = true /\
       (isRotating s = true -> finite (rotationSpeed s) = true)) /\
    (exists evs : list Event,
       rotationSpeed (run (initial present instruction) evs) = Undefined).
Proof.
  intros present instruction. split.
  - intros evs s.
    destruct (well_formed_run evs _ (well_formed_initial present instruction))
      as ((r & Hr & A & B & _) & (Fy & Fz) & _).
    fold s in Hr, A, B, Fy, Fz. split; [exact Fy|]. split; [exact Fz|].
    intros Hrot. rewrite B. apply (rotating_row_has_speed _ _ Hr). rewrite <- A. exact Hrot.
  - exists (WebcamGranted :: repeat (Trigger 1) 13). destruct instruction; reflexivity.
Qed.

(** X16.  The wheel handler throws a [TypeError] exactly when it moves to
    one of the steps 10, 11 and 12, whose rows name the webcam material,
    while the webcam has not delivered that material.  The step has moved
    then, but the texts, the controller and the console are as they were,
    and the effect is left with no material.  Once the material is there,
    no movement of the wheel throws. *)
Theorem scroll_throws_without_webcam :
  forall (present : nat -> bool) (instruction : bool) (evs : list Event) (y : Z),
    let s := run (initial present instruction) evs in
    let r := onTrigger y s in
    (snd r = TypeError <->
     existsb (String.eqb "webcam") (materials s) = false /\
     currentStep (fst r) <> currentStep s /\
     (10 <= currentStep (fst r) <= 12)%Z) /\
    (snd r = TypeError ->
     textGoals (fst r) = textGoals s /\ text3DGoals (fst r) = text3DGoals s /\
     controllerGoal (fst r) = controllerGoal s /\ console (fst r) = console s /\
     effect_material (fst r) = None).
Proof.
  intros present instruction evs y s r.
  pose proof (well_formed_run evs _ (well_formed_initial present instruction)) as Hw.
  fold s in Hw. destruct Hw as (Hin & _ & Hshiny & _).
  pose proof (in_step_range s Hin) as Hc. unfold r.
  destruct (onTrigger_spec y s Hc) as [(_ & _ & ->) | (k & Hk & Hmove & ->)]; cbn [fst snd].
  - split; [|discriminate]. split; [discriminate|]. intros (_ & H & _). now elim H.
  - destruct (row_defined k Hk) as [rw Hr].
    pose proof (animateToStep_outcome k rw (set_currentStep k s) Hr) as Hout.
    pose proof (animateToStep_thrown k (set_currentStep k s)) as Hthrown.
    destruct (animateToStep_assigns k rw (set_currentStep k s) Hr)
      as (_ & _ & _ & D & _).
    rewrite (material_of_row _ _ Hr) in Hout.
    destruct (animateToStep k (set_currentStep k s)) as [s' o].
    cbn [fst snd] in *. change (materials (set_currentStep k s)) with (materials s) in Hout.
    change (currentStep s' = k) in D.
    destruct o.
    + split; [|discriminate]. split; [discriminate|]. intros (Hweb & _ & Hk2).
      cbn in Hk2. rewrite D in Hk2.
      assert (E : (10 <=? k)%Z && (k <=? 12)%Z = true)
        by (apply andb_true_intro; split; apply Z.leb_le; lia).
      rewrite E in Hout. destruct Hout as [_ Hout]. specialize (Hout Hweb). discriminate.
    + destruct Hout as [Hout _]. specialize (Hout eq_refl).
      split.
      * split; [|reflexivity]. intros _.
        destruct ((10 <=? k)%Z && (k <=? 12)%Z) eqn:E.
        -- apply andb_prop in E as [E1 E2]. apply Z.leb_le in E1. apply Z.leb_le in E2.
           split; [exact Hout|]. rewrite D. split; lia.
        -- unfold has_shiny in Hshiny. congruence.
      * intros _. destruct (Hthrown eq_refl) as (T1 & T2 & T3 & T4 & _ & T6).
        repeat split; auto. exact (T6 rw Hr).
Qed.

Lemma scroll_throws_without_webcam_witness :
  let s := run (initial (fun _ => true) true) (repeat (Trigger 1) 9) in
  currentStep s = 9%Z /\
  snd (onTrigger 1 s) = TypeError /\
  currentStep (fst (onTrigger 1 s)) = 10%Z /\
  effect_material (fst (onTrigger 1 s)) = None /\
  snd (onTrigger 1 (step s WebcamGranted)) = Done.
Proof.
  intros s.
  destruct (scroll_throws_without_webcam (fun _ => true) true (repeat (Trigger 1) 9) 1)
    as [[_ A] B].
  assert (T : snd (onTrigger 1 s) = TypeError).
  { apply A. split; [vm_compute; reflexivity|].
    split; [intros E; vm_compute in E; discriminate E|].
    vm_compute. split; discriminate. }
  split; [vm_compute; reflexivity|]. split; [exact T|]. split; [vm_compute; reflexivity|].
  split; [exact (proj2 (proj2 (proj2 (proj2 (B T)))))|]. vm_compute. reflexivity.
Defined.

(** ** Which text is shown *)

Lemma nth_error_mapi_from {A B : Type} (f : nat -> A -> B) (l : list A) :
  forall k i : nat, nth_error (mapi_from f k l) i = option_map (f (k + i)%nat) (nth_error l i).
Proof.
  induction l as [| a l IH]; intros k i.
  - destruct i; reflexivity.
  - destruct i as [| i]; cbn.
    + rewrite Nat.add_0_r. reflexivity.
    + rewrite IH. replace (S k + i)%nat with (k + S i)%nat by lia. reflexivity.
Qed.

Lemma shown3D_animate3DText (k : Z) (s : State) :
  (0 <= k <= 13)%Z -> keys_ok s ->
  shown3D (animate3DText k s) = ["text" ++ String_of_Z k].
Proof.
  intros Hk Hkeys. unfold shown3D, animate3DText.
  change (text3DGoals (set_text3DGoals ?l s)) with l.
  rewrite <- (map_map fst
                (fun key : string =>
                   (key, if match textStep key with
                            | Some t => (k =? t)%Z
                            | None => false
                            end then 1%Q else 0%Q))).
  unfold keys_ok in Hkeys. rewrite Hkeys.
  assert (C : (k = 0 \/ k = 1 \/ k = 2 \/ k = 3 \/ k = 4 \/ k = 5 \/ k = 6 \/ k = 7 \/
               k = 8 \/ k = 9 \/ k = 10 \/ k = 11 \/ k = 12 \/ k = 13)%Z) by lia.
  repeat (destruct C as [-> | C]; [reflexivity|]).
  subst k. reflexivity.
Qed.

(** X17.  After a movement of the wheel that completes, exactly one 3D text
    has been sent to full opacity, the one whose key carries the number of
    the current step; and among the HTML texts that the page has, the one of
    the current step has been sent to full opacity and every other one to
    zero. *)
Theorem scroll_shows_current_text :
  forall (present : nat -> bool) (instruction : bool) (evs : list Event) (y : Z),
    let s := run (initial present instruction) evs in
    let r := onTrigger y s in
    snd r = Done ->
    currentStep (fst r) <> currentStep s ->
    shown3D (fst r) = ["text" ++ String_of_Z (currentStep (fst r))] /\
    (forall (i : nat) (q : Q),
       nth_error (textGoals (fst r)) i = Some (Some q) ->
       q = if (Z.of_nat i =? currentStep (fst r))%Z then 1%Q else 0%Q).
Proof.
  intros present instruction evs y s r.
  pose proof (well_formed_run evs _ (well_formed_initial present instruction)) as Hw.
  fold s in Hw. destruct Hw as (Hin & _ & _ & Hkeys).
  pose proof (in_step_range s Hin) as Hc. unfold r.
  destruct (onTrigger_spec y s Hc) as [(_ & _ & ->) | (k & Hk & Hmove & ->)]; cbn [fst snd].
  - intros _ H. now elim H.
  - destruct (row_defined k Hk) as [rw Hr].
    destruct (animateToStep_assigns k rw (set_currentStep k s) Hr) as (_ & _ & _ & D & _).
    pose proof (animateToStep_done k (set_currentStep k s)) as Hdone.
    destruct (animateToStep k (set_currentStep k s)) as [s' o].
    cbn [fst snd] in *. change (currentStep s' = k) in D.
    intros Ho _. subst o. destruct (Hdone eq_refl) as [G3 GT].
    change (currentStep (log ?l s')) with (currentStep s').
    change (textGoals (log ?l s')) with (textGoals s').
    change (shown3D (log ?l s')) with (shown3D s').
    rewrite D. split.
    + unfold shown3D. rewrite G3.
      exact (shown3D_animate3DText k (set_currentStep k s) Hk Hkeys).
    + intros i q. rewrite GT. unfold animateTexts.
      change (textGoals (set_textGoals ?l ?t)) with l.
      rewrite nth_error_mapi_from.
      destruct (nth_error (textGoals (set_currentStep k s)) i) as [[q0|]|]; cbn;
        congruence.
Qed.

Lemma scroll_shows_current_text_witness :
  let r := onTrigger 1 (run (initial (fun _ => true) true) [Trigger 1; Trigger 1]) in
  currentStep (fst r) = 3%Z /\
  shown3D (fst r) = ["text3"] /\
  nth_error (textGoals (fst r)) 3 = Some (Some 1%Q) /\
  nth_error (textGoals (fst r)) 2 = Some (Some 0%Q).
Proof.
  intros r.
  assert (Ho : snd r = Done) by (vm_compute; reflexivity).
  assert (Hm : currentStep (fst r) <> 2%Z) by (intros E; vm_compute in E; discriminate E).
  destruct (scroll_shows_current_text (fun _ => true) true [Trigger 1; Trigger 1] 1 Ho Hm)
    as [A _].
  split; [vm_compute; reflexivity|]. split; [exact (eq_trans A eq_refl)|].
  split; vm_compute; reflexivity.
Defined.

(** ** The buttons of the last step *)

(** X18.  The timer that shows the buttons of the last step is not
    cancelled by leaving that step.  From step 12: one movement forward, one
    movement back, and then the timer: the page is at step 12 and the
    buttons are visible. *)
Theorem scroll_buttons_outlive_last_step :
  forall (present : nat -> bool) (instruction : bool) (evs : list Event),
    let s := run (initial present instruction) evs in
    currentStep s = 12%Z ->
    let s' := run s [Trigger 1; Trigger (-1); ButtonTimer] in
    currentStep s' = 12%Z /\ buttonsVisible s' = true.
Proof.
  intros present instruction evs s Hs.
  pose proof (well_formed_run evs _ (well_formed_initial present instruction)) as Hw.
  fold s in Hw. cbn [run fold_left].
  (* forward: to the last step, which sets the timer *)
  assert (H1 : currentStep (step s (Trigger 1)) = 13%Z /\
               (1 <= buttonTimers (step s (Trigger 1)))%nat).
  { cbn [step].
    assert (Hc : (0 <= currentStep s <= 13)%Z) by lia.
    destruct (onTrigger_spec 1 s Hc) as [(? & ? & _) | (k & Hk & Hmove & E)]; [lia|].
    rewrite E. cbn [fst]. assert (k = 13%Z) by lia. subst k.
    destruct (row_defined 13 Hk) as [rw Hr].
    destruct (animateToStep_assigns 13 rw (set_currentStep 13 s) Hr) as (_ & _ & _ & D & _).
    pose proof (animateToStep_outcome 13 rw (set_currentStep 13 s) Hr) as Hout.
    pose proof (animateToStep_last 13 (set_currentStep 13 s) eq_refl) as Hlast.
    rewrite (material_of_row _ _ Hr) in Hout.
    destruct Hw as (_ & _ & Hshiny & _). unfold has_shiny in Hshiny.
    destruct (animateToStep 13 (set_currentStep 13 s)) as [s2 o].
    cbn [fst snd] in *. change (currentStep s2 = 13%Z) in D.
    destruct o.
    - specialize (Hlast eq_refl). cbn. rewrite Hlast. split; [exact D | lia].
    - destruct Hout as [Hout _]. specialize (Hout eq_refl). cbn in Hout. congruence. }
  pose proof (well_formed_step s (Trigger 1) Hw) as Hw1.
  generalize dependent (step s (Trigger 1)). intros s1 [Hc1 Ht1] Hw1.
  (* back: the timer stays *)
  assert (H2 : currentStep (step s1 (Trigger (-1))) = 12%Z /\
               (1 <= buttonTimers (step s1 (Trigger (-1))))%nat).
  { cbn [step].
    assert (Hc : (0 <= currentStep s1 <= 13)%Z) by lia.
    destruct (onTrigger_spec (-1) s1 Hc) as [(? & ? & _) | (k & Hk & Hmove & E)]; [lia|].
    rewrite E. cbn [fst].
    assert (k = 12%Z) by lia. subst k.
    destruct (row_defined 12 Hk) as [rw Hr].
    destruct (animateToStep_assigns 12 rw (set_currentStep 12 s1) Hr)
      as (_ & _ & _ & D & _ & _ & _ & _ & _ & T).
    destruct (animateToStep 12 (set_currentStep 12 s1)) as [s2 o].
    cbn [fst snd] in *. change (currentStep s2 = 12%Z) in D.
    change (buttonTimers (set_currentStep 12 s1)) with (buttonTimers s1) in T.
    destruct o; cbn; split; (exact D || lia). }
  generalize dependent (step s1 (Trigger (-1))). intros s2 [Hc2 Ht2].
  cbn [step]. destruct (buttonTimers s2) as [| n]; [lia|].
  split; [exact Hc2 | reflexivity].
Qed.

Lemma scroll_buttons_outlive_last_step_witness :
  let s := run (initial (fun _ => true) true) (WebcamGranted :: repeat (Trigger 1) 12) in
  let s' := run s [Trigger 1; Trigger (-1); ButtonTimer] in
  currentStep s = 12%Z /\ currentStep s' = 12%Z /\ buttonsVisible s' = true.
Proof.
  intros s s'.
  assert (Hs : currentStep s = 12%Z) by (vm_compute; reflexivity).
  split; [exact Hs|].
  exact (scroll_buttons_outlive_last_step (fun _ => true) true
           (WebcamGranted :: repeat (Trigger 1) 12) Hs).
Defined.

End ScrollTheorems.

(* ====================================================================== *)
(** * Part XVI.  Further properties: the tube and scene 2 of unborn.js *)
(* ====================================================================== *)

Section UnbornTheorems.

Import Unborn.
Local Open Scope Q_scope.

(** ** The steps of scene 2 *)

Lemma at_index_cameraSteps (k : Z) :
  (0 <= k <= 6)%Z -> exists goal, at_index cameraSteps k = Some goal.
Proof.
  intros H.
  assert (C : (k = 0 \/ k = 1 \/ k = 2 \/ k = 3 \/ k = 4 \/ k = 5 \/ k = 6)%Z) by lia.
  repeat (destruct C as [-> | C]; [eexists; reflexivity|]).
  subst k. eexists. reflexivity.
Qed.

Lemma at_index_cameraSteps_none (k : Z) : (7 <= k)%Z -> at_index cameraSteps k = None.
Proof.
  intros H. unfold at_index. destruct (k <? 0)%Z; [reflexivity|].
  apply nth_error_None. cbn. lia.
Qed.

(** What the wheel handler does, by cases. *)
Lemma unborn_onTrigger_spec (y : Z) (s : State) :
  (0 <= scene2Step s <= 7)%Z ->
  ((0 < y)%Z /\ (scene2Step s < 6)%Z /\
   exists goal, at_index cameraSteps (scene2Step s + 1) = Some goal /\
     onTrigger y s
       = (set_pendingStarts (S (pendingStarts s))
            (set_cameraGoal (Some goal) (set_scene2Step (scene2Step s + 1) s)), Done)) \/
  ((0 < y)%Z /\ scene2Step s = 6%Z /\
   onTrigger y s = (set_scene2Step 7 s, TypeError)) \/
  ((y < 0)%Z /\ (0 < scene2Step s)%Z /\
   exists goal, at_index cameraSteps (scene2Step s - 1) = Some goal /\
     onTrigger y s
       = (set_pendingStarts (S (pendingStarts s))
            (set_cameraGoal (Some goal) (set_scene2Step (scene2Step s - 1) s)), Done)) \/
  (((y <= 0)%Z \/ scene2Step s = 7%Z) /\ ((0 <= y)%Z \/ scene2Step s = 0%Z) /\
   onTrigger y s = (s, Done)).
Proof.
  intros Hc. unfold onTrigger. change totalSteps with 7%Z.
  destruct (0 <? y)%Z eqn:Hy; cbn [andb].
  - apply Z.ltb_lt in Hy.
    assert (Hneg : (y <? 0)%Z = false) by (apply Z.ltb_ge; lia).
    destruct (scene2Step s <? 7)%Z eqn:Hlt.
    + apply Z.ltb_lt in Hlt. unfold changeCameraAndText. cbn [scene2Step set_scene2Step].
      destruct (Z.eq_dec (scene2Step s) 6) as [E | E].
      * right. left. rewrite E. cbn. split; [exact Hy|]. split; reflexivity.
      * left. destruct (at_index_cameraSteps (scene2Step s + 1)) as [goal Hg]; [lia|].
        rewrite Hg. cbn [scene2Step set_pendingStarts set_cameraGoal set_scene2Step].
        rewrite Hneg. cbn [andb].
        split; [exact Hy|]. split; [lia|]. exists goal. split; reflexivity.
    + apply Z.ltb_ge in Hlt. rewrite Hneg. cbn [andb].
      right. right. right. split; [right; lia|]. split; [left; lia | reflexivity].
  - apply Z.ltb_ge in Hy. destruct ((y <? 0)%Z && (0 <? scene2Step s)%Z) eqn:Hb.
    + apply andb_prop in Hb as [Hn Hp]. apply Z.ltb_lt in Hn. apply Z.ltb_lt in Hp.
      right. right. left. unfold changeCameraAndText. cbn [scene2Step set_scene2Step].
      destruct (at_index_cameraSteps (scene2Step s - 1)) as [goal Hg]; [lia|].
      rewrite Hg. split; [exact Hn|]. split; [exact Hp|]. exists goal. split; reflexivity.
    + apply andb_false_iff in Hb. rewrite !Z.ltb_ge in Hb.
      right. right. right. split; [left; exact Hy|]. split; [lia | reflexivity].
Qed.

Lemma unborn_step_range (s : State) (ev : Event) :
  (0 <= scene2Step s <= 7)%Z -> (0 <= scene2Step (step s ev) <= 7)%Z.
Proof.
  intros Hc. destruct ev as [y | | | | | percent]; cbn [step].
  - destruct (unborn_onTrigger_spec y s Hc)
      as [(_ & H & g & _ & ->) | [(_ & _ & ->) | [(_ & H & g & _ & ->) | (_ & _ & ->)]]];
      cbn; lia.
  - destruct (pendingStarts s); [exact Hc|]. unfold onStart. cbn.
    destruct (3 <=? scene2Step s)%Z; cbn; destruct (scene2Step s =? 6)%Z; cbn; exact Hc.
  - destruct (introPending s); exact Hc.
  - destruct (textTimers s); [exact Hc|]. unfold textTimer. cbn.
    destruct (at_index (scene2texts s) (scene2Step s)); exact Hc.
  - destruct (buttonTimers s); exact Hc.
  - exact Hc.
Qed.

Lemma unborn_run_range (evs : list Event) :
  forall s : State, (0 <= scene2Step s <= 7)%Z -> (0 <= scene2Step (run s evs) <= 7)%Z.
Proof.
  induction evs as [| ev evs IH]; intros s H; [exact H|].
  cbn [run fold_left]. apply (IH (step s ev)), unborn_step_range, H.
Qed.

(** X19.  Scene 2 has seven rows of camera positions, numbered 0 to 6, but
    its wheel handler lets the step reach 7: the step stays between 0 and 7,
    and the handler throws a [TypeError] exactly on a forward movement from
    step 6, which leaves the step at 7 with no tween created.  Every other
    movement sends the camera to the row of the new step.  From step 7 a
    movement back returns to step 6. *)
Theorem unborn_step_overruns_table :
  forall (percent : Q) (visible : bool) (evs : list Event) (y : Z),
    let s := run (initial percent visible) evs in
    let r := onTrigger y s in
    (0 <= scene2Step s <= totalSteps)%Z /\
    (snd r = TypeError <-> (0 < y)%Z /\ scene2Step s = 6%Z) /\
    (snd r = TypeError ->
     scene2Step (fst r) = 7%Z /\ cameraGoal (fst r) = cameraGoal s /\
     pendingStarts (fst r) = pendingStarts s) /\
    (snd r = Done -> scene2Step (fst r) <> scene2Step s ->
     cameraGoal (fst r) = at_index cameraSteps (scene2Step (fst r)) /\
     cameraGoal (fst r) <> None /\
     pendingStarts (fst r) = S (pendingStarts s)) /\
    (scene2Step s = 7%Z -> (y < 0)%Z -> scene2Step (fst r) = 6%Z /\ snd r = Done).
Proof.
  intros percent visible evs y s r.
  assert (Hc : (0 <= scene2Step s <= 7)%Z).
  { apply unborn_run_range. cbn. lia. }
  split; [exact Hc|]. unfold r.
  destruct (unborn_onTrigger_spec y s Hc)
    as [(Hy & Hlt & goal & Hg & ->) | [(Hy & E & ->) | [(Hy & Hp & goal & Hg & ->)
        | (H1 & H2 & ->)]]]; cbn [fst snd].
  - split; [split; [discriminate | lia]|]. split; [discriminate|]. split.
    + intros _ _. cbn. rewrite Hg. repeat split. discriminate.
    + intros E. lia.
  - split; [split; [intros _; split; assumption | reflexivity]|]. split.
    + intros _. repeat split.
    + split; [discriminate|]. intros _ Hn. lia.
  - split; [split; [discriminate | lia]|]. split; [discriminate|]. split.
    + intros _ _. cbn. rewrite Hg. repeat split. discriminate.
    + intros E _. cbn. split; [lia | reflexivity].
  - split; [split; [discriminate | lia]|]. split; [discriminate|]. split.
    + intros _ H. now elim H.
    + intros E Hn. lia.
Qed.

Lemma unborn_step_overruns_table_witness :
  let s := run (initial 0 false) (repeat (Trigger 1) 6) in
  scene2Step s = 6%Z /\
  snd (onTrigger 1 s) = TypeError /\
  scene2Step (fst (onTrigger 1 s)) = 7%Z /\
  cameraGoal (fst (onTrigger 1 s)) = Some (10, 10, -300)%Z.
Proof.
  intros s.
  assert (Hs : scene2Step s = 6%Z) by (vm_compute; reflexivity).
  destruct (unborn_step_overruns_table 0 false (repeat (Trigger 1) 6) 1)
    as (_ & [_ A] & B & _).
  assert (T : snd (onTrigger 1 s) = TypeError) by (apply A; split; [lia | exact Hs]).
  destruct (B T) as (B1 & B2 & _).
  split; [exact Hs|]. split; [exact T|]. split; [exact B1|].
  exact (eq_trans B2 eq_refl).
Defined.

End UnbornTheorems.

(* ====================================================================== *)
(** * Part XVII.  Further properties: the texts of the tube *)
(* ====================================================================== *)

Section TubeTexts.

Import Unborn.
Local Open Scope Q_scope.

Lemma fade_bounds (sp : Q) : 0 <= sp -> sp < 1 -> 0 <= fade sp <= 1 /\ (0 < sp -> 0 < fade sp).
Proof.
  intros H0 H1. unfold fade.
  assert (E1 : sp / (2 # 10) == sp * 5) by field.
  assert (E2 : (sp - (8 # 10)) / (2 # 10) == (sp - (8 # 10)) * 5) by field.
  destruct (Qlt_le_dec sp (2 # 10)); [lra|].
  destruct (Qlt_le_dec (8 # 10) sp); lra.
Qed.

(** Inside its segment, a text is at the place [segmentProgress]. *)
Lemma segment_progress (index : Z) (percent : Q) :
  let segmentSize := 1 / inject_Z numTexts in
  let textStart := inject_Z index * segmentSize in
  Qle_bool textStart percent && negb (Qle_bool (textStart + segmentSize) percent) = true ->
  inject_Z index <= percent * 6 /\ percent * 6 < inject_Z index + 1 /\
  (percent - textStart) / segmentSize == percent * 6 - inject_Z index.
Proof.
  intros segmentSize textStart H.
  apply andb_prop in H as [Ha Hb]. apply Qle_bool_iff in Ha.
  apply negb_true_iff in Hb.
  assert (Hlt : percent < textStart + segmentSize).
  { apply Qnot_le_lt. intros C. apply Qle_bool_iff in C. congruence. }
  assert (Es : segmentSize == 1 # 6) by reflexivity.
  assert (Et : textStart == inject_Z index * (1 # 6)) by (unfold textStart; rewrite Es; reflexivity).
  assert (Ed : (percent - textStart) / segmentSize == (percent - textStart) * 6)
    by (rewrite Es; field).
  rewrite Ed. lra.
Qed.

(** X20.  Along the tube, the opacity that [animate3DTextByPercentage]
    gives to a text lies between 0 and 1, and at no place of the tube are
    two texts visible at once. *)
Theorem tube_texts_one_at_a_time :
  forall percent : Q,
    (forall index : Z, 0 <= targetOpacity index percent <= 1) /\
    (forall i j : Z,
       ~ targetOpacity i percent == 0 -> ~ targetOpacity j percent == 0 -> i = j).
Proof.
  intros percent. split.
  - intros index. unfold targetOpacity.
    destruct (Qle_bool (inject_Z index * (1 / inject_Z numTexts)) percent &&
              negb (Qle_bool (inject_Z index * (1 / inject_Z numTexts)
                              + 1 / inject_Z numTexts) percent)) eqn:Hin; [|lra].
    destruct (segment_progress index percent Hin) as (A & B & E).
    cbv zeta in E.
    assert (F : 0 <= fade ((percent - inject_Z index * (1 / inject_Z numTexts))
                           / (1 / inject_Z numTexts)) <= 1).
    { apply fade_bounds; rewrite E; lra. }
    exact F.
  - assert (G : forall k : Z, ~ targetOpacity k percent == 0 ->
                inject_Z k <= percent * 6 /\ percent * 6 < inject_Z k + 1).
    { intros k Hk. unfold targetOpacity in Hk.
      destruct (Qle_bool (inject_Z k * (1 / inject_Z numTexts)) percent &&
                negb (Qle_bool (inject_Z k * (1 / inject_Z numTexts)
                                + 1 / inject_Z numTexts) percent)) eqn:Hin.
      - destruct (segment_progress k percent Hin) as (A & B & _). split; assumption.
      - exfalso. apply Hk. reflexivity. }
    intros i j Hi Hj. destruct (G i Hi) as [I1 I2]. destruct (G j Hj) as [J1 J2].
    assert (L1 : inject_Z i < inject_Z (j + 1)) by (rewrite inject_Z_plus; change (inject_Z 1) with 1; lra).
    assert (L2 : inject_Z j < inject_Z (i + 1)) by (rewrite inject_Z_plus; change (inject_Z 1) with 1; lra).
    rewrite <- Zlt_Qlt in L1, L2. lia.
Qed.

(** X21.  Over the range that the tube's tween covers, up to 0.96, the
    HTML texts and the 3D texts get the same opacity, and at the end of the
    tube the last text is at full opacity.  Beyond that range the two
    differ: the HTML text is hidden while the 3D text is still visible. *)
Theorem tube_html_and_3d_agree :
  forall percent : Q,
    (percent <= TUBE_END ->
     forall index : Z, styleOpacity index percent = targetOpacity index percent) /\
    targetOpacity 5 TUBE_END == 1 /\
    (TUBE_END < percent -> percent < 1 ->
     styleOpacity 5 percent == 0 /\ 0 < targetOpacity 5 percent).
Proof.
  intros percent. split; [|split].
  - intros H index. unfold styleOpacity.
    apply Qle_bool_iff in H. rewrite H. cbn [negb]. rewrite andb_false_r. reflexivity.
  - reflexivity.
  - intros H0 H1. split.
    + unfold styleOpacity.
      assert (E : Qle_bool percent TUBE_END = false).
      { destruct (Qle_bool percent TUBE_END) eqn:C; [|reflexivity].
        apply Qle_bool_iff in C. lra. }
      rewrite E. reflexivity.
    + unfold targetOpacity. unfold TUBE_END in H0.
      assert (Hin : Qle_bool (inject_Z 5 * (1 / inject_Z numTexts)) percent &&
                    negb (Qle_bool (inject_Z 5 * (1 / inject_Z numTexts)
                                    + 1 / inject_Z numTexts) percent) = true).
      { apply andb_true_intro. split.
        - apply Qle_bool_iff. change (inject_Z 5 * (1 / inject_Z numTexts)) with ((5 # 1) * (1 # 6)).
          lra.
        - apply negb_true_iff.
          destruct (Qle_bool (inject_Z 5 * (1 / inject_Z numTexts) + 1 / inject_Z numTexts)
                             percent) eqn:C; [|reflexivity].
          apply Qle_bool_iff in C.
          change (inject_Z 5 * (1 / inject_Z numTexts) + 1 / inject_Z numTexts)
            with ((5 # 1) * (1 # 6) + (1 # 6)) in C.
          lra. }
      rewrite Hin. destruct (segment_progress 5 percent Hin) as (A & B & E).
      cbv zeta in E. change (inject_Z 5) with (5 # 1) in *.
      match goal with
      | |- 0 < fade ?t => set (sp := t) in *
      end.
      assert (S0 : 0 <= sp) by (rewrite E; lra).
      assert (S1 : sp < 1) by (rewrite E; lra).
      assert (S2 : 0 < sp) by (rewrite E; lra).
      exact (proj2 (fade_bounds sp S0 S1) S2).
Qed.

Lemma tube_html_and_3d_agree_witness :
  styleOpacity 2 (40 # 100) = targetOpacity 2 (40 # 100) /\
  targetOpacity 2 (40 # 100) == 1 /\
  styleOpacity 5 (98 # 100) == 0 /\ 0 < targetOpacity 5 (98 # 100).
Proof.
  destruct (tube_html_and_3d_agree (40 # 100)) as (A & _ & _).
  destruct (tube_html_and_3d_agree (98 # 100)) as (_ & _ & B).
  split; [apply A; unfold TUBE_END; lra|]. split; [reflexivity|].
  apply B; unfold TUBE_END; lra.
Defined.

End TubeTexts.

(* ====================================================================== *)
(** * Part XVIII.  Further properties: the 3D texts and the blobs *)
(* ====================================================================== *)

Section DomeTextTheorems.

Import Fisheye DomeText.
Local Open Scope R_scope.

(** The local position lies on the sphere of radius [distance]. *)
Lemma domeToLocalPosition_length (angle rotation distance : R) :
  let p := domeToLocalPosition angle rotation distance in
  dot p p = distance * distance.
Proof.
  unfold domeToLocalPosition, dot. cbn.
  pose proof (sin2_cos2 (degToRad angle)) as Ha.
  pose proof (sin2_cos2 (degToRad (rotation - 90))) as Hr.
  unfold Rsqr in Ha, Hr.
  generalize dependent (sin (degToRad angle)). intros sa.
  generalize (cos (degToRad angle)). intros ca.
  generalize dependent (sin (degToRad (rotation - 90))). intros sr.
  generalize (cos (degToRad (rotation - 90))). intros cr Hr Ha.
  replace (cr * (sa * distance) * (cr * (sa * distance))
           + sr * (sa * distance) * (sr * (sa * distance))
           + - ca * distance * (- ca * distance))
    with (distance * distance * (sa * sa * (sr * sr + cr * cr) + ca * ca)) by ring.
  rewrite Hr, Rmult_1_r, Ha. ring.
Qed.

(** With the camera's axes orthonormal, the third axis that
    [update3DTextPositions] builds is their cross product as it is. *)
Lemma cameraRight_is_cross (d u : vec3) :
  dot d d = 1 -> dot u u = 1 -> dot d u = 0 ->
  normalize (crossVectors d u) = crossVectors d u.
Proof.
  intros Hd Hu Hdu.
  assert (L : dot (crossVectors d u) (crossVectors d u)
              = dot d d * dot u u - dot d u * dot d u)
    by (unfold dot, crossVectors; cbn; ring).
  rewrite Hd, Hu, Hdu in L.
  assert (Hl : vlength (crossVectors d u) = 1).
  { unfold vlength. rewrite L. replace (1 * 1 - 0 * 0) with 1 by ring. apply sqrt_1. }
  unfold normalize. rewrite Hl.
  destruct (Req_EM_T 1 0) as [C | _]; [lra|].
  unfold multiplyScalar. rewrite Rinv_1, !Rmult_1_r.
  destruct (crossVectors d u). reflexivity.
Qed.

(** X22.  Wherever the camera is and however it is turned, a 3D text is
    placed at its [distance] from the camera and at its [angle] from the
    viewing axis.  With [rotation] 0, which every text of the page has, it
    lies in the plane of the viewing axis and the camera's up axis, on the
    side away from up when the angle is positive. *)
Theorem text_keeps_its_place_on_the_dome :
  forall (c d u : vec3) (angle rotation distance : R),
    dot d d = 1 -> dot u u = 1 -> dot d u = 0 ->
    let v := sub (worldPos c d u angle rotation distance) c in
    dot v v = distance * distance /\
    dot v d = distance * cos (degToRad angle) /\
    (rotation = 0 ->
     dot v u = - (distance * sin (degToRad angle)) /\ dot v (crossVectors d u) = 0).
Proof.
  intros c d u angle rotation distance Hd Hu Hdu v.
  assert (Hv : v = add (add (multiplyScalar (crossVectors d u)
                               (x3 (domeToLocalPosition angle rotation distance)))
                            (multiplyScalar u (y3 (domeToLocalPosition angle rotation distance))))
                       (multiplyScalar d (- z3 (domeToLocalPosition angle rotation distance)))).
  { unfold v, worldPos. cbv zeta. rewrite (cameraRight_is_cross d u Hd Hu Hdu).
    unfold sub, add, multiplyScalar. cbn. f_equal; ring. }
  pose proof (domeToLocalPosition_length angle rotation distance) as Hlen.
  cbv zeta in Hlen.
  assert (Hz : z3 (domeToLocalPosition angle rotation distance)
               = - cos (degToRad angle) * distance) by reflexivity.
  assert (Hy : y3 (domeToLocalPosition angle rotation distance)
               = sin (degToRad (rotation - 90)) * (sin (degToRad angle) * distance))
    by reflexivity.
  assert (Hx : x3 (domeToLocalPosition angle rotation distance)
               = cos (degToRad (rotation - 90)) * (sin (degToRad angle) * distance))
    by reflexivity.
  generalize dependent (domeToLocalPosition angle rotation distance). intros p Hv Hlen Hz Hy Hx.
  destruct p as [px py pz]. cbn in Hv, Hlen, Hz, Hy, Hx. unfold dot in Hlen. cbn in Hlen.
  destruct d as [d1 d2 d3], u as [u1 u2 u3].
  unfold dot in Hd, Hu, Hdu. cbn in Hd, Hu, Hdu.
  assert (Cc : let r := crossVectors (mkVec3 d1 d2 d3) (mkVec3 u1 u2 u3) in
               dot r r = 1 /\ dot r (mkVec3 u1 u2 u3) = 0 /\ dot r (mkVec3 d1 d2 d3) = 0).
  { cbv zeta. unfold dot, crossVectors. cbn. repeat split; [|ring|ring].
    replace ((d2 * u3 - d3 * u2) * (d2 * u3 - d3 * u2)
             + (d3 * u1 - d1 * u3) * (d3 * u1 - d1 * u3)
             + (d1 * u2 - d2 * u1) * (d1 * u2 - d2 * u1))
      with ((d1 * d1 + d2 * d2 + d3 * d3) * (u1 * u1 + u2 * u2 + u3 * u3)
            - (d1 * u1 + d2 * u2 + d3 * u3) * (d1 * u1 + d2 * u2 + d3 * u3)) by ring.
    rewrite Hd, Hu, Hdu. ring. }
  rewrite Hv. clear Hv v.
  generalize dependent (crossVectors (mkVec3 d1 d2 d3) (mkVec3 u1 u2 u3)).
  intros [r1 r2 r3] (Hrr & Hru & Hrd). unfold dot in Hrr, Hru, Hrd. cbn in Hrr, Hru, Hrd.
  unfold dot, add, multiplyScalar. cbn.
  split; [|split].
  - replace ((r1 * px + u1 * py + d1 * - pz) * (r1 * px + u1 * py + d1 * - pz)
             + (r2 * px + u2 * py + d2 * - pz) * (r2 * px + u2 * py + d2 * - pz)
             + (r3 * px + u3 * py + d3 * - pz) * (r3 * px + u3 * py + d3 * - pz))
      with (px * px * (r1 * r1 + r2 * r2 + r3 * r3)
            + py * py * (u1 * u1 + u2 * u2 + u3 * u3)
            + pz * pz * (d1 * d1 + d2 * d2 + d3 * d3)
            + 2 * px * py * (r1 * u1 + r2 * u2 + r3 * u3)
            - 2 * px * pz * (r1 * d1 + r2 * d2 + r3 * d3)
            - 2 * py * pz * (d1 * u1 + d2 * u2 + d3 * u3)) by ring.
    rewrite Hrr, Hu, Hd, Hru, Hrd, Hdu, <- Hlen. ring.
  - replace ((r1 * px + u1 * py + d1 * - pz) * d1 + (r2 * px + u2 * py + d2 * - pz) * d2
             + (r3 * px + u3 * py + d3 * - pz) * d3)
      with (px * (r1 * d1 + r2 * d2 + r3 * d3) + py * (d1 * u1 + d2 * u2 + d3 * u3)
            - pz * (d1 * d1 + d2 * d2 + d3 * d3)) by ring.
    rewrite Hrd, Hdu, Hd, Hz. ring.
  - intros Hrot. subst rotation.
    assert (Eq : degToRad (0 - 90) = - (PI / 2)) by (unfold degToRad; field).
    rewrite Eq, sin_neg, sin_PI2 in Hy. rewrite Eq, cos_neg, cos_PI2 in Hx.
    split.
    + replace ((r1 * px + u1 * py + d1 * - pz) * u1 + (r2 * px + u2 * py + d2 * - pz) * u2
               + (r3 * px + u3 * py + d3 * - pz) * u3)
        with (px * (r1 * u1 + r2 * u2 + r3 * u3) + py * (u1 * u1 + u2 * u2 + u3 * u3)
              - pz * (d1 * u1 + d2 * u2 + d3 * u3)) by ring.
      rewrite Hru, Hu, Hdu, Hy. ring.
    + replace ((r1 * px + u1 * py + d1 * - pz) * r1 + (r2 * px + u2 * py + d2 * - pz) * r2
               + (r3 * px + u3 * py + d3 * - pz) * r3)
        with (px * (r1 * r1 + r2 * r2 + r3 * r3) + py * (r1 * u1 + r2 * u2 + r3 * u3)
              - pz * (r1 * d1 + r2 * d2 + r3 * d3)) by ring.
      rewrite Hrr, Hru, Hrd, Hx. ring.
Qed.

Lemma text_keeps_its_place_on_the_dome_witness :
  let v := sub (worldPos (mkVec3 (-100) 100 50) (mkVec3 0 0 (-1)) (mkVec3 0 1 0) 70 0 300)
               (mkVec3 (-100) 100 50) in
  dot v v = 300 * 300 /\ dot v (mkVec3 0 0 (-1)) = 300 * cos (degToRad 70).
Proof.
  intros v.
  assert (Hd : dot (mkVec3 0 0 (-1)) (mkVec3 0 0 (-1)) = 1) by (unfold dot; cbn; lra).
  assert (Hu : dot (mkVec3 0 1 0) (mkVec3 0 1 0) = 1) by (unfold dot; cbn; lra).
  assert (Hdu : dot (mkVec3 0 0 (-1)) (mkVec3 0 1 0) = 0) by (unfold dot; cbn; lra).
  destruct (text_keeps_its_place_on_the_dome (mkVec3 (-100) 100 50) (mkVec3 0 0 (-1))
              (mkVec3 0 1 0) 70 0 300 Hd Hu Hdu) as (A & B & _).
  split; [exact A | exact B].
Defined.

End DomeTextTheorems.

Section BlobTheorems.

Import Blobs.
Local Open Scope R_scope.

(** The loop runs for exactly the naturals below [numblobs]. *)
Lemma iterations_spec (numblobs : R) (i : nat) :
  (i < iterations numblobs)%nat <-> INR i < numblobs.
Proof.
  unfold iterations. destruct (archimed (- numblobs)) as [A B].
  rewrite INR_IZR_INZ. split.
  - intros H.
    assert (Hz : (Z.of_nat i <= - up (- numblobs))%Z) by lia.
    apply IZR_le in Hz. rewrite opp_IZR in Hz. lra.
  - intros H.
    assert (Hz : (Z.of_nat i < 1 - up (- numblobs))%Z).
    { apply lt_IZR. rewrite minus_IZR. lra. }
    lia.
Qed.

Lemma balls_AddBall (l : list Ball) : balls (map AddBall l) = l.
Proof. induction l as [| b l IH]; [reflexivity|]. cbn. f_equal. exact IH. Qed.

Lemma balls_app (l1 l2 : list FieldCall) : balls (l1 ++ l2) = (balls l1 ++ balls l2)%list.
Proof. apply flat_map_app. Qed.

Lemma balls_updateCubes (material : string) (time numblobs : R) (floor wallx wallz : bool) :
  balls (updateCubes material time numblobs floor wallx wallz)
  = map (ball_at material time (1.2 / ((sqrt numblobs - 1) / 4 + 1)))
        (seq 0 (iterations numblobs)).
Proof.
  unfold updateCubes. cbv zeta. rewrite !balls_app.
  rewrite <- (map_map (ball_at material time (1.2 / ((sqrt numblobs - 1) / 4 + 1))) AddBall).
  rewrite balls_AddBall.
  destruct floor, wallz, wallx; cbn; rewrite app_nil_r; reflexivity.
Qed.

(** X23.  Every ball that [updateCubes] adds lies inside the unit cube of
    the field, away from its side walls, whatever the time; its strength is
    positive and at most 1.6; and one ball is added for each natural below
    [numblobs], which the tween makes fractional. *)
Theorem blobs_stay_in_the_field :
  forall (material : string) (time numblobs : R) (floor wallx wallz : bool),
    let added := balls (updateCubes material time numblobs floor wallx wallz) in
    (forall b : Ball,
       In b added ->
       0.23 <= ballx b <= 0.77 /\ 0 <= bally b <= 0.77 /\ 0.23 <= ballz b <= 0.77 /\
       0 < strength b <= 1.6 /\ subtract b = 12) /\
    (forall i : nat, (i < List.length added)%nat <-> INR i < numblobs).
Proof.
  intros material time numblobs floor wallx wallz added.
  unfold added. rewrite balls_updateCubes. split.
  - intros b Hb. apply in_map_iff in Hb as (i & <- & _). unfold ball_at. cbn.
    pose proof (SIN_bound (INR i + 1.26 * time * (1.03 + 0.5 * cos (0.21 * INR i)))) as S1.
    pose proof (COS_bound (INR i + 1.12 * time * cos (1.22 + 0.1424 * INR i))) as C1.
    pose proof (COS_bound (INR i + 1.32 * time * 0.1 * sin (0.92 + 0.53 * INR i))) as C2.
    pose proof (Rabs_pos (cos (INR i + 1.12 * time * cos (1.22 + 0.1424 * INR i)))) as A0.
    assert (A1 : Rabs (cos (INR i + 1.12 * time * cos (1.22 + 0.1424 * INR i))) <= 1)
      by (apply Rabs_le; lra).
    assert (St : 0 < 1.2 / ((sqrt numblobs - 1) / 4 + 1) <= 1.6).
    { pose proof (sqrt_pos numblobs) as Q0.
      set (den := (sqrt numblobs - 1) / 4 + 1).
      assert (D : 3 / 4 <= den) by (unfold den; lra).
      assert (I : 0 < / den <= 4 / 3).
      { split; [apply Rinv_0_lt_compat; lra|].
        replace (4 / 3) with (/ (3 / 4)) by field.
        apply Rinv_le_contravar; lra. }
      unfold Rdiv. lra. }
    repeat split; lra.
  - intros i. rewrite length_map, length_seq. apply iterations_spec.
Qed.

(** X24.  The page never colours a ball: the material that the step machine
    holds is never [multiColors], so the branch of [updateCubes] that passes
    a colour of the rainbow is not taken in any state the page can reach. *)
Theorem blobs_are_never_coloured :
  forall (present : nat -> bool) (instruction : bool) (evs : list Scroll.Event)
         (time numblobs : R) (floor wallx wallz : bool),
    let s := Scroll.run (Scroll.initial present instruction) evs in
    Forall (fun b : Ball => colour b = None)
      (balls (updateCubes (Scroll.getCurrentMaterial s) time numblobs floor wallx wallz)).
Proof.
  intros present instruction evs time numblobs floor wallx wallz s.
  rewrite balls_updateCubes. apply Forall_forall. intros b Hb.
  apply in_map_iff in Hb as (i & <- & _).
  unfold ball_at. cbn [colour].
  destruct (well_formed_run evs _ (well_formed_initial present instruction)) as (Hin & _).
  fold s in Hin. unfold Scroll.getCurrentMaterial.
  destruct (material_cases s Hin) as [E | E]; rewrite E; reflexivity.
Qed.

End BlobTheorems.

(* ====================================================================== *)
(** * Part XIX.  Further properties: resizing the window while capturing *)
(* ====================================================================== *)

Section ResizeTheorems.

(** X25.  A resize of the window gives the renderer the size of the window
    even while an image sequence is being captured at its own resolution,
    and the sequence goes on: the next frame that is produced is captured
    with the size of the window, so that one sequence holds frames of
    different sizes. *)
Theorem resize_changes_the_size_of_captured_frames :
  forall (w : World) (e e' : Env) (wd ht : Z),
    DOME_MODE (dome w) = true ->
    cubeCamera (dome w) = true ->
    imageSequenceMode (rec w) = true ->
    fst (shouldRenderDomeFrame e' w) = true ->
    let w1 := step w (e, WindowResize wd ht) in
    let w2 := step w1 (e', AnimationFrame) in
    rendererSize (host w1) = (wd, ht) /\
    imageSequenceMode (rec w1) = true /\
    imageSequenceFrames (rec w2)
      = (imageSequenceFrames (rec w)
         ++ [PngDataURL
               (Domemaster (time (app w) + (1 / inject_Z DOME_TARGET_FPS) * speed (app w) * (1 # 2))%Q
                  (Qfloor (inject_Z wd * devicePixelRatio (host w)))
                  (Qfloor (inject_Z ht * devicePixelRatio (host w))))])%list.
Proof.
  intros w e e' wd ht Hm Hc Hs Hp w1 w2.
  assert (H1 : w1 = setSize wd ht (set_inner wd ht w)) by reflexivity.
  split; [rewrite H1; reflexivity|]. split; [rewrite H1; exact Hs|].
  unfold w2. cbn [step]. unfold animate.
  assert (Hm1 : isDomeMode w1 = true) by (rewrite H1; exact Hm).
  rewrite Hm1.
  assert (Hp1 : shouldRenderDomeFrame e' w1
                = (fst (shouldRenderDomeFrame e' w),
                   setSize wd ht (set_inner wd ht (snd (shouldRenderDomeFrame e' w))))).
  { rewrite H1. unfold shouldRenderDomeFrame.
    change (DOME_MODE (dome (setSize wd ht (set_inner wd ht w))))
      with (DOME_MODE (dome w)).
    change (lastFrameTime (dome (setSize wd ht (set_inner wd ht w))))
      with (lastFrameTime (dome w)).
    rewrite Hm. cbn [negb].
    destruct (Qlt_le_dec (now e' - lastFrameTime (dome w)) DOME_FRAME_DURATION);
      [reflexivity|].
    cbv zeta. break_world w. cbn.
    match goal with
    | |- context [if ?b then _ else _] => destruct b
    end; reflexivity. }
  rewrite Hp1, Hp. cbn [negb].
  pose proof (calm_shouldRenderDomeFrame e' w) as [[Fm Fc] (Sm & Sf & _)].
  assert (Ht : time (app (snd (shouldRenderDomeFrame e' w))) = time (app w)
               /\ speed (app (snd (shouldRenderDomeFrame e' w))) = speed (app w)
               /\ devicePixelRatio (host (snd (shouldRenderDomeFrame e' w)))
                  = devicePixelRatio (host w)).
  { unfold shouldRenderDomeFrame. rewrite Hm. cbn [negb].
    destruct (Qlt_le_dec (now e' - lastFrameTime (dome w)) DOME_FRAME_DURATION);
      [repeat split|].
    cbv zeta. break_world w. cbn.
    match goal with
    | |- context [if ?b then _ else _] => destruct b
    end; repeat split. }
  destruct Ht as (Ht & Hsp & Hr).
  generalize dependent (snd (shouldRenderDomeFrame e' w)). intros v _ Fm Fc Sm Sf Ht Hsp Hr.
  rewrite Hm in Fm. rewrite Hc in Fc. rewrite Hs in Sm.
  unfold render, render_delta, isDomeMode, renderDome, isImageSequenceMode,
    captureImageSequenceFrame, renderFisheye, toDataURL, getDomeTargetFPS,
    domElement_width, domElement_height.
  break_world v. cbn in Fm, Fc, Sm, Sf, Ht, Hsp, Hr. subst. cbn.
  match goal with
  | |- context [if ?b then _ else _] => destruct b
  end; reflexivity.
Qed.

Lemma resize_changes_the_size_of_captured_frames_witness :
  let w := run (initial 1920 1080 1 true (1 # 2))
               [ (mkEnv 0 0, KeyDown "d"); (mkEnv 10 0, KeyDown "s") ] in
  let w1 := step w (mkEnv 20 0, WindowResize 1280 720) in
  let w2 := step w1 (mkEnv 50 0, AnimationFrame) in
  rendererSize (host w) = (2048, 2048)%Z /\
  rendererSize (host w1) = (1280, 720)%Z /\
  imageSequenceFrames (rec w2) = [PngDataURL (Domemaster (1 # 120) 1280 720)].
Proof.
  intros w w1 w2.
  assert (Hm : DOME_MODE (dome w) = true) by reflexivity.
  assert (Hc : cubeCamera (dome w) = true) by reflexivity.
  assert (Hs : imageSequenceMode (rec w) = true) by reflexivity.
  assert (Hp : fst (shouldRenderDomeFrame (mkEnv 50 0) w) = true) by reflexivity.
  destruct (resize_changes_the_size_of_captured_frames w (mkEnv 20 0) (mkEnv 50 0) 1280 720
              Hm Hc Hs Hp) as (A & _ & B).
  split; [reflexivity|]. split; [exact A|]. vm_compute. reflexivity.
Defined.

End ResizeTheorems.

(* ====================================================================== *)
(** * Part XX.  Further properties: the camera on the path of the tube *)
(* ====================================================================== *)

Section PathTheorems.

Import Unborn.
Local Open Scope Q_scope.

Lemma js_rem_below (x : Q) (b : Z) :
  (0 < b)%Z -> 0 <= x -> x < inject_Z b -> js_rem x (inject_Z b) == x.
Proof.
  intros Hb H0 H1. unfold js_rem.
  assert (Hb' : 0 < inject_Z b) by (change 0 with (inject_Z 0); rewrite <- Zlt_Qlt; exact Hb).
  assert (Hd : 0 <= x / inject_Z b) by (apply Qle_shift_div_l; lra).
  assert (Hu : x / inject_Z b < 1) by (apply Qlt_shift_div_r; lra).
  rewrite (Qtrunc_nonneg _ Hd).
  rewrite (Qfloor_unique (x / inject_Z b) 0);
    [change (inject_Z 0) with 0; ring | exact Hd | exact Hu].
Qed.

Lemma js_rem_one (x : Q) : 0 <= x -> 0 <= js_rem x 1 /\ js_rem x 1 < 1.
Proof.
  intros H0. unfold js_rem.
  assert (E : x / 1 == x) by field.
  assert (Hd : 0 <= x / 1) by lra.
  rewrite (Qtrunc_nonneg _ Hd).
  pose proof (Qfloor_le (x / 1)) as F1. pose proof (Qlt_floor (x / 1)) as F2.
  rewrite inject_Z_plus in F2. change (inject_Z 1) with 1 in F2.
  split; lra.
Qed.

(** The target of the camera is on the tube, or it is the 1 that stops the
    travel. *)
Definition target_ok (s : State) : Prop :=
  (0 <= cameraTargetPercentage s /\ cameraTargetPercentage s <= TUBE_END) \/
  cameraTargetPercentage s == 1.

Lemma target_ok_step (s : State) (ev : Event) :
  on_tube ev -> target_ok s -> target_ok (step s ev).
Proof.
  intros Hev Hs. destruct ev as [y | | | | | percent]; cbn [step].
  - unfold onTrigger, changeCameraAndText.
    destruct ((0 <? y)%Z && (scene2Step s <? totalSteps)%Z); cbn;
      [destruct (at_index cameraSteps (scene2Step s + 1)); cbn|];
      repeat match goal with
             | |- context [if ?b then _ else _] => destruct b; cbn
             | |- context [match at_index ?l ?i with Some _ => _ | None => _ end] =>
                 destruct (at_index l i); cbn
             end; exact Hs.
  - destruct (pendingStarts s); [exact Hs|]. unfold onStart, target_ok. cbn.
    destruct (3 <=? scene2Step s)%Z; cbn; destruct (scene2Step s =? 6)%Z; cbn;
      solve [exact Hs | right; reflexivity].
  - destruct (introPending s); exact Hs.
  - destruct (textTimers s); [exact Hs|]. unfold textTimer. cbn.
    destruct (at_index (scene2texts s) (scene2Step s)); exact Hs.
  - destruct (buttonTimers s); exact Hs.
  - left. exact Hev.
Qed.

Lemma target_ok_run (evs : list Event) :
  forall s : State, Forall on_tube evs -> target_ok s -> target_ok (run s evs).
Proof.
  induction evs as [| ev evs IH]; intros s Hevs Hs; [exact Hs|].
  inversion Hevs as [| ? ? Hev Hrest]; subst.
  cbn [run fold_left]. apply (IH (step s ev) Hrest), target_ok_step; assumption.
Qed.

(** X28.  [updateCameraPercentage] takes the look-at point modulo 3, not
    modulo 1; yet in no frame does [render] ask the path for a point outside
    of it.  While the tube's tween stays in its range, the target of the
    camera is on the tube or is exactly 1; in the first case the camera is
    put at the target and looks at the point 0.03 further, which is still
    before the end of the path, and in the second the camera is not moved
    at all. *)
Theorem tube_camera_stays_on_the_path :
  forall (percent : Q) (visible : bool) (evs : list Event),
    0 <= percent -> percent <= TUBE_END ->
    Forall on_tube evs ->
    let s := run (initial percent visible) evs in
    match pathLookups s with
    | Some (p1, p2, p3) =>
        p1 == cameraTargetPercentage s /\
        p2 == cameraTargetPercentage s + (3 # 100) /\
        0 <= p1 /\ p1 < 1 /\ 0 <= p2 /\ p2 < 1 /\ 0 <= p3 /\ p3 < 1
    | None => cameraTargetPercentage s == 1
    end.
Proof.
  intros percent visible evs H0 H1 Hevs s.
  assert (Hs : target_ok s).
  { apply target_ok_run; [exact Hevs|]. left. split; assumption. }
  unfold pathLookups, updateCameraPercentage.
  destruct (Qlt_le_dec (cameraTargetPercentage s) 1) as [Hlt | Hge].
  - destruct Hs as [[A B] | C]; [|lra]. unfold TUBE_END in B.
    pose proof (js_rem_below (cameraTargetPercentage s) 1 eq_refl A Hlt) as E1.
    assert (A2 : 0 <= cameraTargetPercentage s + (3 # 100)) by lra.
    assert (B2 : cameraTargetPercentage s + (3 # 100) < inject_Z 3)
      by (change (inject_Z 3) with 3; lra).
    pose proof (js_rem_below _ 3 eq_refl A2 B2) as E2.
    assert (A3 : 0 <= cameraTargetPercentage s + (5 # 100)) by lra.
    destruct (js_rem_one _ A3) as [L3 U3].
    change (inject_Z 1) with 1 in E1. change (inject_Z 3) with 3 in E2.
    repeat split; try assumption; lra.
  - destruct Hs as [[A B] | C]; [unfold TUBE_END in B; lra | exact C].
Qed.

Lemma tube_camera_stays_on_the_path_witness :
  let s := run (initial 0 false) [TubeUpdate (1 # 2); TubeUpdate (96 # 100)] in
  match pathLookups s with
  | Some (p1, p2, p3) => p1 == 96 # 100 /\ p2 == 99 # 100 /\ p3 == 1 # 100 /\ p2 < 1
  | None => False
  end.
Proof.
  intros s.
  assert (Hevs : Forall on_tube [TubeUpdate (1 # 2); TubeUpdate (96 # 100)]).
  { repeat constructor; unfold TUBE_END; cbn; lra. }
  assert (H0 : 0 <= 0) by lra.
  assert (H1 : 0 <= TUBE_END) by (unfold TUBE_END; lra).
  pose proof (tube_camera_stays_on_the_path 0 false _ H0 H1 Hevs) as T.
  cbv zeta in T. fold s in T.
  assert (E : pathLookups s = Some (96 # 100, 9900 # 10000, 100 # 10000))
    by (vm_compute; reflexivity).
  rewrite E in T |- *.
  split; [reflexivity|]. split; [reflexivity|]. split; [reflexivity|]. apply T.
Defined.

End PathTheorems.

(* ====================================================================== *)
(** * Part XXI.  Further properties: the clock and the size of the renderer *)
(* ====================================================================== *)

Section ClockAndSize.

Local Open Scope Q_scope.

Lemma last_cons_default {A : Type} (a d : A) (l : list A) : last (a :: l) d = last l a.
Proof.
  revert a d. induction l as [| b l IH]; intros a d; [reflexivity|].
  change (last (a :: b :: l) d) with (last (b :: l) d).
  rewrite (IH b d), (IH b a). reflexivity.
Qed.

(** One frame outside dome mode: the time advances by the time that has
    passed on the clock. *)
Lemma animate_standard (e : Env) (w : World) (t0 : Q) :
  DOME_MODE (dome w) = false ->
  clock_oldTime (app w) = Some t0 ->
  let w' := animate e w in
  DOME_MODE (dome w') = false /\
  clock_oldTime (app w') = Some (now e) /\
  speed (app w') = speed (app w) /\
  time (app w') == time (app w) + (now e - t0) / 1000 * speed (app w) * (1 # 2).
Proof.
  intros Hm Hc. unfold animate, render, render_delta, clock_getDelta, isDomeMode.
  rewrite Hm, Hc. cbn. break_world w. cbn in Hm, Hc. subst. cbn.
  split; [reflexivity|]. split; [reflexivity|]. split; reflexivity.
Qed.

Lemma set_speed_same (w : World) : set_speed (speed (app w)) w = w.
Proof. break_world w. reflexivity. Qed.

Lemma tweened_frame_standard (e : Env) (s : Q) (w : World) (t0 : Q) :
  DOME_MODE (dome w) = false ->
  clock_oldTime (app w) = Some t0 ->
  let w' := tweened_frame w (e, s) in
  DOME_MODE (dome w') = false /\
  clock_oldTime (app w') = Some (now e) /\
  speed (app w') = s /\
  time (app w') == time (app w) + (now e - t0) / 1000 * s * (1 # 2).
Proof.
  intros Hm Hc.
  destruct (animate_standard e (set_speed s w) t0 Hm Hc) as (A & B & C & D).
  cbv zeta. unfold tweened_frame. cbn [fst snd].
  split; [exact A|]. split; [exact B|]. split; [exact C|exact D].
Qed.

Lemma clock_integral_constant (s : Q) (fs : list (Env * Q)) :
  Forall (fun f => snd f == s) fs ->
  forall t0 : Q,
    clock_integral t0 fs
      == (last (map (fun f => now (fst f)) fs) t0 - t0) / 1000 * s * (1 # 2).
Proof.
  induction 1 as [| f fs Hf _ IH]; intros t0.
  - cbn. field.
  - cbn [clock_integral map]. rewrite (IH (now (fst f))), last_cons_default, Hf. field.
Qed.

(** X27.  Outside dome mode each frame advances the time of the simulation
    by the time that has passed on the clock since the frame before, times
    half the speed that [effectController] has at that frame; the step
    machine of the page tweens that speed between frames.  When the speed is
    the same at every frame, the advance is the time between the last
    reading of the clock and the last frame, times half the speed, whatever
    the number and the spacing of the frames; and when the speed is never
    touched, the frames are those of the page's own loop. *)
Theorem standard_mode_follows_the_clock :
  forall (fs : list (Env * Q)) (w : World) (t0 : Q),
    DOME_MODE (dome w) = false ->
    clock_oldTime (app w) = Some t0 ->
    let w' := tweened_frames w fs in
    time (app w') == time (app w) + clock_integral t0 fs /\
    (forall s : Q,
       Forall (fun f => snd f == s) fs ->
       time (app w')
         == time (app w)
            + (last (map (fun f => now (fst f)) fs) t0 - t0) / 1000 * s * (1 # 2)) /\
    (Forall (fun f => snd f = speed (app w)) fs ->
     w' = run w (map (fun f => (fst f, AnimationFrame)) fs)).
Proof.
  intros fs w t0 Hm Hc w'.
  assert (T : time (app w') == time (app w) + clock_integral t0 fs).
  { unfold w'. clear w'. revert w t0 Hm Hc.
    induction fs as [| [e s] fs IH]; intros w t0 Hm Hc.
    - cbn. ring.
    - cbn [tweened_frames fold_left clock_integral fst snd].
      destruct (tweened_frame_standard e s w t0 Hm Hc) as (Hm1 & Hc1 & _ & Ht1).
      specialize (IH (tweened_frame w (e, s)) (now e) Hm1 Hc1).
      unfold tweened_frames in IH. rewrite IH, Ht1. ring. }
  split; [exact T|]. split.
  - intros s Hs. rewrite T, (clock_integral_constant s fs Hs t0). reflexivity.
  - unfold w'. clear T w'. revert w t0 Hm Hc.
    induction fs as [| [e s] fs IH]; intros w t0 Hm Hc Hs; [reflexivity|].
    inversion Hs as [| f l Hf Hl]; subst. cbn [snd] in Hf. subst s.
    cbn [tweened_frames fold_left map run fst step].
    destruct (tweened_frame_standard e (speed (app w)) w t0 Hm Hc) as (Hm1 & Hc1 & Hs1 & _).
    assert (E : tweened_frame w (e, speed (app w)) = animate e w)
      by (unfold tweened_frame; cbn [fst snd]; rewrite set_speed_same; reflexivity).
    rewrite E in *.
    apply (IH (animate e w) (now e) Hm1 Hc1).
    rewrite Hs1. exact Hl.
Qed.

Lemma standard_mode_follows_the_clock_witness :
  let w := run (initial 1920 1080 1 true (1 # 2)) [ (mkEnv 100 0, AnimationFrame) ] in
  let steady := [ (mkEnv 116 0, 1 # 2); (mkEnv 150 0, 1 # 2); (mkEnv 1100 0, 1 # 2) ] in
  let tweened := [ (mkEnv 116 0, 1 # 2); (mkEnv 150 0, 1); (mkEnv 1100 0, 2) ] in
  time (app w) == 0 /\
  time (app (run w [ (mkEnv 116 0, AnimationFrame); (mkEnv 150 0, AnimationFrame);
                     (mkEnv 1100 0, AnimationFrame) ])) == 1 # 4 /\
  time (app (tweened_frames w tweened)) == 971 # 1000.
Proof.
  intros w steady tweened.
  assert (Hm : DOME_MODE (dome w) = false) by reflexivity.
  assert (Hc : clock_oldTime (app w) = Some 100) by reflexivity.
  destruct (standard_mode_follows_the_clock steady w 100 Hm Hc) as (_ & S & R).
  destruct (standard_mode_follows_the_clock tweened w 100 Hm Hc) as (T & _ & _).
  split; [reflexivity|]. split.
  - change (run w [ (mkEnv 116 0, AnimationFrame); (mkEnv 150 0, AnimationFrame);
                    (mkEnv 1100 0, AnimationFrame) ])
      with (run w (map (fun f : Env * Q => (fst f, AnimationFrame)) steady)).
    rewrite <- R by (repeat constructor).
    rewrite (S (1 # 2)) by (repeat constructor; reflexivity).
    reflexivity.
  - rewrite T. reflexivity.
Defined.

Lemma Qfloor_times_Z (z k : Z) (r : Q) : r == inject_Z k -> Qfloor (inject_Z z * r) = (z * k)%Z.
Proof.
  intros H. assert (E : inject_Z z * r == inject_Z (z * k)) by (rewrite H, inject_Z_mult; ring).
  rewrite E. apply Qfloor_Z.
Qed.

(** One export with the [i] key in dome mode. *)
Lemma key_i_export (w : World) (e : Env) (k : Z) :
  devicePixelRatio (host w) == inject_Z k ->
  DOME_MODE (dome w) = true -> cubeCamera (dome w) = true ->
  let w' := step w (e, KeyDown "i") in
  rendererSize (host w')
    = (fst (rendererSize (host w)) * k, snd (rendererSize (host w)) * k)%Z /\
  devicePixelRatio (host w') = devicePixelRatio (host w) /\
  DOME_MODE (dome w') = true /\ cubeCamera (dome w') = true /\
  List.length (downloads (host w')) = S (List.length (downloads (host w))).
Proof.
  intros Hr Hm Hc.
  assert (E : step w (e, KeyDown "i") = exportSingleFrame e w).
  { cbn [step]. unfold domeKeydown, recordingKeydown, domeKey_d, domeKey_f, domeKey_e,
      recordingKey_r, recordingKey_i, recordingKey_s. cbn. unfold isDomeMode.
    rewrite Hm. reflexivity. }
  cbv zeta. rewrite E.
  assert (A : rendererSize (host (exportSingleFrame e w))
              = (domElement_width w, domElement_height w)
              /\ devicePixelRatio (host (exportSingleFrame e w)) = devicePixelRatio (host w)
              /\ DOME_MODE (dome (exportSingleFrame e w)) = true
              /\ cubeCamera (dome (exportSingleFrame e w)) = true
              /\ List.length (downloads (host (exportSingleFrame e w)))
                 = S (List.length (downloads (host w)))).
  { revert Hm Hc. unfold exportSingleFrame, getCubeCamera. break_world w. destruct_size.
    cbn [dome DOME_MODE cubeCamera]. intros -> ->. cbn.
    repeat split. rewrite length_app. cbn. lia. }
  destruct A as (A & B & C & D & F). rewrite A.
  unfold domElement_width, domElement_height.
  rewrite !(Qfloor_times_Z _ k _ Hr). repeat split; assumption.
Qed.

(** X26.  On a screen whose device pixel ratio is an integer [k], every
    export of a single frame with the [i] key multiplies the size of the
    renderer by [k]: the size it restores is read from the drawing buffer,
    which is [k] times the size that was set.  After [n] exports the
    renderer is [k ^ n] times as large as it was, and [n] files have been
    downloaded. *)
Theorem single_frame_export_scales_the_renderer :
  forall (envs : list Env) (w : World) (k : Z),
    devicePixelRatio (host w) == inject_Z k ->
    DOME_MODE (dome w) = true ->
    cubeCamera (dome w) = true ->
    let w' := run w (map (fun e => (e, KeyDown "i")) envs) in
    let n := Z.of_nat (List.length envs) in
    rendererSize (host w')
      = (fst (rendererSize (host w)) * k ^ n, snd (rendererSize (host w)) * k ^ n)%Z /\
    List.length (downloads (host w'))
      = (List.length (downloads (host w)) + List.length envs)%nat.
Proof.
  induction envs as [| e envs IH]; intros w k Hr Hm Hc; cbv zeta.
  - cbn. rewrite !Z.mul_1_r. destruct (rendererSize (host w)). split; [reflexivity | lia].
  - cbn [map run fold_left List.length].
    destruct (key_i_export w e k Hr Hm Hc) as (A & B & C & D & F).
    assert (Hr1 : devicePixelRatio (host (step w (e, KeyDown "i"))) == inject_Z k)
      by (rewrite B; exact Hr).
    specialize (IH (step w (e, KeyDown "i")) k Hr1 C D). cbv zeta in IH.
    unfold run in IH. destruct IH as [I1 I2]. rewrite I1, I2, A, F. cbn [fst snd].
    rewrite Nat2Z.inj_succ, Z.pow_succ_r by lia.
    split; [f_equal; ring | lia].
Qed.

Lemma single_frame_export_scales_the_renderer_witness :
  let w := run (initial 1920 1080 2 true (1 # 2)) [ (mkEnv 0 0, KeyDown "d") ] in
  let w' := run w [ (mkEnv 10 10, KeyDown "i"); (mkEnv 20 20, KeyDown "i") ] in
  rendererSize (host w) = (1920, 1080)%Z /\ rendererSize (host w') = (7680, 4320)%Z.
Proof.
  intros w w'.
  assert (Hr : devicePixelRatio (host w) == inject_Z 2) by reflexivity.
  assert (Hm : DOME_MODE (dome w) = true) by reflexivity.
  assert (Hc : cubeCamera (dome w) = true) by reflexivity.
  destruct (single_frame_export_scales_the_renderer [mkEnv 10 10; mkEnv 20 20] w 2 Hr Hm Hc)
    as [A _].
  split; [reflexivity|]. exact (eq_trans A eq_refl).
Defined.

End ClockAndSize.

(* ====================================================================== *)
(** * Part XXII.  Further properties: the canvas of a 3D text *)
(* ====================================================================== *)

Section TextTextureTheorems.

Import TextTexture.
Local Open Scope R_scope.

Lemma ceil_bounds (x : R) : x <= IZR (ceil x) /\ IZR (ceil x) < x + 1.
Proof.
  unfold ceil. destruct (archimed (- x)) as [A B].
  rewrite minus_IZR. split; lra.
Qed.

Lemma ln_2_pos : 0 < ln 2.
Proof. rewrite <- ln_1. apply ln_increasing; lra. Qed.

Lemma Rpower_2_log2 (x : R) : 0 < x -> Rpower 2 (log2 x) = x.
Proof.
  intros H. unfold Rpower, log2. pose proof ln_2_pos as L.
  replace (ln x / ln 2 * ln 2) with (ln x) by (field; lra).
  apply exp_ln, H.
Qed.

(** The power of two that [Math.pow(2, Math.ceil(Math.log2(x)))] is: the
    least one that is not below [x]. *)
Lemma power_of_two_above (x : R) :
  0 < x ->
  let n := ceil (log2 x) in
  Rpower 2 (IZR n) = powerRZ 2 n /\ x <= Rpower 2 (IZR n) /\ Rpower 2 (IZR n) < 2 * x.
Proof.
  intros H n. destruct (ceil_bounds (log2 x)) as [A B]. fold n in A, B.
  split; [symmetry; apply powerRZ_Rpower; lra|]. split.
  - rewrite <- (Rpower_2_log2 x H) at 1. apply Rle_Rpower; lra.
  - replace (2 * x) with (Rpower 2 (log2 x + 1)).
    + apply Rpower_lt; lra.
    + rewrite Rpower_plus, Rpower_1, (Rpower_2_log2 x H) by lra. ring.
Qed.

(** X29.  The canvas that [createTextTexture] makes for a text is a power
    of two wide, at least 128; it holds the text with its padding on both
    sides, and it is less than twice as wide as that needs.  Its height
    holds twice the size of the font with the padding, in the same way. *)
Theorem text_canvas_is_a_fitting_power_of_two :
  forall textWidth fontSize : R,
    0 <= textWidth ->
    0 <= fontSize ->
    let width := canvas_width textWidth in
    let height := canvas_height fontSize in
    (exists n : Z, (7 <= n)%Z /\ width = powerRZ 2 n) /\
    textWidth + 2 * padding <= width /\
    width < 2 * (textWidth + 2 * padding) /\
    (exists m : Z, height = powerRZ 2 m) /\
    fontSize * 2 + 2 * padding <= height /\
    height < 2 * (fontSize * 2 + 2 * padding).
Proof.
  intros textWidth fontSize H Hf width height.
  unfold width, height, canvas_width, canvas_height, padding.
  assert (Hx : 0 < textWidth + 60 * 2) by lra.
  assert (Hy : 0 < fontSize * 2 + 60 * 2) by lra.
  destruct (power_of_two_above _ Hx) as (E & L & U). cbv zeta in E, L, U.
  destruct (power_of_two_above _ Hy) as (E' & L' & U'). cbv zeta in E', L', U'.
  split; [|repeat split; try lra; eexists; exact E'].
  exists (ceil (log2 (textWidth + 60 * 2))). split; [|exact E].
  destruct (Z_lt_le_dec (ceil (log2 (textWidth + 60 * 2))) 7) as [C | C]; [|exact C].
  exfalso.
  assert (M : Rpower 2 (IZR (ceil (log2 (textWidth + 60 * 2)))) <= Rpower 2 (IZR 6)).
  { apply Rle_Rpower; [lra|]. apply IZR_le. lia. }
  rewrite <- (powerRZ_Rpower 2 6) in M by lra.
  change (powerRZ 2 6) with (2 * (2 * (2 * (2 * (2 * (2 * 1)))))) in M. lra.
Qed.

Lemma text_canvas_is_a_fitting_power_of_two_witness :
  900 + 120 <= canvas_width 900 /\ canvas_width 900 < 2 * (900 + 120) /\
  224 <= canvas_height 52 /\ canvas_height 52 < 448.
Proof.
  assert (H0 : 0 <= 900) by lra.
  assert (H1 : 0 <= 52) by lra.
  destruct (text_canvas_is_a_fitting_power_of_two 900 52 H0 H1) as (_ & A & B & _ & C & D).
  unfold padding in *. cbv zeta in A, B, C, D.
  repeat split; lra.
Defined.

End TextTextureTheorems.
